(** * trustdidweb-py: the history log of a DID, its hash chain and its proofs

    A shallow embedding of [python/manage.py] (the log reader [load_log],
    the SCID derivation [update_scid], the proof functions [verify_proof]
    and [eddsa_sign]) and of [did_history/loader.py] ([iter_history]),
    followed by the properties of the specification that concern them.

    Python [str] values are modelled as [string]; the model is exact on ASCII
    text, and a non-ASCII character appears as the bytes of its UTF-8
    encoding.  Python [bytes] are [list byte].  JSON numbers are integers
    (the version numbers of the log); other numbers are outside the model. *)

From Stdlib Require Import ZArith List String Ascii Bool Lia.
From Stdlib Require Import Strings.Byte DecimalString.
Import ListNotations.

Set Warnings "-register-all".

Local Open Scope string_scope.
Local Open Scope Z_scope.

(** ** JSON values, as [json.loads] builds them *)

Inductive json : Type :=
| JNull
| JBool (b : bool)
| JInt (n : Z)
| JStr (s : string)
| JArr (items : list json)
| JObj (members : list (string * json)).

Definition bytes := list byte.

(** A Python [dict] with [str] keys keeps its insertion order, which
    [json.dumps] shows: an association list with distinct keys. *)
Definition dict := list (string * json).

Module Py.

(** [key in d] *)
Fixpoint dict_mem (key : string) (d : dict) : bool :=
  match d with
  | [] => false
  | (k, _) :: d' => if String.eqb k key then true else dict_mem key d'
  end.

(** [d[key]], [None] standing for [KeyError] *)
Fixpoint dict_lookup (key : string) (d : dict) : option json :=
  match d with
  | [] => None
  | (k, v) :: d' => if String.eqb k key then Some v else dict_lookup key d'
  end.

(** [d.get(key, default)] *)
Definition dict_get_default (key : string) (default : json) (d : dict) : json :=
  match dict_lookup key d with
  | Some v => v
  | None => default
  end.

(** [d.get(key)]: Python's [None] is [JNull] *)
Definition dict_get (key : string) (d : dict) : json :=
  dict_get_default key JNull d.

(** [d[key] = v]: an existing key keeps its place *)
Fixpoint dict_set (key : string) (v : json) (d : dict) : dict :=
  match d with
  | [] => [(key, v)]
  | (k, w) :: d' =>
      if String.eqb k key then (k, v) :: d' else (k, w) :: dict_set key v d'
  end.

(** [del d[key]] on a dict that holds [key] *)
Fixpoint dict_del (key : string) (d : dict) : dict :=
  match d with
  | [] => []
  | (k, w) :: d' =>
      if String.eqb k key then d' else (k, w) :: dict_del key d'
  end.

(** [j == s] for a [str] s: only a string with the same text is equal *)
Definition eq_str (j : json) (s : string) : bool :=
  match j with
  | JStr t => String.eqb t s
  | _ => false
  end.

(** [s in l] for a [str] s and a list l *)
Definition list_mem_str (s : string) (l : list json) : bool :=
  existsb (fun j => eq_str j s) l.

(** [s.startswith(p)] *)
Definition startswith (p s : string) : bool := String.prefix p s.

(** [s.split(sep)] for a separator of one character *)
Fixpoint split (sep : ascii) (s : string) : list string :=
  match s with
  | EmptyString => [EmptyString]
  | String c s' =>
      if Ascii.eqb c sep then EmptyString :: split sep s'
      else match split sep s' with
           | h :: t => String c h :: t
           | [] => [String c EmptyString]
           end
  end.

(** [sep.join(parts)] *)
Fixpoint join (sep : string) (parts : list string) : string :=
  match parts with
  | [] => EmptyString
  | [p] => p
  | p :: rest => p ++ sep ++ join sep rest
  end.

(** [s.replace(old, new)]: every occurrence of [old], left to right, without
    overlap.  [skip] counts the characters of a match still to drop. *)
Fixpoint replace_from (old new : string) (skip : nat) (s : string) : string :=
  match s with
  | EmptyString => EmptyString
  | String c s' =>
      match skip with
      | S k => replace_from old new k s'
      | O =>
          if String.prefix old s
          then new ++ replace_from old new (Nat.pred (String.length old)) s'
          else String c (replace_from old new O s')
      end
  end.

(** With an empty [old], Python puts [new] before every character and at the
    end. *)
Fixpoint intersperse (new s : string) : string :=
  match s with
  | EmptyString => new
  | String c s' => new ++ String c (intersperse new s')
  end.

Definition replace (old new s : string) : string :=
  match old with
  | EmptyString => intersperse new s
  | _ => replace_from old new O s
  end.

Definition lower_ascii (c : ascii) : ascii :=
  let n := nat_of_ascii c in
  if (Nat.leb 65 n && Nat.leb n 90)%bool then ascii_of_nat (n + 32) else c.

(** [s.lower()] *)
Fixpoint lower (s : string) : string :=
  match s with
  | EmptyString => EmptyString
  | String c s' => String (lower_ascii c) (lower s')
  end.

Definition is_digit (c : ascii) : bool :=
  let n := nat_of_ascii c in (Nat.leb 48 n && Nat.leb n 57)%bool.

(** [s.isdigit()]: false on the empty string.  The characters of a string
    are bytes here and the digits are the ASCII ones; Python also counts
    digits outside ASCII, which this model of [str] does not hold. *)
Definition isdigit (s : string) : bool :=
  match s with
  | EmptyString => false
  | _ => forallb is_digit (list_ascii_of_string s)
  end.

(** [int(s)] on a string of one digit, the only call of the source *)
Definition int_of_digit (s : string) : option Z :=
  match s with
  | String c EmptyString =>
      if is_digit c then Some (Z.of_nat (nat_of_ascii c) - 48) else None
  | _ => None
  end.

(** [b.decode("ascii")]: [UnicodeDecodeError] on a byte above 127 *)
Definition decode_ascii (b : bytes) : option string :=
  if forallb (fun x => N.ltb (Byte.to_N x) 128) b
  then Some (string_of_list_byte b) else None.

(** [s.encode("ascii")]: [UnicodeEncodeError] on a character above 127 *)
Definition encode_ascii (s : string) : option bytes :=
  let b := list_byte_of_string s in
  if forallb (fun x => N.ltb (Byte.to_N x) 128) b then Some b else None.

(** *** [base64.b32encode] (RFC 4648, with padding) *)

Definition b32_alphabet : string := "ABCDEFGHIJKLMNOPQRSTUVWXYZ234567".

Definition b32_char (i : N) : byte :=
  match String.get (N.to_nat i) b32_alphabet with
  | Some c => byte_of_ascii c
  | None => x3d
  end.

(** the eight characters of a group of five bytes, of which [n] are data *)
Definition b32_group (n : nat) (g : N) : bytes :=
  let ch k := b32_char (N.land (N.shiftr g (5 * k)) 31) in
  let pad := x3d in
  let keep := match n with
              | 1%nat => 2 | 2%nat => 4 | 3%nat => 5 | 4%nat => 7 | _ => 8
              end%nat in
  map (fun k => if Nat.ltb k keep then ch (N.of_nat (7 - k)) else pad)
      (seq 0 8).

Definition b32_pack (b0 b1 b2 b3 b4 : byte) : N :=
  (N.shiftl (Byte.to_N b0) 32 + N.shiftl (Byte.to_N b1) 24
   + N.shiftl (Byte.to_N b2) 16 + N.shiftl (Byte.to_N b3) 8
   + Byte.to_N b4)%N.

Fixpoint b32encode (b : bytes) : bytes :=
  match b with
  | [] => []
  | [b0] => b32_group 1 (b32_pack b0 x00 x00 x00 x00)
  | [b0; b1] => b32_group 2 (b32_pack b0 b1 x00 x00 x00)
  | [b0; b1; b2] => b32_group 3 (b32_pack b0 b1 b2 x00 x00)
  | [b0; b1; b2; b3] => b32_group 4 (b32_pack b0 b1 b2 b3 x00)
  | b0 :: b1 :: b2 :: b3 :: b4 :: rest =>
      (b32_group 5 (b32_pack b0 b1 b2 b3 b4) ++ b32encode rest)%list
  end.

End Py.

(** ** Exceptions and results *)

(** The exceptions the code raises or lets through.  A [RuntimeError] carries
    the message of the source. *)
Inductive exn : Type :=
| RuntimeError (msg : string)
| ValueError (msg : string)
| JSONDecodeError
| KeyError (key : string)
| TypeError
| AttributeError
| UnicodeError
| LibraryError (lib : string).

Inductive result (A : Type) : Type :=
| Ok (a : A)
| Raise (e : exn).

Arguments Ok {A} a.
Arguments Raise {A} e.

Definition bind {A B : Type} (c : result A) (k : A -> result B) : result B :=
  match c with
  | Ok a => k a
  | Raise e => Raise e
  end.

Notation "x <- c ;; k" := (bind c (fun x => k))
  (at level 61, c at next level, right associativity).
Notation "' p <- c ;; k" := (bind c (fun x => let p := x in k))
  (at level 61, p pattern, c at next level, right associativity).

(** [if cond: raise e] *)
Definition raise_if (cond : bool) (e : exn) : result unit :=
  if cond then Raise e else Ok tt.

Definition or_raise {A : Type} (o : option A) (e : exn) : result A :=
  match o with
  | Some a => Ok a
  | None => Raise e
  end.

(** [for x in l: body], the loop variable state threaded through *)
Fixpoint for_each {A S : Type} (l : list A) (body : A -> S -> result S)
  (s : S) : result S :=
  match l with
  | [] => Ok s
  | x :: l' => s' <- body x s ;; for_each l' body s'
  end.

(** ** The libraries the code calls

    [json], [jsoncanon], [hashlib], [jsonpatch], [multiformats] and
    [aries_askar] are not part of the repository: the code is verified
    against their interface.  [None] stands for an exception raised inside
    the library. *)
Class Libs : Type := {
  json_loads : string -> option json;
  json_dumps : json -> string;
  canonicalize : json -> bytes;
  sha256 : bytes -> bytes;
  apply_patch : json -> json -> option json;
  multihash_wrap : bytes -> string -> bytes;
  multibase_encode : bytes -> string -> string;
  multibase_decode : json -> option bytes;
  multicodec_unwrap : bytes -> option (string * bytes);
  make_patch : json -> json -> json;
  Key : Type;
  key_from_public_bytes : string -> bytes -> option Key;
  key_verify_signature : Key -> bytes -> bytes -> bool;
  key_sign_message : Key -> bytes -> bytes
}.

(** ** python/manage.py *)

Module Manage.
Import Py.

Section Code.
Context `{Libs}.

Definition METHOD : string := "webnext".
Definition PLACEHOLDER : string := "{{SCID}}".
Definition HISTORY_PROTO : string := "history:1".
Definition BASE_PROTO : string := "did:" ++ METHOD ++ ":1".

Record VerificationMethod : Type := {
  key : Key;
  kid : string;
  pk_codec : string
}.

Definition format_hash (digest : bytes) : string :=
  multibase_encode (multihash_wrap digest "sha2-256") "base58btc".

Definition log_line_hash (prev_hash version_id timestamp patch : json)
  : string :=
  let digest :=
    sha256 (canonicalize (JArr [prev_hash; version_id; timestamp; patch])) in
  format_hash digest.

(** [method_dict] is updated in place by the source: the new dict is
    returned with the identifier. *)
Definition parse_verification_method (method : json) (doc_id : string)
  (method_dict : dict) : result (string * dict) :=
  match method with
  | JObj m =>
      match dict_get "id" m with
      | JStr method_id =>
          let method_id :=
            if startswith "#" method_id then doc_id ++ method_id
            else method_id in
          _ <- raise_if (dict_mem method_id method_dict)
                 (RuntimeError
                    "Invalid log: duplicate verification method ID") ;;
          Ok (method_id, dict_set method_id method method_dict)
      | _ => Raise (RuntimeError "Invalid log: invalid verification method ID")
      end
  | _ => Raise (RuntimeError "Invalid log: invalid verification methods")
  end.

Definition verify_proof (document proof : dict) (method : json)
  : result unit :=
  _ <- raise_if (negb (eq_str (dict_get "type" proof) "DataIntegrityProof"))
         (RuntimeError "Unsupported proof type") ;;
  _ <- raise_if (negb (eq_str (dict_get "proofPurpose" proof)
                         "authentication"))
         (RuntimeError "Expected authentication proof purpose") ;;
  _ <- raise_if (negb (eq_str (dict_get "cryptosuite" proof)
                         "eddsa-jcs-2022"))
         (RuntimeError "Unsupported cryptosuite") ;;
  m <- match method with JObj m => Ok m | _ => Raise AttributeError end ;;
  key_mc <- or_raise (multibase_decode (dict_get "publicKeyMultibase" m))
              (LibraryError "multibase") ;;
  '(codec, key_bytes) <- or_raise (multicodec_unwrap key_mc)
                           (LibraryError "multicodec") ;;
  _ <- raise_if (negb (String.eqb codec "ed25519-pub"))
         (RuntimeError "Unsupported key type") ;;
  key <- or_raise (key_from_public_bytes "ed25519" key_bytes)
           (LibraryError "aries_askar") ;;
  _ <- raise_if (negb (dict_mem "proof" document)) (KeyError "proof") ;;
  let document := dict_del "proof" document in
  let data_hash := sha256 (canonicalize (JObj document)) in
  proof_value <- or_raise (dict_lookup "proofValue" proof)
                   (KeyError "proofValue") ;;
  let proof := dict_del "proofValue" proof in
  signature <- or_raise (multibase_decode proof_value)
                 (LibraryError "multibase") ;;
  let options_hash := sha256 (canonicalize (JObj proof)) in
  let sig_input := (data_hash ++ options_hash)%list in
  raise_if (negb (key_verify_signature key sig_input signature))
    (RuntimeError "Invalid proof signature").

(** [now] is the text of [format_datetime(datetime.now(timezone.utc))]. *)
Definition eddsa_sign (now : string) (document : dict)
  (sk : VerificationMethod) (challenge : string) : result dict :=
  id <- or_raise (dict_lookup "id" document) (KeyError "id") ;;
  id <- match id with JStr s => Ok s | _ => Raise TypeError end ;;
  let proof : dict :=
    [ ("type", JStr "DataIntegrityProof");
      ("cryptosuite", JStr "eddsa-jcs-2022");
      ("verificationMethod", JStr (id ++ "#" ++ kid sk));
      ("created", JStr now);
      ("challenge", JStr challenge);
      ("proofPurpose", JStr "authentication") ] in
  let data_hash := sha256 (canonicalize (JObj document)) in
  let options_hash := sha256 (canonicalize (JObj proof)) in
  let sig_input := (data_hash ++ options_hash)%list in
  Ok (dict_set "proofValue"
        (JStr (multibase_encode (key_sign_message (key sk) sig_input)
                 "base58btc"))
        proof).

(** The line [write_document] appends to the log (the files it writes
    beside the log are not modelled). *)
Definition write_document (now : string) (document : dict)
  (prev_document : json) (prev_hash : string) (version_id : Z)
  (timestamp : string) (sk : VerificationMethod) : result string :=
  let patch := make_patch prev_document (JObj document) in
  let cur_hash :=
    log_line_hash (JStr prev_hash) (JInt version_id) (JStr timestamp) patch in
  proof <- eddsa_sign now document sk cur_hash ;;
  Ok (json_dumps (JArr [JStr cur_hash; JInt version_id; JStr timestamp;
                        patch; JArr [JObj proof]])).

Definition update_scid (document : json) (scid_ver : option Z)
  : result (string * json) :=
  document <- match document with
              | JStr text => or_raise (json_loads text) JSONDecodeError
              | _ => Ok document
              end ;;
  members <- match document with
             | JObj m => Ok m
             | _ => Raise AttributeError
             end ;;
  doc_id <- match dict_get "id" members with
            | JStr s => Ok s
            | _ => Raise (RuntimeError "Missing document ID")
            end ;;
  let id_parts := split ":" doc_id in
  _ <- raise_if (negb (String.eqb (hd "" id_parts) "did")
                 || (Z.of_nat (List.length id_parts) <? 4))
         (RuntimeError "Invalid document ID") ;;
  let old_scid := last id_parts "" in
  let id_parts := removelast id_parts in
  scid_ver <- match scid_ver with
              | None =>
                  let pfx := substring 0 1 old_scid in
                  if isdigit pfx
                  then or_raise (int_of_digit pfx) (ValueError "int")
                  else Ok 1
              | Some v => Ok v
              end ;;
  _ <- raise_if (negb (scid_ver =? 1))
         (RuntimeError "Only SCID version 1 is supported") ;;
  let plc_id := join ":" (id_parts ++ [PLACEHOLDER])%list in
  text <- or_raise (decode_ascii (canonicalize document)) UnicodeError ;;
  norm <- or_raise (encode_ascii (replace doc_id plc_id text)) UnicodeError ;;
  let scid :=
    substring 0 24
      (lower (string_of_list_byte (b32encode (sha256 norm)))) in
  let upd_id := join ":" (id_parts ++ [scid])%list in
  updated <- or_raise
               (json_loads (replace doc_id upd_id (json_dumps document)))
               JSONDecodeError ;;
  Ok (upd_id, updated).

(** *** [load_log] *)

(** The variables of the loop of [load_log]. *)
Record state : Type := {
  index : Z;
  doc : json;
  prev_hash : json;
  prev_controllers : list json;
  prev_auth_keys : dict;
  doc_id : option string
}.

(** What [load_log] yields: [(index, log_hash, doc.copy())]. *)
Record item : Type := {
  it_index : Z;
  it_hash : json;
  it_doc : json
}.

(** lines 156-162 *)
Definition controllers_of (document : dict) (doc_id : string)
  : result (list json) :=
  match dict_get "controller" document with
  | JNull => Ok [JStr doc_id]
  | JStr c => Ok [JStr c]
  | JArr l => Ok l
  | _ => Raise (RuntimeError "Invalid log: invalid controllers")
  end.

(** lines 175-189: one turn of the loop over [auths]; the loop state is
    [vm_dict] and [auth_keys]. *)
Definition parse_auth (doc_id : string) (auth : json) (s : dict * dict)
  : result (dict * dict) :=
  let '(vm_dict, auth_keys) := s in
  '(auth, vm_dict) <-
    match auth with
    | JStr a =>
        let a := if startswith "#" a then doc_id ++ a else a in
        _ <- raise_if (negb (startswith (doc_id ++ "#") a))
               (RuntimeError
                  "Invalid log: only local authentication keys supported") ;;
        _ <- raise_if (negb (dict_mem a vm_dict))
               (RuntimeError
                  ("Invalid log: invalid authentication key reference ("
                   ++ a ++ ")")) ;;
        Ok (a, vm_dict)
    | JObj _ => parse_verification_method auth doc_id vm_dict
    | JArr _ => Raise TypeError
    | _ => Raise (KeyError "")
    end ;;
  v <- or_raise (dict_lookup auth vm_dict) (KeyError auth) ;;
  Ok (vm_dict, dict_set auth v auth_keys).

(** lines 166-189 *)
Definition auth_keys_of (document : dict) (doc_id : string) : result dict :=
  vmethods <- match dict_get_default "verificationMethod" (JArr []) document
              with
              | JArr l => Ok l
              | _ => Raise (RuntimeError
                              "Invalid log: invalid verification methods")
              end ;;
  vm_dict <- for_each vmethods
               (fun method vm_dict =>
                  '(_, d) <- parse_verification_method method doc_id vm_dict ;;
                  Ok d)
               [] ;;
  auths <- match dict_get_default "authentication" (JArr []) document with
           | JArr l => Ok l
           | _ => Raise (RuntimeError "Invalid log: invalid authentication")
           end ;;
  '(_, auth_keys) <- for_each auths (parse_auth doc_id) (vm_dict, []) ;;
  Ok auth_keys.

(** lines 204-218: one turn of the loop over [proofs] *)
Definition check_proof (document : dict) (doc_id : string)
  (prev_auth_keys : dict) (proof : json) : result unit :=
  match proof with
  | JObj p =>
      match dict_get "verificationMethod" p with
      | JStr method_id =>
          let method_id :=
            if startswith "#" method_id then doc_id ++ method_id
            else method_id in
          match dict_lookup method_id prev_auth_keys with
          | Some vmethod => verify_proof document p vmethod
          | None =>
              Raise (RuntimeError
                       "Invalid log: cannot resolve verification method")
          end
      | _ => Raise (RuntimeError
                      "Invalid log: invalid proof verification method")
      end
  | _ => Raise (RuntimeError "Invalid log: invalid proof")
  end.

(** lines 198-202: the proofs the reader looks at *)
Definition proofs_of (document : dict) : result (list json) :=
  match dict_get_default "proof" (JArr []) document with
  | JObj p => Ok [JObj p]
  | JArr l => Ok l
  | _ => Raise (RuntimeError "Invalid log: invalid or missing proof")
  end.

(** lines 198-218 *)
Definition check_proofs (document : dict) (doc_id : string)
  (prev_auth_keys : dict) : result unit :=
  proofs <- proofs_of document ;;
  for_each proofs
    (fun proof _ => check_proof document doc_id prev_auth_keys proof) tt.

(** The body of the loop over the lines, lines 134-225, on the parsed line:
    the item yielded and the variables for the next turn. *)
Definition load_entry (verify_hash verify_signature : bool) (st : state)
  (parts : json) : result (item * state) :=
  match parts with
  | JArr [log_hash; version_id; timestamp; patch; proofs] =>
      new_doc <- or_raise (apply_patch (doc st) patch)
                   (LibraryError "jsonpatch") ;;
      document <- match new_doc with
                  | JObj d => Ok d
                  | _ => Raise (RuntimeError "Invalid log: invalid document")
                  end ;;
      _ <- (if verify_hash then
              let check_hash :=
                log_line_hash (prev_hash st) version_id timestamp patch in
              raise_if (negb (eq_str log_hash check_hash))
                (RuntimeError "Invalid log: hash mismatch")
            else Ok tt) ;;
      check_id <- match dict_get "id" document with
                  | JStr s => Ok s
                  | _ => Raise (RuntimeError
                                  "Invalid log: invalid document ID")
                  end ;;
      new_id <- (if index st =? 1 then
                   '(derive_id, _) <- update_scid new_doc None ;;
                   _ <- raise_if (negb (String.eqb check_id derive_id))
                          (RuntimeError
                             "Invalid log: invalid SCID derivation") ;;
                   Ok check_id
                 else
                   match doc_id st with
                   | Some d =>
                       _ <- raise_if (negb (String.eqb check_id d))
                              (RuntimeError
                                 "Invalid log: document ID has changed") ;;
                       Ok d
                   | None =>
                       Raise (RuntimeError
                                "Invalid log: document ID has changed")
                   end) ;;
      controllers <- controllers_of document new_id ;;
      auth_keys <-
        (if verify_signature then
           auth_keys <- auth_keys_of document new_id ;;
           let prev_controllers :=
             if index st =? 1 then controllers else prev_controllers st in
           let prev_auth_keys :=
             if index st =? 1 then auth_keys else prev_auth_keys st in
           _ <- raise_if (negb (list_mem_str new_id prev_controllers))
                  (RuntimeError "Invalid log: DID missing from controllers") ;;
           _ <- check_proofs document new_id prev_auth_keys ;;
           Ok auth_keys
         else Ok []) ;;
      Ok ({| it_index := index st; it_hash := log_hash; it_doc := new_doc |},
          {| index := index st + 1;
             doc := new_doc;
             prev_hash := log_hash;
             prev_controllers := controllers;
             prev_auth_keys := auth_keys;
             doc_id := Some new_id |})
  | _ => Raise (RuntimeError "Invalid log: not parsable")
  end.

(** The loop over the lines after the header: the items yielded, in order,
    and then either the exception that ends the traversal or the variables
    at the end of the log. *)
Fixpoint load_lines (verify_hash verify_signature : bool) (st : state)
  (lines : list string) : list item * result state :=
  match lines with
  | [] => ([], Ok st)
  | line :: rest =>
      if String.eqb line "" then
        load_lines verify_hash verify_signature st rest
      else
        match (parts <- or_raise (json_loads line) JSONDecodeError ;;
               load_entry verify_hash verify_signature st parts) with
        | Raise e => ([], Raise e)
        | Ok (it, st') =>
            let '(its, r) :=
              load_lines verify_hash verify_signature st' rest in
            (it :: its, r)
        end
  end.

(** lines 120-128 *)
Definition load_header (first : string) : result json :=
  header <- or_raise (json_loads first) JSONDecodeError ;;
  match header with
  | JArr [proto; base_proto; _] =>
      _ <- raise_if (negb (eq_str proto HISTORY_PROTO))
             (RuntimeError "Invalid log: unsupported version") ;;
      _ <- raise_if (negb (eq_str base_proto BASE_PROTO))
             (RuntimeError "Invalid log: unsupported protocol") ;;
      encoded <- or_raise (encode_ascii BASE_PROTO) UnicodeError ;;
      Ok (JStr (format_hash (sha256 encoded)))
  | _ => Raise (RuntimeError "Invalid log: header not parsable")
  end.

Definition initial_state (prev_hash : json) : state :=
  {| index := 1; doc := JNull; prev_hash := prev_hash;
     prev_controllers := []; prev_auth_keys := []; doc_id := None |}.

(** [load_log(path, verify_hash, verify_signature)], consumed to its end, on
    the lines of the file at [path]: the items yielded and the exception
    that ended the traversal, if any. *)
Definition load_log (history : list string)
  (verify_hash verify_signature : bool) : list item * option exn :=
  match history with
  | [] => ([], Some (RuntimeError "generator raised StopIteration"))
  | first :: lines =>
      match load_header first with
      | Raise e => ([], Some e)
      | Ok seed =>
          let '(items, r) :=
            load_lines verify_hash verify_signature (initial_state seed)
              lines in
          (items,
           match r with
           | Raise e => Some e
           | Ok st =>
               if index st =? 0
               then Some (RuntimeError "Invalid log: no entries")
               else None
           end)
      end
  end.

End Code.
End Manage.

(** ** did_history/loader.py *)

Module Loader.

(** How a run of the generator [iter_history] ends. [OutOfFuel] is a run the
    model stopped before the loop did. *)
Inductive outcome : Type :=
| Finished
| Raised (e : exn)
| OutOfFuel.

Section Code.
Context `{Libs}.

(** [did_history/state.py] is not among the sources: the class
    [DocumentState] and the two methods the loader calls are parameters, and
    so are [datetime] and its order.  An instance of the class is truthy. *)
Variable DocumentState : Type.
Variable datetime : Type.
Variable datetime_ltb : datetime -> datetime -> bool.
Variable version_id_of : DocumentState -> Z.
Variable timestamp_of : DocumentState -> datetime.
Variable deactivated_of : DocumentState -> bool.
Variable load_history_line :
  json -> option DocumentState -> result DocumentState.
Variable check_version_hash : DocumentState -> result unit.

Definition VerifyState : Type :=
  DocumentState -> option DocumentState -> bool -> result unit.

Record DocumentMetadata : Type := {
  created : datetime;
  updated : datetime;
  deactivated : bool;
  version_id : Z
}.

(** The keyword arguments of [iter_history]. *)
Variable cutoff_version_id : option Z.
Variable cutoff_version_time : option datetime.
Variable verify_state : option VerifyState.

(** The variables of the loop of [iter_history]; [history] is what the
    line source still holds. *)
Record vars : Type := {
  prev_state : option DocumentState;
  state : option DocumentState;
  next_state : option DocumentState;
  history : list string;
  done : bool
}.

Definition initial_vars (history : list string) : vars :=
  {| prev_state := None; state := None; next_state := None;
     history := history; done := false |}.

(** One turn of [while not done], lines 54-75: what it yields, if
    anything, and the variables after it.  An exhausted source raises
    [StopAsyncIteration] at every further [anext].  The message of the
    error for a line that is not JSON ends, in the source, with the text
    of the decoder. *)
Definition turn (v : vars) : result (option DocumentState * vars) :=
  let cur := next_state v in
  '(next, rest, done1) <-
    match history v with
    | [] => Ok (None, [], done v)
    | line :: rest =>
        parts <- or_raise (json_loads line)
                   (ValueError "Invalid history JSON") ;;
        next <- load_history_line parts cur ;;
        let late :=
          match cutoff_version_time with
          | Some t => datetime_ltb t (timestamp_of next)
          | None => false
          end in
        Ok (Some next, rest, if late then true else done v)
    end ;;
  match cur with
  | Some s =>
      let reached :=
        match cutoff_version_id with
        | Some k => version_id_of s =? k
        | None => false
        end in
      let last := match next with Some _ => false | None => true end in
      let done2 := if reached || last then true else done1 in
      _ <- check_version_hash s ;;
      _ <- match verify_state with
           | Some f => f s (prev_state v) done2
           | None => Ok tt
           end ;;
      Ok (Some s,
          {| prev_state := Some s; state := Some s; next_state := next;
             history := rest; done := done2 |})
  | None =>
      Ok (None,
          {| prev_state := prev_state v; state := None; next_state := next;
             history := rest; done := done1 |})
  end.

(** lines 77-82, after the loop.  The messages of the source end with the
    value of the cutoff. *)
Definition after_loop (v : vars) : outcome :=
  match state v with
  | Some _ => Finished
  | None =>
      match cutoff_version_id, cutoff_version_time with
      | Some k, _ =>
          if k =? 0 then
            match cutoff_version_time with
            | Some _ => Raised (ValueError "Cannot resolve versionTime")
            | None => Raised (ValueError "Empty document history")
            end
          else Raised (ValueError "Cannot resolve versionId")
      | None, Some _ => Raised (ValueError "Cannot resolve versionTime")
      | None, None => Raised (ValueError "Empty document history")
      end
  end.

(** The loop, for at most [fuel] turns: the states yielded and the way the
    run ends. *)
Fixpoint loop (fuel : nat) (v : vars) : list DocumentState * outcome :=
  if done v then ([], after_loop v)
  else
    match fuel with
    | O => ([], OutOfFuel)
    | S fuel' =>
        match turn v with
        | Raise e => ([], Raised e)
        | Ok (yielded, v') =>
            let '(ys, o) := loop fuel' v' in
            (match yielded with Some s => s :: ys | None => ys end, o)
        end
    end.

Definition iter_history (fuel : nat) (history : list string)
  : list DocumentState * outcome :=
  loop fuel (initial_vars history).

(** [load_history] consumes the iterator and returns the last state with
    the aggregate metadata. *)
Definition load_history (fuel : nat) (history : list string)
  : option (result (DocumentState * DocumentMetadata)) :=
  match iter_history fuel history with
  | (_, OutOfFuel) => None
  | (_, Raised e) => Some (Raise e)
  | (states, Finished) =>
      match states with
      | [] => Some (Raise (RuntimeError "UnboundLocalError"))
      | first :: _ =>
          let latest := List.last states first in
          Some (Ok (latest,
                    {| created := timestamp_of first;
                       updated := timestamp_of latest;
                       deactivated := deactivated_of latest;
                       version_id := version_id_of latest |}))
      end
  end.

(** The lines of [history] parse and load one after the other, from the
    state [prev], into [states]. *)
Inductive loads : option DocumentState -> list string ->
                  list DocumentState -> Prop :=
| loads_nil : forall prev, loads prev [] []
| loads_cons : forall prev line parts s rest states,
    json_loads line = Some parts ->
    load_history_line parts prev = Ok s ->
    loads (Some s) rest states ->
    loads prev (line :: rest) (s :: states).

(** Every check made before a state of [states] is yielded passes. *)
Definition checks_pass (states : list DocumentState) : Prop :=
  forall s, In s states ->
    check_version_hash s = Ok tt
    /\ forall f, verify_state = Some f ->
         forall prev finished, f s prev finished = Ok tt.

End Code.
End Loader.

(** ** Reference implementations of the libraries

    Executable models of the library functions, used to run the code on
    concrete logs.  They follow the standards the libraries implement and
    are not part of the repository. *)

Module Ref.
Import Py.

(** *** SHA-256 (FIPS 180-4), on 32-bit words held in [Z] *)

Definition w32 (x : Z) : Z := Z.land x 0xFFFFFFFF.

Definition add32 (x y : Z) : Z := w32 (x + y).

Definition rotr (n x : Z) : Z :=
  Z.lor (Z.shiftr x n) (w32 (Z.shiftl x (32 - n))).

Definition Ch (x y z : Z) : Z :=
  Z.lxor (Z.land x y) (Z.land (w32 (Z.lnot x)) z).

Definition Maj (x y z : Z) : Z :=
  Z.lxor (Z.lxor (Z.land x y) (Z.land x z)) (Z.land y z).

Definition Sigma0 (x : Z) : Z :=
  Z.lxor (Z.lxor (rotr 2 x) (rotr 13 x)) (rotr 22 x).

Definition Sigma1 (x : Z) : Z :=
  Z.lxor (Z.lxor (rotr 6 x) (rotr 11 x)) (rotr 25 x).

Definition sigma0 (x : Z) : Z :=
  Z.lxor (Z.lxor (rotr 7 x) (rotr 18 x)) (Z.shiftr x 3).

Definition sigma1 (x : Z) : Z :=
  Z.lxor (Z.lxor (rotr 17 x) (rotr 19 x)) (Z.shiftr x 10).

(** The constants of the standard come from the first primes: the first
    32 bits of the fractional part of their cube roots are the round
    constants (sixty-four primes), and of their square roots the initial
    hash value (eight primes). *)
Definition is_prime (n : nat) : bool :=
  forallb (fun d => negb (Nat.eqb (Nat.modulo n d) 0))
    (seq 2 (Nat.sub n 2)).

Definition first_primes (k : nat) : list Z :=
  map Z.of_nat (firstn k (filter is_prime (seq 2 310))).

(** the largest number below [2 ^ bits] whose cube is at most [n], found
    bit by bit from [r] *)
Fixpoint cube_root (bits : nat) (n r : Z) : Z :=
  match bits with
  | O => r
  | S bits' =>
      let r' := r + 2 ^ Z.of_nat bits' in
      cube_root bits' n (if r' * r' * r' <=? n then r' else r)
  end.

Definition K256 : list Z :=
  Eval vm_compute in
    map (fun p => w32 (cube_root 40 (p * 2 ^ 96) 0)) (first_primes 64).

Definition H256 : list Z :=
  Eval vm_compute in
    map (fun p => w32 (Z.sqrt (p * 2 ^ 64))) (first_primes 8).

Definition byte_to_Z (b : byte) : Z := Z.of_N (Byte.to_N b).

Definition byte_of_Z (z : Z) : byte :=
  match Byte.of_N (Z.to_N (Z.land z 255)) with
  | Some b => b
  | None => x00
  end.

(** the big-endian bytes of a number, [n] of them *)
Fixpoint be_bytes (n : nat) (z : Z) : bytes :=
  match n with
  | O => []
  | S n' => byte_of_Z (Z.shiftr z (8 * Z.of_nat n')) :: be_bytes n' z
  end.

Definition be_value (b : bytes) : Z :=
  fold_left (fun acc x => acc * 256 + byte_to_Z x) b 0.

(** the message followed by the bit 1, zeros, and its length in bits on 64
    bits, to a multiple of 64 bytes *)
Definition pad (msg : bytes) : bytes :=
  let len := Z.of_nat (List.length msg) in
  let zeros := Z.to_nat ((55 - len) mod 64) in
  (msg ++ x80 :: repeat x00 zeros ++ be_bytes 8 (8 * len))%list.

(** the words of the message schedule still to come, from the last sixteen *)
Fixpoint schedule (n : nat) (w : list Z) : list Z :=
  match n with
  | O => []
  | S n' =>
      let next :=
        add32 (add32 (sigma1 (nth 14 w 0)) (nth 9 w 0))
              (add32 (sigma0 (nth 1 w 0)) (nth 0 w 0)) in
      next :: schedule n' (tl w ++ [next])%list
  end.

Definition round (s : list Z) (kw : Z * Z) : list Z :=
  match s with
  | [a; b; c; d; e; f; g; h] =>
      let t1 :=
        add32 (add32 (add32 h (Sigma1 e)) (add32 (Ch e f g) (fst kw)))
              (snd kw) in
      let t2 := add32 (Sigma0 a) (Maj a b c) in
      [add32 t1 t2; a; b; c; add32 d t1; e; f; g]
  | _ => s
  end.

Fixpoint words (n : nat) (b : bytes) : list Z :=
  match n with
  | O => []
  | S n' => be_value (firstn 4 b) :: words n' (skipn 4 b)
  end.

Definition compress (h : list Z) (block : bytes) : list Z :=
  let w16 := words 16 block in
  let w := (w16 ++ schedule 48 w16)%list in
  let s := fold_left round (combine K256 w) h in
  map (fun p => add32 (fst p) (snd p)) (combine h s).

Fixpoint blocks (n : nat) (h : list Z) (b : bytes) : list Z :=
  match n with
  | O => h
  | S n' => blocks n' (compress h (firstn 64 b)) (skipn 64 b)
  end.

Definition sha256 (msg : bytes) : bytes :=
  let p := pad msg in
  flat_map (be_bytes 4) (blocks (Nat.div (List.length p) 64) H256 p).

Definition hex_digit (n : Z) : ascii :=
  match String.get (Z.to_nat n) "0123456789abcdef" with
  | Some c => c
  | None => "0"%char
  end.

Fixpoint hex (b : bytes) : string :=
  match b with
  | [] => EmptyString
  | x :: b' =>
      String (hex_digit (Z.shiftr (byte_to_Z x) 4))
        (String (hex_digit (Z.land (byte_to_Z x) 15)) (hex b'))
  end.



(** *** multiformats: base58btc, multihash and multicodec *)

Definition b58_alphabet : string :=
  "123456789ABCDEFGHJKLMNPQRSTUVWXYZabcdefghijkmnopqrstuvwxyz".

Definition b58_char (n : Z) : ascii :=
  match String.get (Z.to_nat n) b58_alphabet with
  | Some c => c
  | None => "1"%char
  end.

Fixpoint b58_digits (fuel : nat) (z : Z) (acc : string) : string :=
  match fuel with
  | O => acc
  | S fuel' =>
      if z =? 0 then acc
      else b58_digits fuel' (z / 58) (String (b58_char (z mod 58)) acc)
  end.

Fixpoint leading_zeros (b : bytes) : nat :=
  match b with
  | x00 :: b' => S (leading_zeros b')
  | _ => O
  end.

Definition b58encode (b : bytes) : string :=
  string_of_list_ascii (repeat "1"%char (leading_zeros b))
  ++ b58_digits (2 * List.length b) (be_value b) EmptyString.

Fixpoint index_of (c : ascii) (s : string) : option Z :=
  match s with
  | EmptyString => None
  | String d s' =>
      if Ascii.eqb c d then Some 0
      else match index_of c s' with
           | Some i => Some (i + 1)
           | None => None
           end
  end.

Fixpoint b58_value (s : string) (acc : Z) : option Z :=
  match s with
  | EmptyString => Some acc
  | String c s' =>
      match index_of c b58_alphabet with
      | Some i => b58_value s' (acc * 58 + i)
      | None => None
      end
  end.

Fixpoint leading_ones (s : string) : nat :=
  match s with
  | String c s' => if Ascii.eqb c "1" then S (leading_ones s') else O
  | EmptyString => O
  end.

Fixpoint min_be_bytes (fuel : nat) (z : Z) (acc : bytes) : bytes :=
  match fuel with
  | O => acc
  | S fuel' =>
      if z =? 0 then acc
      else min_be_bytes fuel' (z / 256) (byte_of_Z z :: acc)
  end.

Definition b58decode (s : string) : option bytes :=
  match b58_value s 0 with
  | Some z =>
      Some (repeat x00 (leading_ones s)
            ++ min_be_bytes (String.length s) z [])%list
  | None => None
  end.

(** [multibase.encode(data, base)]; the code asks for base58btc only. *)
Definition multibase_encode (data : bytes) (base : string) : string :=
  if String.eqb base "base58btc" then String "z" (b58encode data)
  else EmptyString.

(** [multibase.decode(text)]: the prefix names the base. *)
Definition multibase_decode (text : json) : option bytes :=
  match text with
  | JStr (String "z" s) => b58decode s
  | _ => None
  end.

(** [multihash.wrap(digest, name)]: the code of the function, the length
    of the digest, the digest. *)
Definition multihash_wrap (digest : bytes) (name : string) : bytes :=
  if String.eqb name "sha2-256"
  then x12 :: byte_of_Z (Z.of_nat (List.length digest)) :: digest
  else digest.

(** [multicodec.unwrap(data)]: the name of the codec of the leading varint
    and the rest. *)
Definition multicodec_unwrap (data : bytes) : option (string * bytes) :=
  match data with
  | xed :: x01 :: rest => Some ("ed25519-pub", rest)
  | xe7 :: x01 :: rest => Some ("secp256k1-pub", rest)
  | _ => None
  end.

Definition multicodec_wrap (codec : string) (data : bytes) : bytes :=
  if String.eqb codec "ed25519-pub" then xed :: x01 :: data
  else if String.eqb codec "secp256k1-pub" then xe7 :: x01 :: data
  else data.

(** *** JSON text *)

Definition dquote : ascii := ascii_of_nat 34.
Definition backslash : ascii := ascii_of_nat 92.

Definition str1 (c : ascii) : string := String c EmptyString.

Definition u00 (n : nat) : string :=
  String backslash
    ("u00" ++ str1 (hex_digit (Z.of_nat (n / 16)))
     ++ str1 (hex_digit (Z.of_nat (n mod 16)))).

(** The escapes [json.dumps] and JCS share. *)
Definition short_escape (n : nat) : option string :=
  match n with
  | 8%nat => Some (String backslash "b")
  | 9%nat => Some (String backslash "t")
  | 10%nat => Some (String backslash "n")
  | 12%nat => Some (String backslash "f")
  | 13%nat => Some (String backslash "r")
  | 34%nat => Some (String backslash (str1 dquote))
  | 92%nat => Some (String backslash (str1 backslash))
  | _ => None
  end.

(** [del] tells whether the character 127 is escaped: [json.dumps] does,
    JCS does not. *)
Definition escape_char (del : bool) (c : ascii) : string :=
  let n := nat_of_ascii c in
  match short_escape n with
  | Some e => e
  | None =>
      if Nat.ltb n 32 || (del && Nat.eqb n 127) then u00 n else str1 c
  end.

Fixpoint escape (del : bool) (s : string) : string :=
  match s with
  | EmptyString => EmptyString
  | String c s' => escape_char del c ++ escape del s'
  end.

Definition quoted (del : bool) (s : string) : string :=
  String dquote (escape del s ++ str1 dquote).

Definition decimal (z : Z) : string := NilZero.string_of_int (Z.to_int z).

(** [json.dumps(value)] with the defaults of Python: members in insertion
    order, [", "] and [": "] as separators. *)
Fixpoint dumps (j : json) : string :=
  match j with
  | JNull => "null"
  | JBool true => "true"
  | JBool false => "false"
  | JInt n => decimal n
  | JStr s => quoted true s
  | JArr items =>
      "[" ++ join ", " (map dumps items) ++ "]"
  | JObj members =>
      "{" ++ join ", "
               ((fix each (l : list (string * json)) : list string :=
                   match l with
                   | [] => []
                   | (k, v) :: l' =>
                       (quoted true k ++ ": " ++ dumps v) :: each l'
                   end) members)
      ++ "}"
  end.

(** insertion of a member into members sorted by key *)
Fixpoint insert_sorted (kv : string * string) (l : list (string * string))
  : list (string * string) :=
  match l with
  | [] => [kv]
  | kv' :: l' =>
      if String.leb (fst kv) (fst kv') then kv :: l
      else kv' :: insert_sorted kv l'
  end.

(** [jsoncanon.canonicalize(value)], as text: members sorted by key, no
    white space. *)
Fixpoint canonical (j : json) : string :=
  match j with
  | JNull => "null"
  | JBool true => "true"
  | JBool false => "false"
  | JInt n => decimal n
  | JStr s => quoted false s
  | JArr items =>
      "[" ++ join "," (map canonical items) ++ "]"
  | JObj members =>
      let rendered :=
        (fix each (l : list (string * json)) : list (string * string) :=
           match l with
           | [] => []
           | (k, v) :: l' => (k, canonical v) :: each l'
           end) members in
      "{" ++ join ","
               (map (fun kv => quoted false (fst kv) ++ ":" ++ snd kv)
                    (fold_right insert_sorted [] rendered))
      ++ "}"
  end.

Definition canonicalize (j : json) : bytes :=
  list_byte_of_string (canonical j).

(** [json.loads(text)]: objects, arrays, strings, integers, [true],
    [false] and [null].  A number with a fraction or an exponent and an
    escape above 127 are outside the model and refused. *)

Definition is_ws (c : ascii) : bool :=
  match nat_of_ascii c with
  | 32%nat | 9%nat | 10%nat | 13%nat => true
  | _ => false
  end.

Fixpoint skip_ws (s : string) : string :=
  match s with
  | String c s' => if is_ws c then skip_ws s' else s
  | EmptyString => s
  end.

Definition unescape (c : ascii) : option ascii :=
  if Ascii.eqb c dquote then Some dquote
  else if Ascii.eqb c backslash then Some backslash
  else if Ascii.eqb c "/" then Some "/"%char
  else if Ascii.eqb c "b" then Some (ascii_of_nat 8)
  else if Ascii.eqb c "f" then Some (ascii_of_nat 12)
  else if Ascii.eqb c "n" then Some (ascii_of_nat 10)
  else if Ascii.eqb c "r" then Some (ascii_of_nat 13)
  else if Ascii.eqb c "t" then Some (ascii_of_nat 9)
  else None.

Definition hex_value (c : ascii) : option Z :=
  index_of (lower_ascii c) "0123456789abcdef".

Definition u_escape (h1 h2 h3 h4 : ascii) : option ascii :=
  match hex_value h1, hex_value h2, hex_value h3, hex_value h4 with
  | Some a, Some b, Some c, Some d =>
      let n := ((a * 16 + b) * 16 + c) * 16 + d in
      if n <? 128 then Some (ascii_of_nat (Z.to_nat n)) else None
  | _, _, _, _ => None
  end.

(** the text of a string and what follows it, after the opening quote *)
Fixpoint parse_string (s : string) : option (string * string) :=
  match s with
  | EmptyString => None
  | String c s' =>
      if Ascii.eqb c dquote then Some (EmptyString, s')
      else if Ascii.eqb c backslash then
        match s' with
        | String e s2 =>
            match unescape e with
            | Some ch =>
                match parse_string s2 with
                | Some (t, r) => Some (String ch t, r)
                | None => None
                end
            | None =>
                match s2 with
                | String h1 (String h2 (String h3 (String h4 s6))) =>
                    if Ascii.eqb e "u" then
                      match u_escape h1 h2 h3 h4, parse_string s6 with
                      | Some ch, Some (t, r) => Some (String ch t, r)
                      | _, _ => None
                      end
                    else None
                | _ => None
                end
            end
        | EmptyString => None
        end
      else if Nat.ltb (nat_of_ascii c) 32 then None
      else
        match parse_string s' with
        | Some (t, r) => Some (String c t, r)
        | None => None
        end
  end.

Fixpoint parse_digits (s : string) (acc : Z) : Z * string :=
  match s with
  | String c s' =>
      if is_digit c
      then parse_digits s' (acc * 10 + (Z.of_nat (nat_of_ascii c) - 48))
      else (acc, s)
  | EmptyString => (acc, s)
  end.

Definition starts_fraction (s : string) : bool :=
  match s with
  | String c _ => Ascii.eqb c "." || Ascii.eqb c "e" || Ascii.eqb c "E"
  | EmptyString => false
  end.

(** an integer without its sign *)
Definition parse_natural (s : string) : option (Z * string) :=
  match s with
  | String c s' =>
      if Ascii.eqb c "0" then
        match s' with
        | String d _ =>
            if is_digit d || starts_fraction s' then None else Some (0, s')
        | EmptyString => Some (0, s')
        end
      else if is_digit c then
        let '(n, r) := parse_digits s 0 in
        if starts_fraction r then None else Some (n, r)
      else None
  | EmptyString => None
  end.

Definition parse_number (s : string) : option (json * string) :=
  match s with
  | String c s' =>
      if Ascii.eqb c "-" then
        match parse_natural s' with
        | Some (n, r) => Some (JInt (- n), r)
        | None => None
        end
      else
        match parse_natural s with
        | Some (n, r) => Some (JInt n, r)
        | None => None
        end
  | EmptyString => None
  end.

Definition after (word : string) (s : string) : option string :=
  if String.prefix word s
  then Some (substring (String.length word)
               (String.length s - String.length word) s)
  else None.

Fixpoint parse_value (fuel : nat) (s : string) : option (json * string) :=
  match fuel with
  | O => None
  | S fuel' =>
      match skip_ws s with
      | EmptyString => None
      | String c r =>
          if Ascii.eqb c dquote then
            match parse_string r with
            | Some (t, r') => Some (JStr t, r')
            | None => None
            end
          else if Ascii.eqb c "[" then
            match skip_ws r with
            | String "]" r' => Some (JArr [], r')
            | _ =>
                match parse_items fuel' r with
                | Some (items, r') => Some (JArr items, r')
                | None => None
                end
            end
          else if Ascii.eqb c "{" then
            match skip_ws r with
            | String "}" r' => Some (JObj [], r')
            | _ =>
                match parse_members fuel' r with
                | Some (members, r') =>
                    Some (JObj (fold_left
                                  (fun d kv => dict_set (fst kv) (snd kv) d)
                                  members []), r')
                | None => None
                end
            end
          else
            match after "null" (String c r), after "true" (String c r),
                  after "false" (String c r) with
            | Some r', _, _ => Some (JNull, r')
            | _, Some r', _ => Some (JBool true, r')
            | _, _, Some r' => Some (JBool false, r')
            | None, None, None => parse_number (String c r)
            end
      end
  end
with parse_items (fuel : nat) (s : string) : option (list json * string) :=
  match fuel with
  | O => None
  | S fuel' =>
      match parse_value fuel' s with
      | Some (v, r) =>
          match skip_ws r with
          | String "," r' =>
              match parse_items fuel' r' with
              | Some (vs, r2) => Some (v :: vs, r2)
              | None => None
              end
          | String "]" r' => Some ([v], r')
          | _ => None
          end
      | None => None
      end
  end
with parse_members (fuel : nat) (s : string)
  : option (list (string * json) * string) :=
  match fuel with
  | O => None
  | S fuel' =>
      match skip_ws s with
      | String c r =>
          if Ascii.eqb c dquote then
            match parse_string r with
            | Some (k, r1) =>
                match skip_ws r1 with
                | String ":" r2 =>
                    match parse_value fuel' r2 with
                    | Some (v, r3) =>
                        match skip_ws r3 with
                        | String "," r4 =>
                            match parse_members fuel' r4 with
                            | Some (kvs, r5) => Some ((k, v) :: kvs, r5)
                            | None => None
                            end
                        | String "}" r4 => Some ([(k, v)], r4)
                        | _ => None
                        end
                    | None => None
                    end
                | _ => None
                end
            | None => None
            end
          else None
      | EmptyString => None
      end
  end.

Definition loads (text : string) : option json :=
  match parse_value (2 * String.length text + 2) text with
  | Some (j, r) =>
      match skip_ws r with
      | EmptyString => Some j
      | _ => None
      end
  | None => None
  end.

(** *** jsonpatch (RFC 6902): the operations add, remove and replace *)

Inductive patch_op : Type := Add | Remove | Replace.

Definition unescape_token (t : string) : string :=
  replace "~0" "~" (replace "~1" "/" t).

(** the reference tokens of a JSON pointer (RFC 6901) *)
Definition pointer (path : string) : option (list string) :=
  match path with
  | EmptyString => Some []
  | String "/" rest => Some (map unescape_token (split "/" rest))
  | _ => None
  end.

Definition array_index (t : string) : option nat :=
  match parse_natural t with
  | Some (n, EmptyString) => Some (Z.to_nat n)
  | _ => None
  end.

Definition patch_array (op : patch_op) (t : string) (v : json)
  (l : list json) : option (list json) :=
  match op with
  | Add =>
      if String.eqb t "-" then Some (l ++ [v])%list
      else match array_index t with
           | Some i =>
               if Nat.leb i (List.length l)
               then Some (firstn i l ++ v :: skipn i l)%list else None
           | None => None
           end
  | Replace =>
      match array_index t with
      | Some i =>
          if Nat.ltb i (List.length l)
          then Some (firstn i l ++ v :: skipn (S i) l)%list else None
      | None => None
      end
  | Remove =>
      match array_index t with
      | Some i =>
          if Nat.ltb i (List.length l)
          then Some (firstn i l ++ skipn (S i) l)%list else None
      | None => None
      end
  end.

Fixpoint patch_at (op : patch_op) (tokens : list string) (v : json)
  (target : json) : option json :=
  match tokens with
  | [] => match op with Remove => None | _ => Some v end
  | [t] =>
      match target with
      | JObj m =>
          match op with
          | Add => Some (JObj (dict_set t v m))
          | Replace =>
              if dict_mem t m then Some (JObj (dict_set t v m)) else None
          | Remove => if dict_mem t m then Some (JObj (dict_del t m)) else None
          end
      | JArr l =>
          match patch_array op t v l with
          | Some l' => Some (JArr l')
          | None => None
          end
      | _ => None
      end
  | t :: ts =>
      match target with
      | JObj m =>
          match dict_lookup t m with
          | Some child =>
              match patch_at op ts v child with
              | Some child' => Some (JObj (dict_set t child' m))
              | None => None
              end
          | None => None
          end
      | JArr l =>
          match array_index t with
          | Some i =>
              match nth_error l i with
              | Some child =>
                  match patch_at op ts v child with
                  | Some child' =>
                      Some (JArr (firstn i l ++ child' :: skipn (S i) l)%list)
                  | None => None
                  end
              | None => None
              end
          | None => None
          end
      | _ => None
      end
  end.

Definition apply_operation (target : json) (operation : json) : option json :=
  match operation with
  | JObj o =>
      match dict_get "op" o, dict_get "path" o with
      | JStr name, JStr path =>
          match pointer path with
          | Some tokens =>
              if String.eqb name "remove"
              then patch_at Remove tokens JNull target
              else
                match dict_lookup "value" o with
                | Some v =>
                    if String.eqb name "add" then patch_at Add tokens v target
                    else if String.eqb name "replace"
                         then patch_at Replace tokens v target
                         else None
                | None => None
                end
          | None => None
          end
      | _, _ => None
      end
  | _ => None
  end.

Definition apply_patch (document patch : json) : option json :=
  match patch with
  | JArr operations =>
      fold_left
        (fun acc operation =>
           match acc with
           | Some d => apply_operation d operation
           | None => None
           end)
        operations (Some document)
  | _ => None
  end.

(** [jsonpatch.make_patch(src, dst).patch]: the patch that replaces the
    root, which is the one the library computes at inception (no previous
    document). *)
Definition make_patch (src dst : json) : json :=
  JArr [JObj [("op", JStr "replace"); ("path", JStr ""); ("value", dst)]].

(** *** Keys

    Ed25519 is not implemented.  A stand-in with the interface of
    [aries_askar.Key]: a key is its 32 public bytes, and a signature
    verifies under the key that made it. *)

Definition sign_message (key message : bytes) : bytes :=
  (sha256 (key ++ message) ++ sha256 (message ++ key))%list.

Fixpoint bytes_eqb (a b : bytes) : bool :=
  match a, b with
  | [], [] => true
  | x :: a', y :: b' => Byte.eqb x y && bytes_eqb a' b'
  | _, _ => false
  end.

Definition verify_signature (key message signature : bytes) : bool :=
  bytes_eqb signature (sign_message key message).

Definition from_public_bytes (alg : string) (public : bytes) : option bytes :=
  if String.eqb alg "ed25519" && Nat.eqb (List.length public) 32
  then Some public else None.

End Ref.

(** The reference implementations, as the libraries of the code. *)
Definition ref_libs : Libs :=
  {| json_loads := Ref.loads;
     json_dumps := Ref.dumps;
     canonicalize := Ref.canonicalize;
     sha256 := Ref.sha256;
     apply_patch := Ref.apply_patch;
     multihash_wrap := Ref.multihash_wrap;
     multibase_encode := Ref.multibase_encode;
     multibase_decode := Ref.multibase_decode;
     multicodec_unwrap := Ref.multicodec_unwrap;
     make_patch := Ref.make_patch;
     Key := bytes;
     key_from_public_bytes := Ref.from_public_bytes;
     key_verify_signature := Ref.verify_signature;
     key_sign_message := Ref.sign_message |}.

(** ** The vocabulary of the properties *)

Module Spec.
Import Py Manage.

Section Statements.
Context `{Libs}.

(** The hash that seeds the chain: [format_hash(sha256(base_proto))]. *)
Definition seed_hash : json :=
  JStr (format_hash (sha256 (list_byte_of_string BASE_PROTO))).

(** The lines of a log that hold an entry. *)
Definition entries (lines : list string) : list string :=
  filter (fun line => negb (String.eqb line "")) lines.

(** The hash chain from [prev]: every entry is an array of five elements
    whose first is the log-line hash of the previous hash and of its own
    version_id, timestamp and patch. *)
Fixpoint chained (prev : json) (lines : list string) : Prop :=
  match lines with
  | [] => True
  | line :: rest =>
      if String.eqb line "" then chained prev rest
      else
        match json_loads line with
        | Some (JArr [log_hash; version_id; timestamp; patch; _]) =>
            log_hash = JStr (log_line_hash prev version_id timestamp patch)
            /\ chained log_hash rest
        | _ => False
        end
  end.

(** The element at position [field] of every line that parses to an
    array: the recorded version_ids are field 1, the timestamps field 2. *)
Definition recorded (field : nat) (lines : list string) : list json :=
  flat_map
    (fun line =>
       match json_loads line with
       | Some (JArr parts) =>
           match nth_error parts field with
           | Some j => [j]
           | None => []
           end
       | _ => []
       end)
    lines.

(** [n; n+1; ...], [k] numbers *)
Fixpoint count_from (n : Z) (k : nat) : list Z :=
  match k with
  | O => []
  | S k' => n :: count_from (n + 1) k'
  end.

(** The identifier a proof or a method names, a leading [#] standing for
    the DID. *)
Definition resolve (doc_id method_id : string) : string :=
  if startswith "#" method_id then doc_id ++ method_id else method_id.

(** The authentication key set of a document. *)
Definition document_auth_keys (document : json) : result dict :=
  match document with
  | JObj d =>
      match dict_get "id" d with
      | JStr id => auth_keys_of d id
      | _ => Raise (RuntimeError "Invalid log: invalid document ID")
      end
  | _ => Raise (RuntimeError "Invalid log: invalid document")
  end.

(** The proofs of a document. *)
Definition document_proofs (document : json) : list json :=
  match document with
  | JObj d =>
      match proofs_of d with
      | Ok proofs => proofs
      | Raise _ => []
      end
  | _ => []
  end.

(** [proof], a proof of [document], names a method of [keys] and verifies
    against it. *)
Definition proof_verified (keys : dict) (document proof : json) : Prop :=
  exists d id p method_id vmethod,
    document = JObj d /\ dict_get "id" d = JStr id /\ proof = JObj p
    /\ dict_get "verificationMethod" p = JStr method_id
    /\ dict_lookup (resolve id method_id) keys = Some vmethod
    /\ verify_proof d p vmethod = Ok tt.

(** [proof] names a method that [keys] does not hold. *)
Definition names_unknown_method (keys : dict) (document proof : json) : Prop :=
  exists d id p method_id,
    document = JObj d /\ dict_get "id" d = JStr id /\ proof = JObj p
    /\ dict_get "verificationMethod" p = JStr method_id
    /\ dict_lookup (resolve id method_id) keys = None.

(** Two lines that are the same, or two entries with the same log hash and
    patch, and the same version_id and timestamp when hashes are verified;
    the proofs are free. *)
Inductive line_agrees (verify_hash : bool) : string -> string -> Prop :=
| agrees_same : forall l, line_agrees verify_hash l l
| agrees_entry : forall l l' h v t p pr v' t' pr',
    l <> "" -> l' <> "" ->
    json_loads l = Some (JArr [h; v; t; p; pr]) ->
    json_loads l' = Some (JArr [h; v'; t'; p; pr']) ->
    (verify_hash = true -> v' = v /\ t' = t) ->
    line_agrees verify_hash l l'.

(** Two entries that differ in the recorded version_id at most. *)
Inductive differ_in_version_id : string -> string -> Prop :=
| version_id_same : forall l, differ_in_version_id l l
| version_id_other : forall l l' h v v' t p pr,
    l <> "" -> l' <> "" ->
    json_loads l = Some (JArr [h; v; t; p; pr]) ->
    json_loads l' = Some (JArr [h; v'; t; p; pr]) ->
    differ_in_version_id l l'.

(** Two entries that differ in the timestamp at most. *)
Inductive differ_in_timestamp : string -> string -> Prop :=
| timestamp_same : forall l, differ_in_timestamp l l
| timestamp_other : forall l l' h v t t' p pr,
    l <> "" -> l' <> "" ->
    json_loads l = Some (JArr [h; v; t; p; pr]) ->
    json_loads l' = Some (JArr [h; v; t'; p; pr]) ->
    differ_in_timestamp l l'.

(** Two entries that differ in the proofs field at most. *)
Inductive differ_in_proofs : string -> string -> Prop :=
| proofs_same : forall l, differ_in_proofs l l
| proofs_other : forall l l' h v t p pr pr',
    l <> "" -> l' <> "" ->
    json_loads l = Some (JArr [h; v; t; p; pr]) ->
    json_loads l' = Some (JArr [h; v; t; p; pr']) ->
    differ_in_proofs l l'.

(** A [controller] member the reader accepts: absent or null, a string, a
    list. *)
Definition controller_shape (c : json) : bool :=
  match c with
  | JNull | JStr _ | JArr _ => true
  | _ => false
  end.

(** A history that is structurally valid and hash-consistent, from entry
    number [n] on: every entry is an array of five elements, its patch
    applies to the previous document and gives an object whose id is a
    string, the id is the derived one at entry 1 and the same afterwards,
    and, when hashes are verified, the log hash is the recomputed one.
    [shaped] adds that the controller member has an accepted shape. *)
Fixpoint valid_history (shaped verify_hash : bool) (n : Z)
  (prev_doc prev_hash : json) (id : option string) (lines : list string)
  : Prop :=
  match lines with
  | [] => True
  | line :: rest =>
      if String.eqb line "" then
        valid_history shaped verify_hash n prev_doc prev_hash id rest
      else
        exists h v t p pr d cid,
          json_loads line = Some (JArr [h; v; t; p; pr])
          /\ apply_patch prev_doc p = Some (JObj d)
          /\ (verify_hash = true ->
              h = JStr (log_line_hash prev_hash v t p))
          /\ dict_get "id" d = JStr cid
          /\ (if n =? 1
              then exists d', update_scid (JObj d) None = Ok (cid, d')
              else id = Some cid)
          /\ (shaped = true ->
              controller_shape (dict_get "controller" d) = true)
          /\ valid_history shaped verify_hash (n + 1) (JObj d) h (Some cid)
               rest
  end.

(** The SCID version [update_scid] works with: the one it is given, or
    the leading digit of the current SCID, or 1. *)
Definition scid_version (scid_ver : option Z) (old_scid : string)
  : option Z :=
  match scid_ver with
  | Some v => Some v
  | None =>
      let pfx := substring 0 1 old_scid in
      if isdigit pfx then int_of_digit pfx else Some 1
  end.

(** The variables of the loop, at an entry after the first, hold the
    identifier and the authentication keys of the document of the entry
    before. *)
Definition settled (st : state) : Prop :=
  1 <= index st
  /\ (index st <> 1 ->
      exists d id,
        doc st = JObj d /\ dict_get "id" d = JStr id
        /\ doc_id st = Some id
        /\ auth_keys_of d id = Ok (prev_auth_keys st)).

(** [doc_id] with its final colon segment replaced by [segment]. *)
Definition with_final_segment (doc_id segment : string) : string :=
  join ":" (removelast (split ":" doc_id) ++ [segment])%list.

(** The SCID of a document whose id is [doc_id]: the first 24 characters of
    the lower-case base32 text of the sha256 of its canonical text, the id
    replaced in it by the id that ends in the placeholder. *)
Definition derived_scid (document : json) (doc_id : string) : option string :=
  match decode_ascii (canonicalize document) with
  | Some text =>
      match encode_ascii
              (replace doc_id (with_final_segment doc_id PLACEHOLDER) text)
      with
      | Some norm =>
          Some (substring 0 24
                  (lower (string_of_list_byte (b32encode (sha256 norm)))))
      | None => None
      end
  | None => None
  end.

(** What a proof signs: the hash of the document without its proof member,
    then the hash of the proof without its value. *)
Definition sig_input (document proof : dict) : bytes :=
  (sha256 (canonicalize (JObj (dict_del "proof" document)))
   ++ sha256 (canonicalize (JObj (dict_del "proofValue" proof))))%list.

End Statements.
End Spec.

(** ** Sample data *)

Module Sample.
Import Py.

(** *** A state class for the loader *)

Record State : Type := {
  version_id : Z;
  timestamp : string;
  version_hash : json;
  prev_hash : json;
  patch : json;
  document : json
}.

(** Modelled from the spec: [DocumentState.load_history_line] of
    [did_history/state.py], which is not among the sources.  The state
    after the entry [[log_hash, version_id, timestamp, patch, proofs]]: the
    version_id is 1 at the first entry and one more at each later one, the
    timestamp does not decrease (second-precision UTC timestamps compare
    as their text), and the patch applies to the previous document, null
    at the first entry. *)
Definition load_history_line (parts : json) (prev : option State)
  : result State :=
  match parts with
  | JArr [log_hash; JInt v; JStr t; p; _] =>
      let expected :=
        match prev with Some s => version_id s + 1 | None => 1 end in
      let earlier :=
        match prev with Some s => String.ltb t (timestamp s) | None => false
        end in
      let before :=
        match prev with
        | Some s => (version_hash s, document s)
        | None =>
            (@Spec.seed_hash ref_libs, JNull)
        end in
      _ <- raise_if (negb (v =? expected)) (ValueError "version_id") ;;
      _ <- raise_if earlier (ValueError "timestamp") ;;
      d <- or_raise (Ref.apply_patch (snd before) p) (ValueError "patch") ;;
      Ok {| version_id := v; timestamp := t; version_hash := log_hash;
            prev_hash := fst before; patch := p; document := d |}
  | _ => Raise (ValueError "history line")
  end.

(** Modelled from the spec: [DocumentState.check_version_hash], the
    recomputation of the version hash from the previous hash, the
    version_id, the timestamp and the patch. *)
Definition check_version_hash (s : State) : result unit :=
  raise_if
    (negb (eq_str (version_hash s)
             (@Manage.log_line_hash ref_libs (prev_hash s)
                (JInt (version_id s)) (JStr (timestamp s)) (patch s))))
    (ValueError "version hash").

Definition iter_history (cutoff_version_id : option Z)
  (cutoff_version_time : option string) (fuel : nat) (history : list string)
  : list State * Loader.outcome :=
  @Loader.iter_history ref_libs State string String.ltb version_id timestamp
    load_history_line check_version_hash cutoff_version_id
    cutoff_version_time None fuel history.

(** *** Logs *)

Definition load_log := @Manage.load_log ref_libs.
Definition update_scid := @Manage.update_scid ref_libs.

Definition header : string :=
  Ref.dumps (JArr [JStr "history:1"; JStr "did:webnext:1"; JObj []]).

(** the line of an entry *)
Definition entry (log_hash : string) (version_id : Z) (timestamp : string)
  (patch proofs : json) : string :=
  Ref.dumps (JArr [JStr log_hash; JInt version_id; JStr timestamp; patch;
                   proofs]).

Definition operation (op path : string) (value : json) : json :=
  JObj [("op", JStr op); ("path", JStr path); ("value", value)].

Definition doc_com : json :=
  JObj [("id", JStr "did:webnext:example.com:ff4c2yf5ga75mjnl3ww3vo5u")].

Definition inception (document : json) : json :=
  JArr [operation "replace" "" document].

Definition add_alias (alias : string) : json :=
  JArr [operation "add" "/alsoKnownAs" (JArr [JStr alias])].

Definition time1 : string := "2024-05-01T00:00:00Z".
Definition time2 : string := "2024-05-02T00:00:00Z".
Definition time0 : string := "2023-01-01T00:00:00Z".

(** the log hashes of the two entries of [log_plain] *)
Definition hash_com1 : string :=
  "zQmS3EsSY8yVsRKug28MqnkEfX8JSZyrEReFbw7uMAUyJeX".
Definition hash_com2 : string :=
  "zQmcTXpWr2bs1S4TekW4J5SK8uirZZAWKFkUVsuB3zNwuB8".

Definition alias_com : json := add_alias "did:web:example.com".

(** A log of two versions with no proof in the fifth element of its
    entries and none in its documents. *)
Definition log_plain : list string :=
  [ header;
    entry hash_com1 1 time1 (inception doc_com) (JArr []);
    entry hash_com2 2 time2 alias_com (JArr []) ].

(** The same log with the version_ids 7 and 3, and the hashes that go with
    them. *)
Definition log_versions : list string :=
  [ header;
    entry "zQmZr9pCiEUSdpFwzmmYhhoxydVzgy2RF5PZkUG99ADPK69" 7 time1
      (inception doc_com) (JArr []);
    entry "zQmNj1M6Hmkd9MBHq9T2krV5ZW9GuCvt71onLkX2uayCaiT" 3 time2
      alias_com (JArr []) ].

(** The same log with a second entry dated before the first, and the hash
    that goes with it. *)
Definition log_backwards : list string :=
  [ header;
    entry hash_com1 1 time1 (inception doc_com) (JArr []);
    entry "zQmQFhqw93JqnCK8RBPbacTSw2VBy324msR7DzBiLAC8jJn" 2 time0
      alias_com (JArr []) ].

(** [log_plain] with the log hash of its second entry changed. *)
Definition log_tampered : list string :=
  [ header;
    entry hash_com1 1 time1 (inception doc_com) (JArr []);
    entry "zQmcTXpWr2bs1S4TekW4J5SK8uirZZAWKFkUVsuB3zNwuB9" 2 time2
      alias_com (JArr []) ].

(** [log_plain] with other version_ids, the log hashes left as they
    were. *)
Definition log_renumbered : list string :=
  [ header;
    entry hash_com1 7 time1 (inception doc_com) (JArr []);
    entry hash_com2 3 time2 alias_com (JArr []) ].

(** [log_plain] with other timestamps, the log hashes left as they were. *)
Definition log_redated : list string :=
  [ header;
    entry hash_com1 1 time2 (inception doc_com) (JArr []);
    entry hash_com2 2 time0 alias_com (JArr []) ].

(** A proof whose value is no signature of anything. *)
Definition forged_proof : json :=
  JObj [("type", JStr "DataIntegrityProof");
        ("cryptosuite", JStr "eddsa-jcs-2022");
        ("verificationMethod",
         JStr "did:webnext:example.com:ff4c2yf5ga75mjnl3ww3vo5u#key1");
        ("created", JStr time1);
        ("challenge", JStr hash_com1);
        ("proofPurpose", JStr "authentication");
        ("proofValue", JStr "z1111")].

(** [log_plain] with the forged proof as the proofs of its entries. *)
Definition log_forged : list string :=
  [ header;
    entry hash_com1 1 time1 (inception doc_com) (JArr [forged_proof]);
    entry hash_com2 2 time2 alias_com (JArr [forged_proof]) ].

Definition doc_controller : json :=
  JObj [("id", JStr "did:webnext:example.com:pmn6ff3wergvucty64tvgofy");
        ("controller", JInt 7)].

(** A log whose only entry is hash-consistent and has a document with a
    number as controller. *)
Definition log_controller : list string :=
  [ header;
    entry "zQmSWhKHTUz7zNDFbdnCyeVMCYoEzQr2PmR6TdyjZfikZR9" 1 time1
      (inception doc_controller) (JArr []) ].

(** *** Documents for the SCID derivation *)

Definition genesis_net : json :=
  JObj [("id", JStr "did:webnext:example.net:{{SCID}}")].

Definition derived_net : json :=
  JObj [("id", JStr "did:webnext:example.net:7bqbmxce347zrn2ut2e46i7i")].

(** The log of the document derived from [genesis_net]. *)
Definition log_net : list string :=
  [ header;
    entry "zQme2A78jim2vXTavYrHpsruHth35sxQ5PrnM2LeWVWKiYp" 1 time1
      (inception derived_net) (JArr []) ].

Definition genesis_com : json :=
  JObj [("id", JStr "did:webnext:example.com:{{SCID}}")].

Definition doc_version2 : json :=
  JObj [("id", JStr "did:webnext:example.com:2abc")].

(** *** A log with a proof

    The key is a stand-in key of the reference implementation. *)

Definition public_key : bytes :=
  Ref.sha256 (list_byte_of_string "sample key").

Definition sk : @Manage.VerificationMethod ref_libs :=
  {| Manage.key := public_key : @Key ref_libs;
     Manage.kid := "key1";
     Manage.pk_codec := "ed25519-pub" |}.

Definition did_org : string :=
  "did:webnext:example.org:p4ewhbw3hdjbakl6ekqdcst7".

Definition method_org : json :=
  JObj [("id", JStr (did_org ++ "#key1"));
        ("type", JStr "Multikey");
        ("controller", JStr did_org);
        ("publicKeyMultibase",
         JStr "z6Mkq3bPfB9G1kxqoMQ7fBo66qqM6uH6mCBwHuYAgao13HMZ")].

Definition members_org : dict :=
  [("id", JStr did_org);
   ("authentication", JArr [JStr (did_org ++ "#key1")]);
   ("verificationMethod", JArr [method_org])].

Definition members_org2 : dict :=
  (members_org ++ [("alsoKnownAs", JArr [JStr "did:web:example.org"])])%list.

(** the proof [eddsa_sign] makes for the second version, under the name
    [method_id] *)
Definition proof_members (method_id : string) : dict :=
  [("type", JStr "DataIntegrityProof");
   ("cryptosuite", JStr "eddsa-jcs-2022");
   ("verificationMethod", JStr method_id);
   ("created", JStr time2);
   ("challenge", JStr "sample challenge");
   ("proofPurpose", JStr "authentication");
   ("proofValue",
    JStr ("zDC4Rj5MS831ai5joiXSWoFyfKP29Qkp1tBV9ApdWXGduRCwiDRgiWxp"
          ++ "pJAbiviZoiqW3Ky7DVLTfUAxiuuHfZa2"))].

Definition proof_org (method_id : string) : json :=
  JObj (proof_members method_id).

Definition patch_org2 (proof : json) : json :=
  JArr [operation "add" "/alsoKnownAs" (JArr [JStr "did:web:example.org"]);
        operation "add" "/proof" proof].

Definition entry_org1 : string :=
  entry "zQmXquNaHSstwW7vtoxXWs7j75UAN4sXNxgLdGWU5XTumtu" 1 time1
    (inception (JObj members_org)) (JArr []).

(** the second entry; its log hash is the one of the proof by the key
    [key1] *)
Definition entry_org2 (proof : json) : string :=
  entry "zQmVx1TajSezDxLMFxJxQFVccCfYtehUHv36iSFkVQknuph" 2 time2
    (patch_org2 proof) (JArr [proof]).

(** the second version, with its proof *)
Definition doc_org2 (proof : json) : json :=
  JObj (members_org2 ++ [("proof", proof)])%list.

Definition log_signed : list string :=
  [header; entry_org1; entry_org2 (proof_org (did_org ++ "#key1"))].

(** [log_signed] with a proof that names a key the first version does not
    have. *)
Definition log_unknown_method : list string :=
  [header; entry_org1; entry_org2 (proof_org (did_org ++ "#key2"))].

Definition alias_org : json := add_alias "did:web:example.org".

(** The two versions of [log_signed] without a proof member in their
    documents; the proofs of both entries, the fifth element of their
    lines, hold a proof that names [key2], a key that no version has. *)
Definition log_foreign_proofs : list string :=
  [ header;
    entry "zQmXquNaHSstwW7vtoxXWs7j75UAN4sXNxgLdGWU5XTumtu" 1 time1
      (inception (JObj members_org))
      (JArr [proof_org (did_org ++ "#key2")]);
    entry "zQmWz1y2AnWA82RcaV8pN7cYhUGVZGrXoaHof6rhsBYFnc2" 2 time2
      alias_org (JArr [proof_org (did_org ++ "#key2")]) ].

(** *** Documents whose id has a character that JSON text escapes *)

(** the id [did:webnext:example.com:abc] followed by a backslash *)
Definition id_backslash : string :=
  "did:webnext:example.com:abc" ++ Ref.str1 Ref.backslash.

Definition doc_backslash : json := JObj [("id", JStr id_backslash)].

(** the id [did:webnext:example.com:a], a double quote, [b] *)
Definition id_quote : string :=
  "did:webnext:example.com:a" ++ Ref.str1 Ref.dquote ++ "b".

Definition doc_quote : json := JObj [("id", JStr id_quote)].

End Sample.

(** ** Further vocabulary of the properties *)

Module Reading.
Import Py Manage.

(** The controllers of a document, as [load_log] normalizes them
    (lines 156-162). *)
Definition document_controllers (document : json) : result (list json) :=
  match document with
  | JObj d =>
      match dict_get "id" d with
      | JStr id => controllers_of d id
      | _ => Raise (RuntimeError "Invalid log: invalid document ID")
      end
  | _ => Raise (RuntimeError "Invalid log: invalid document")
  end.

(** The identifier under which [parse_verification_method] files a
    method. *)
Definition method_key (doc_id : string) (method : json) : option string :=
  match method with
  | JObj m =>
      match dict_get "id" m with
      | JStr method_id =>
          Some (if startswith "#" method_id then doc_id ++ method_id
                else method_id)
      | _ => None
      end
  | _ => None
  end.

(** Every value of [methods] is a method of [sources], filed under its own
    identifier. *)
Definition filed (doc_id : string) (sources : list json) (methods : dict)
  : Prop :=
  forall k v,
    dict_lookup k methods = Some v ->
    In v sources /\ method_key doc_id v = Some k.

(** Two runs of the loop of [load_log] hold the same variables, the
    authentication keys apart when signatures are not verified. *)
Definition same_track (verify_signature : bool) (a b : state) : Prop :=
  index a = index b /\ doc a = doc b /\ prev_hash a = prev_hash b
  /\ prev_controllers a = prev_controllers b /\ doc_id a = doc_id b
  /\ (verify_signature = true -> prev_auth_keys a = prev_auth_keys b).

(** The variables of the loop, at an entry after the first, hold the
    controllers of the document of the entry before. *)
Definition tracked (st : state) : Prop :=
  1 <= index st
  /\ (index st <> 1 ->
      document_controllers (doc st) = Ok (prev_controllers st)).

(** The exceptions other than the one for a log without entries. *)
Definition other_error (e : exn) : Prop :=
  e <> RuntimeError "Invalid log: no entries".

End Reading.

(** ** python/manage.py, the writing side

    [init_log], [write_document] with the files it writes,
    [VerificationMethod.from_key], [genesis_document],
    [manual_generate_did], [auto_generate_did] and [update_document]. *)

(** The further library functions that the writing side calls:
    [json.dumps(value, indent=2)], [multicodec.wrap], which raises for a
    codec it does not know, and the algorithm, the JWK thumbprint and the
    public bytes of an [aries_askar.Key]. *)
Class KeyLibs `{Libs} : Type := {
  json_dumps_indent : json -> string;
  multicodec_wrap : string -> bytes -> option bytes;
  key_is_ed25519 : Key -> bool;
  key_get_jwk_thumbprint : Key -> string;
  key_get_public_bytes : Key -> bytes
}.

Module Writer.
Import Py Manage.

Section Code.
Context `{KeyLibs}.

Definition DID_CONTEXT : string := "https://www.w3.org/ns/did/v1".
Definition DI_CONTEXT : string :=
  "https://w3id.org/security/data-integrity/v2".
Definition MKEY_CONTEXT : string := "https://w3id.org/security/multikey/v1".
Definition LOG_FILENAME : string := "did-history.log".
Definition STORE_FILENAME : string := "keys.sqlite".

(** the end of line that [print] adds *)
Definition newline : string := String (ascii_of_nat 10) EmptyString.

(** [s.removeprefix(p)] *)
Definition removeprefix (p s : string) : string :=
  if String.prefix p s
  then substring (String.length p) (String.length s - String.length p) s
  else s.

(** [s.lstrip(c)] for one character [c] *)
Fixpoint lstrip (c : ascii) (s : string) : string :=
  match s with
  | String c' s' => if Ascii.eqb c' c then lstrip c s' else s
  | EmptyString => s
  end.

(** *** Files

    A document directory holds the log, [did.json], the files
    [did-v<n>.json] and the key store.  The log is the list of its lines,
    each with its end of line: every [print] of the writer makes one line,
    the text of [json.dumps] without [indent] holding no end of line. *)

Record key_store : Type := {
  pass_key : string;
  named : list (string * Key)
}.

Record directory : Type := {
  log : option (list string);
  did_json : option string;
  versions : list (Z * string);
  store : option key_store
}.

(** The directories, by path. *)
Definition files : Type := list (string * directory).

Definition empty_directory : directory :=
  {| log := None; did_json := None; versions := []; store := None |}.

Fixpoint find_dir (path : string) (fs : files) : option directory :=
  match fs with
  | [] => None
  | (p, d) :: fs' => if String.eqb p path then Some d else find_dir path fs'
  end.

Fixpoint put_dir (path : string) (d : directory) (fs : files) : files :=
  match fs with
  | [] => [(path, d)]
  | (p, d') :: fs' =>
      if String.eqb p path then (p, d) :: fs'
      else (p, d') :: put_dir path d fs'
  end.

(** [session.fetch_key(name)] *)
Fixpoint fetch_key (name : string) (keys : list (string * Key))
  : option Key :=
  match keys with
  | [] => None
  | (n, k) :: keys' => if String.eqb n name then Some k else fetch_key name keys'
  end.

(** the file [did-v<n>.json] written anew *)
Definition put_version (n : Z) (text : string) (l : list (Z * string))
  : list (Z * string) :=
  (n, text) :: filter (fun p => negb (fst p =? n)) l.

(** *** Keys and the genesis document *)

(** [VerificationMethod.from_key(key, kid)]: [kid] absent or empty is
    replaced by the thumbprint. *)
Definition from_key (key : Key) (kid : option string)
  : result VerificationMethod :=
  let kid :=
    match kid with
    | Some (String c s) => String c s
    | _ => key_get_jwk_thumbprint key
    end in
  if key_is_ed25519 key
  then Ok {| Manage.key := key; Manage.kid := kid;
             Manage.pk_codec := "ed25519-pub" |}
  else Raise (RuntimeError "Unsupported key algorithm").

(** the member of [verificationMethod] that [genesis_document] makes for a
    key *)
Definition genesis_method (id : string) (vm : VerificationMethod)
  : result json :=
  wrapped <- or_raise
               (multicodec_wrap (pk_codec vm) (key_get_public_bytes (key vm)))
               (LibraryError "multicodec") ;;
  Ok (JObj [("id", JStr (id ++ "#" ++ kid vm));
            ("type", JStr "Multikey");
            ("controller", JStr id);
            ("publicKeyMultibase",
             JStr (multibase_encode wrapped "base58btc"))]).

(** the id of the genesis document:
    [f"did:webnext:{domain}:{PLACEHOLDER}"] *)
Definition genesis_id (domain : string) : string :=
  "did:webnext:" ++ domain ++ ":" ++ PLACEHOLDER.

(** The document of [genesis_document], before it is made text: the loop
    appends to the two lists. *)
Definition genesis_members (domain : string) (keys : list VerificationMethod)
  : result dict :=
  let id := genesis_id domain in
  '(auths, methods) <-
    for_each keys
      (fun vm (lists : list json * list json) =>
         method <- genesis_method id vm ;;
         let name := id ++ "#" ++ kid vm in
         Ok ((fst lists ++ [JStr name])%list, (snd lists ++ [method])%list))
      ([], []) ;;
  Ok [("@context", JArr [JStr DID_CONTEXT; JStr DI_CONTEXT; JStr MKEY_CONTEXT]);
      ("id", JStr id);
      ("authentication", JArr auths);
      ("verificationMethod", JArr methods)].

Definition genesis_document (domain : string) (keys : list VerificationMethod)
  : result string :=
  members <- genesis_members domain keys ;;
  Ok (json_dumps_indent (JObj members)).

(** *** The log *)

Definition log_header : json :=
  JArr [JStr HISTORY_PROTO; JStr BASE_PROTO; JObj []].

(** [init_log(doc_dir)]: the log is written anew with the header line; the
    hash returned is over the bytes of the constant [BASE_PROTO], which is
    ASCII. *)
Definition init_log (dir : directory) : string * directory :=
  (format_hash (sha256 (list_byte_of_string BASE_PROTO)),
   {| log := Some [json_dumps log_header ++ newline];
      did_json := did_json dir;
      versions := versions dir;
      store := store dir |}).

(** The entry that [write_document] makes, lines 93-97, before it is made
    text.  [document["id"]] in [eddsa_sign] raises [TypeError] on a
    document that is no dict. *)
Definition log_entry (now : string) (document prev_document prev_hash : json)
  (version_id : Z) (timestamp : string) (sk : VerificationMethod)
  : result json :=
  let patch := make_patch prev_document document in
  let cur_hash :=
    log_line_hash prev_hash (JInt version_id) (JStr timestamp) patch in
  proof <- match document with
           | JObj d => eddsa_sign now d sk cur_hash
           | _ => Raise TypeError
           end ;;
  Ok (JArr [JStr cur_hash; JInt version_id; JStr timestamp; patch;
            JArr [JObj proof]]).

(** [write_document(doc_dir, ...)], lines 93-103: the entry is appended to
    the log, made if it is missing, and the document is written, with
    [indent=2], to [did-v<version_id>.json] and to [did.json].  Nothing is
    written when the entry cannot be made. *)
Definition write_document (now : string) (dir : directory)
  (document prev_document prev_hash : json) (version_id : Z)
  (timestamp : string) (sk : VerificationMethod) : result directory :=
  entry <- log_entry now document prev_document prev_hash version_id
             timestamp sk ;;
  let pretty := json_dumps_indent document ++ newline in
  let line := json_dumps entry ++ newline in
  Ok {| log := Some (match log dir with Some lines => lines | None => [] end
                     ++ [line])%list;
        did_json := Some pretty;
        versions := put_version version_id pretty (versions dir);
        store := store dir |}.

(** *** Making a DID *)

(** The ways [manual_generate_did] fails besides the exceptions of the
    code it calls: the [assert] on the SCID and [mkdir] on a directory
    that exists. *)
Inductive failure : Type :=
| Python (e : exn)
| AssertionError
| FileExistsError (path : string).

Inductive generated : Type :=
| Created (doc_dir : string)
| Failed (f : failure).

(** [manual_generate_did(document, sk, pass_key, scid_ver)], run on the
    directories [fs]: the directories after the call and its outcome.
    [timestamp] is the text of [new_timestamp()] and [now] the time that
    [eddsa_sign] reads.  The directory is named by the DID and made in the
    working directory; what is written before a failure stays. *)
Definition manual_generate_did (now timestamp : string) (document : json)
  (sk : VerificationMethod) (pass : string) (scid_ver : option Z)
  (fs : files) : files * generated :=
  match update_scid document scid_ver with
  | Raise e => (fs, Failed (Python e))
  | Ok (doc_id, doc_v1) =>
      match update_scid doc_v1 None with
      | Raise e => (fs, Failed (Python e))
      | Ok (check_id, _) =>
          if negb (String.eqb check_id doc_id)
          then (fs, Failed AssertionError)
          else
            match find_dir doc_id fs with
            | Some _ => (fs, Failed (FileExistsError doc_id))
            | None =>
                let '(init_hash, dir) := init_log empty_directory in
                let dir :=
                  {| log := log dir;
                     did_json := did_json dir;
                     versions := versions dir;
                     store := Some {| pass_key := pass;
                                      named := [(kid sk, key sk)] |} |} in
                match write_document now dir doc_v1 JNull (JStr init_hash) 1
                        timestamp sk with
                | Raise e => (put_dir doc_id dir fs, Failed (Python e))
                | Ok dir' => (put_dir doc_id dir' fs, Created doc_id)
                end
            end
      end
  end.

(** [auto_generate_did(domain, key_alg, pass_key, scid_ver)]; [fresh] is
    the key that [Key.generate(key_alg.name)] returns, or nothing when it
    raises. *)
Definition auto_generate_did (now timestamp : string) (domain : string)
  (fresh : option Key) (pass : string) (scid_ver : option Z) (fs : files)
  : files * generated :=
  match (key <- or_raise fresh (LibraryError "aries_askar") ;;
         sk <- from_key key None ;;
         genesis <- genesis_document domain [sk] ;;
         Ok (sk, genesis)) with
  | Raise e => (fs, Failed (Python e))
  | Ok (sk, genesis) =>
      manual_generate_did now timestamp (JStr genesis) sk pass scid_ver fs
  end.

(** *** Updating a DID *)

(** lines 316-324: the name of the signing key, from the first member of
    [document["verificationMethod"]].  The loop runs over the elements of
    a list, the keys of a dict or the characters of a string, and leaves
    after its first turn. *)
Definition signing_kid (members : dict) : result string :=
  vmethods <- or_raise (dict_lookup "verificationMethod" members)
                (KeyError "verificationMethod") ;;
  kid <-
    match vmethods with
    | JArr [] | JObj [] | JStr EmptyString => Ok None
    | JArr (JObj m :: _) =>
        match dict_get "id" m with
        | JStr kid =>
            match dict_get "id" members with
            | JStr doc_id => Ok (Some (lstrip "#" (removeprefix doc_id kid)))
            | _ => Raise TypeError
            end
        | _ => Raise (RuntimeError "Invalid verification method")
        end
    | JArr (_ :: _) | JObj (_ :: _) | JStr (String _ _) => Raise AttributeError
    | JNull | JBool _ | JInt _ => Raise TypeError
    end ;;
  match kid with
  | Some (String c s) => Ok (String c s)
  | _ => Raise (RuntimeError "Error determining signing key")
  end.

(** [update_document(dir_path, pass_key)] on the directories [fs]: the
    document it returns and the directories after the call.  Nothing is
    written when it raises.  The paths of the messages are those of a
    [dir_path] without a trailing separator. *)
Definition update_document (now timestamp : string) (dir_path pass : string)
  (fs : files) : result (json * files) :=
  dir <- or_raise (find_dir dir_path fs)
           (RuntimeError ("Missing document directory: " ++ dir_path)) ;;
  text <- or_raise (did_json dir)
            (RuntimeError
               ("Missing document file: " ++ dir_path ++ "/did.json")) ;;
  history <- or_raise (log dir)
               (RuntimeError
                  ("Missing log file: " ++ dir_path ++ "/" ++ LOG_FILENAME)) ;;
  let '(items, raised) := load_log history true true in
  _ <- match raised with Some e => Raise e | None => Ok tt end ;;
  latest <- match rev items with
            | it :: _ => Ok it
            | [] => Raise (ValueError
                             "not enough values to unpack (expected at least 1, got 0)")
            end ;;
  document <- or_raise (json_loads text) JSONDecodeError ;;
  members <- match document with
             | JObj m => Ok m
             | _ => Raise (RuntimeError "Invalid document format")
             end ;;
  let version_id := it_index latest + 1 in
  kid <- signing_kid members ;;
  keys <- match store dir with
          | Some s =>
              if String.eqb (pass_key s) pass then Ok (named s)
              else Raise (LibraryError "aries_askar")
          | None => Raise (LibraryError "aries_askar")
          end ;;
  key <- or_raise (fetch_key kid keys)
           (RuntimeError ("Key not found: " ++ kid)) ;;
  sk <- from_key key (Some kid) ;;
  dir' <- write_document now dir document (it_doc latest) (it_hash latest)
            version_id timestamp sk ;;
  Ok (document, put_dir dir_path dir' fs).

End Code.
End Writer.

(** ** Reference implementations for the writing side *)

Module RefWrite.
Import Py.

Definition newline : string := String (ascii_of_nat 10) EmptyString.

(** the indentation of [level] levels, two spaces each *)
Fixpoint spaces (level : nat) : string :=
  match level with
  | O => EmptyString
  | S n => "  " ++ spaces n
  end.

(** [json.dumps(value, indent=2)]: one item or member on a line, the
    empty list and the empty dict on one line. *)
Fixpoint dumps_indent (level : nat) (j : json) : string :=
  match j with
  | JArr [] => "[]"
  | JObj [] => "{}"
  | JArr items =>
      "[" ++ newline ++ spaces (S level)
      ++ join ("," ++ newline ++ spaces (S level))
           (map (dumps_indent (S level)) items)
      ++ newline ++ spaces level ++ "]"
  | JObj members =>
      "{" ++ newline ++ spaces (S level)
      ++ join ("," ++ newline ++ spaces (S level))
           ((fix each (l : list (string * json)) : list string :=
               match l with
               | [] => []
               | (k, v) :: l' =>
                   (Ref.quoted true k ++ ": " ++ dumps_indent (S level) v)
                   :: each l'
               end) members)
      ++ newline ++ spaces level ++ "}"
  | _ => Ref.dumps j
  end.

(** [multicodec.wrap(codec, data)] for the two codecs of the reference
    [unwrap]; another name is refused. *)
Definition multicodec_wrap (codec : string) (data : bytes) : option bytes :=
  if String.eqb codec "ed25519-pub" || String.eqb codec "secp256k1-pub"
  then Some (Ref.multicodec_wrap codec data)
  else None.

(** A stand-in for the JWK thumbprint of a stand-in key: the first bytes of
    the hash of the key, in hexadecimal. *)
Definition thumbprint (key : bytes) : string :=
  Ref.hex (firstn 8 (Ref.sha256 key)).

End RefWrite.

Definition ref_key_libs : @KeyLibs ref_libs :=
  {| json_dumps_indent := RefWrite.dumps_indent 0;
     multicodec_wrap := RefWrite.multicodec_wrap;
     key_is_ed25519 := fun _ => true;
     key_get_jwk_thumbprint := fun key : @Key ref_libs =>
                                 RefWrite.thumbprint key;
     key_get_public_bytes := fun key : @Key ref_libs => key |}.

(** ** Sample runs *)

Module Run.
Import Py.

(** *** The loader on the sample state class *)

Definition load_history (cutoff_version_id : option Z)
  (cutoff_version_time : option string) (fuel : nat) (history : list string)
  : option (result (Sample.State * Loader.DocumentMetadata string)) :=
  @Loader.load_history ref_libs Sample.State string String.ltb
    Sample.version_id Sample.timestamp (fun _ => false)
    Sample.load_history_line Sample.check_version_hash cutoff_version_id
    cutoff_version_time None fuel history.

(** the entries of [Sample.log_plain] *)
Definition entry1 : string :=
  Sample.entry Sample.hash_com1 1 Sample.time1
    (Sample.inception Sample.doc_com) (JArr []).
Definition entry2 : string :=
  Sample.entry Sample.hash_com2 2 Sample.time2 Sample.alias_com (JArr []).

(** the states of the two entries *)
Definition state1 : Sample.State :=
  {| Sample.version_id := 1;
     Sample.timestamp := Sample.time1;
     Sample.version_hash := JStr Sample.hash_com1;
     Sample.prev_hash := @Spec.seed_hash ref_libs;
     Sample.patch := Sample.inception Sample.doc_com;
     Sample.document := Sample.doc_com |}.

Definition doc_com2 : json :=
  JObj [("id", JStr "did:webnext:example.com:ff4c2yf5ga75mjnl3ww3vo5u");
        ("alsoKnownAs", JArr [JStr "did:web:example.com"])].

Definition state2 : Sample.State :=
  {| Sample.version_id := 2;
     Sample.timestamp := Sample.time2;
     Sample.version_hash := JStr Sample.hash_com2;
     Sample.prev_hash := JStr Sample.hash_com1;
     Sample.patch := Sample.alias_com;
     Sample.document := doc_com2 |}.

(** the two entries with a line that is not JSON after them *)
Definition history_bad : list string := [entry1; entry2; "not json"].

(** *** The writer on the reference libraries *)

Definition now1 : string := "2024-05-01T00:00:01Z".
Definition now2 : string := "2024-05-02T00:00:01Z".

(** [auto_generate_did("example.net", ...)] with the sample key, in an
    empty working directory *)
Definition made : Writer.files * Writer.generated :=
  @Writer.auto_generate_did ref_libs ref_key_libs now1 Sample.time1
    "example.net" (Some (Sample.public_key : @Key ref_libs)) "password"
    (Some 1) [].

Definition did_net : string :=
  "did:webnext:example.net:eks4wz56nc5pjkld6fjlqg5g".

(** the signing key of [made], named by the stand-in thumbprint *)
Definition sk_net : @Manage.VerificationMethod ref_libs :=
  {| Manage.key := Sample.public_key : @Key ref_libs;
     Manage.kid := RefWrite.thumbprint Sample.public_key;
     Manage.pk_codec := "ed25519-pub" |}.

(** the genesis document of the sample key *)
Definition genesis_net : json :=
  match @Writer.genesis_document ref_libs ref_key_libs "example.net" [sk_net]
  with
  | Ok text => JStr text
  | Raise _ => JNull
  end.

(** the genesis document of the sample key for another domain *)
Definition genesis_com : json :=
  match @Writer.genesis_document ref_libs ref_key_libs "example.com" [sk_net]
  with
  | Ok text => JStr text
  | Raise _ => JNull
  end.

(** [did.json] read, changed by [change] and written back with
    [json.dump], as [demo] does between two updates *)
Definition edit (change : dict -> dict) (path : string) (fs : Writer.files)
  : Writer.files :=
  match @Writer.find_dir ref_libs path fs with
  | Some dir =>
      match @Writer.did_json ref_libs dir with
      | Some text =>
          match Ref.loads text with
          | Some (JObj members) =>
              @Writer.put_dir ref_libs path
                {| Writer.log := @Writer.log ref_libs dir;
                   Writer.did_json := Some (Ref.dumps (JObj (change members)));
                   Writer.versions := @Writer.versions ref_libs dir;
                   Writer.store := @Writer.store ref_libs dir |}
                fs
          | _ => fs
          end
      | None => fs
      end
  | None => fs
  end.

(** the directories before the second version: an alias added *)
Definition edited : Writer.files :=
  edit (dict_set "alsoKnownAs" (JArr [JStr "did:web:example.net"])) did_net
    (fst made).

Definition updated : result (json * Writer.files) :=
  @Writer.update_document ref_libs ref_key_libs now2 Sample.time2 did_net
    "password" edited.

(** the directories before a second version with another id, the
    verification method named relative to the DID *)
Definition renamed : Writer.files :=
  edit
    (fun members =>
       dict_set "verificationMethod"
         (JArr [JObj [("id",
                       JStr ("#" ++ RefWrite.thumbprint Sample.public_key))]])
         (dict_set "id" (JStr "did:webnext:example.net:other") members))
    did_net (fst made).

Definition updated_renamed : result (json * Writer.files) :=
  @Writer.update_document ref_libs ref_key_libs now2 Sample.time2 did_net
    "password" renamed.

(** the lines of the log of a directory *)
Definition log_of (path : string) (fs : @Writer.files ref_libs)
  : list string :=
  match @Writer.find_dir ref_libs path fs with
  | Some dir =>
      match @Writer.log ref_libs dir with
      | Some lines => lines
      | None => []
      end
  | None => []
  end.

(** the directories after a call *)
Definition files_of (r : result (json * @Writer.files ref_libs))
  : @Writer.files ref_libs :=
  match r with
  | Ok (_, fs) => fs
  | Raise _ => []
  end.

(** the document that a call returns *)
Definition document_of (r : result (json * @Writer.files ref_libs)) : json :=
  match r with
  | Ok (document, _) => document
  | Raise _ => JNull
  end.

(** the first version of the sample DID *)
Definition doc_net : json :=
  match @Manage.update_scid ref_libs genesis_net (Some 1) with
  | Ok (_, document) => document
  | Raise _ => JNull
  end.

(** the members of the genesis document of the sample key *)
Definition genesis_members_net : dict :=
  match @Writer.genesis_members ref_libs ref_key_libs "example.net" [sk_net]
  with
  | Ok members => members
  | Raise _ => []
  end.

(** the first version written to an empty directory *)
Definition written : result (@Writer.directory ref_libs) :=
  @Writer.write_document ref_libs ref_key_libs now1 Writer.empty_directory
    doc_net JNull (@Spec.seed_hash ref_libs) 1 Sample.time1 sk_net.

End Run.

(** * Properties of [python/manage.py] *)

(** ** Results *)

Lemma bind_ok : forall (A B : Type) (c : result A) (k : A -> result B) (b : B),
  bind c k = Ok b -> exists a, c = Ok a /\ k a = Ok b.
Proof.
  intros A B [a | e] k b E; simpl in E; [eauto | discriminate].
Qed.

Lemma raise_if_ok : forall (c : bool) (e : exn) (u : unit),
  raise_if c e = Ok u -> c = false.
Proof.
  intros [|] e u E; [discriminate | reflexivity].
Qed.

Lemma or_raise_ok : forall (A : Type) (o : option A) (e : exn) (a : A),
  or_raise o e = Ok a -> o = Some a.
Proof.
  intros A [x |] e a E; simpl in E; [congruence | discriminate].
Qed.

Lemma eq_str_true : forall (j : json) (s : string),
  Py.eq_str j s = true -> j = JStr s.
Proof.
  intros j s E. destruct j; try discriminate.
  simpl in E. apply String.eqb_eq in E. now subst.
Qed.

Lemma eq_str_refl : forall s : string, Py.eq_str (JStr s) s = true.
Proof. intro s. simpl. apply String.eqb_refl. Qed.

Lemma last_cons : forall (A : Type) (l : list A) (x d : A),
  last (x :: l) d = last l x.
Proof.
  induction l as [|y l IH]; intros x d; [reflexivity |].
  change (last (x :: y :: l) d) with (last (y :: l) d).
  rewrite !IH. reflexivity.
Qed.

(** Splits a successful [bind] in a hypothesis into its two steps. *)
Tactic Notation "step_ok" hyp(H) "as" ident(a) ident(E) :=
  apply bind_ok in H; destruct H as (a & E & H).

(** ** Lengths of the encodings *)

Lemma b32_group_length : forall n g, List.length (Py.b32_group n g) = 8%nat.
Proof.
  intros n g. unfold Py.b32_group. rewrite length_map. reflexivity.
Qed.

Lemma b32encode_five : forall b0 b1 b2 b3 b4 rest,
  Py.b32encode (b0 :: b1 :: b2 :: b3 :: b4 :: rest) =
    (Py.b32_group 5 (Py.b32_pack b0 b1 b2 b3 b4) ++ Py.b32encode rest)%list.
Proof. reflexivity. Qed.

(** The base32 text of a digest of 32 bytes has 56 characters. *)
Lemma b32encode_digest_length : forall b,
  List.length b = 32%nat -> List.length (Py.b32encode b) = 56%nat.
Proof.
  intros b Hlen.
  do 32 (destruct b as [|? b]; [discriminate Hlen |]).
  destruct b; [| discriminate Hlen].
  rewrite !b32encode_five, !length_app, !b32_group_length.
  cbn [Py.b32encode]. rewrite b32_group_length. reflexivity.
Qed.

Lemma string_of_list_byte_length : forall b,
  String.length (string_of_list_byte b) = List.length b.
Proof.
  induction b as [|x b IH]; [reflexivity |].
  cbn. f_equal. exact IH.
Qed.

Lemma lower_length : forall s, String.length (Py.lower s) = String.length s.
Proof.
  induction s as [|c s IH]; [reflexivity |]. simpl. now rewrite IH.
Qed.

Lemma substring_prefix_length : forall n s,
  (n <= String.length s)%nat -> String.length (substring 0 n s) = n.
Proof.
  induction n as [|n IH]; intros s Hn.
  - now destruct s.
  - destruct s as [|c s]; simpl in *; [lia |].
    rewrite IH by lia. reflexivity.
Qed.

(** The reference SHA-256 returns 32 bytes. *)
Lemma be_bytes_length : forall n z, List.length (Ref.be_bytes n z) = n.
Proof.
  induction n as [|n IH]; intro z; [reflexivity |].
  cbn [Ref.be_bytes List.length]. now rewrite IH.
Qed.

Lemma round_length : forall s kw,
  List.length (Ref.round s kw) = List.length s.
Proof.
  intros s kw. unfold Ref.round.
  do 9 (destruct s as [|? s]; [reflexivity |]). reflexivity.
Qed.

Lemma rounds_length : forall kws s,
  List.length (fold_left Ref.round kws s) = List.length s.
Proof.
  induction kws as [|kw kws IH]; intro s; [reflexivity |].
  simpl. rewrite IH. apply round_length.
Qed.

Lemma compress_length : forall h block,
  List.length (Ref.compress h block) = List.length h.
Proof.
  intros h block. unfold Ref.compress.
  rewrite length_map, length_combine, rounds_length. apply Nat.min_id.
Qed.

Lemma blocks_length : forall n h b,
  List.length (Ref.blocks n h b) = List.length h.
Proof.
  induction n as [|n IH]; intros h b; [reflexivity |].
  simpl. rewrite IH. apply compress_length.
Qed.

Lemma flat_map_be_bytes_length : forall l,
  List.length (flat_map (Ref.be_bytes 4) l) = (4 * List.length l)%nat.
Proof.
  induction l as [|z l IH]; [reflexivity |].
  cbn [flat_map]. rewrite length_app, be_bytes_length, IH.
  cbn [List.length]. lia.
Qed.

Lemma ref_sha256_length : forall msg,
  List.length (Ref.sha256 msg) = 32%nat.
Proof.
  intro msg. unfold Ref.sha256.
  rewrite flat_map_be_bytes_length, blocks_length. reflexivity.
Qed.

Section ManageFacts.
Context `{Libs}.
Import Py Manage Spec.

(** What an accepted entry has passed, and the variables after it. *)
Lemma load_entry_ok : forall vh vs st parts it st',
  load_entry vh vs st parts = Ok (it, st') ->
  exists h v t p pr d cid,
    parts = JArr [h; v; t; p; pr]
    /\ apply_patch (doc st) p = Some (JObj d)
    /\ (vh = true -> h = JStr (log_line_hash (prev_hash st) v t p))
    /\ dict_get "id" d = JStr cid
    /\ (if index st =? 1
        then exists d', update_scid (JObj d) None = Ok (cid, d')
        else doc_id st = Some cid)
    /\ controller_shape (dict_get "controller" d) = true
    /\ (vs = true ->
        exists keys,
          auth_keys_of d cid = Ok keys
          /\ prev_auth_keys st' = keys
          /\ check_proofs d cid
               (if index st =? 1 then keys else prev_auth_keys st) = Ok tt)
    /\ it = {| it_index := index st; it_hash := h; it_doc := JObj d |}
    /\ index st' = index st + 1
    /\ doc st' = JObj d
    /\ prev_hash st' = h
    /\ doc_id st' = Some cid.
Proof.
  intros vh vs st parts it st' E.
  unfold load_entry in E.
  destruct parts as [| | | | items |]; try discriminate.
  destruct items as [|h [|v [|t [|p [|pr [|]]]]]]; try discriminate.
  step_ok E as new_doc Epatch. apply or_raise_ok in Epatch.
  step_ok E as d Edoc.
  destruct new_doc as [| | | | | d0]; try discriminate.
  injection Edoc as <-.
  step_ok E as u Ehash.
  step_ok E as cid Eid.
  destruct (dict_get "id" d0) as [| | | s | |] eqn:Eget; try discriminate.
  injection Eid as <-.
  step_ok E as new_id Enew.
  step_ok E as controllers Econtrollers.
  step_ok E as auth_keys Eauth.
  injection E as <- <-.
  exists h, v, t, p, pr, d0, s.
  assert (Hid : new_id = s
                /\ if index st =? 1
                   then exists d', update_scid (JObj d0) None = Ok (s, d')
                   else doc_id st = Some s).
  { destruct (index st =? 1).
    - step_ok Enew as derived Ederive. destruct derived as [derive_id d'].
      step_ok Enew as u' Esame. apply raise_if_ok in Esame.
      apply negb_false_iff, String.eqb_eq in Esame. subst derive_id.
      injection Enew as <-. split; [reflexivity | now exists d'].
    - destruct (doc_id st) as [id0 |]; [| discriminate].
      step_ok Enew as u' Esame. apply raise_if_ok in Esame.
      apply negb_false_iff, String.eqb_eq in Esame. subst id0.
      injection Enew as <-. now split. }
  destruct Hid as [-> Hid].
  repeat split; try assumption; try reflexivity.
  - intros ->. apply raise_if_ok in Ehash.
    apply negb_false_iff in Ehash. now apply eq_str_true.
  - unfold controllers_of in Econtrollers.
    destruct (dict_get "controller" d0); try discriminate; reflexivity.
  - intros ->. step_ok Eauth as keys Ekeys.
    step_ok Eauth as u1 Emem. step_ok Eauth as u2 Eproofs.
    injection Eauth as <-. exists keys. repeat split; try assumption.
    destruct u2. exact Eproofs.
Qed.

(** What [load_header] returns is the seed of the chain. *)
Lemma load_header_ok : forall first seed,
  load_header first = Ok seed -> seed = seed_hash.
Proof.
  intros first seed E. unfold load_header in E.
  step_ok E as header Eheader.
  destruct header as [| | | | items |]; try discriminate.
  destruct items as [|proto [|base [|meta [|]]]]; try discriminate.
  step_ok E as u1 E1. step_ok E as u2 E2. step_ok E as encoded Eenc.
  apply or_raise_ok in Eenc. vm_compute in Eenc.
  injection Eenc as <-. injection E as <-. reflexivity.
Qed.

(** Induction on a run of the loop of [load_log]. *)
Lemma load_lines_cases : forall vh vs
  (P : state -> list string -> list item * result state -> Prop),
  (forall st, P st [] ([], Ok st)) ->
  (forall st rest,
     P st rest (load_lines vh vs st rest) ->
     P st ("" :: rest) (load_lines vh vs st rest)) ->
  (forall st line rest,
     line <> "" -> json_loads line = None ->
     P st (line :: rest) ([], Raise JSONDecodeError)) ->
  (forall st line rest parts e,
     line <> "" -> json_loads line = Some parts ->
     load_entry vh vs st parts = Raise e ->
     P st (line :: rest) ([], Raise e)) ->
  (forall st line rest parts it st' items r,
     line <> "" -> json_loads line = Some parts ->
     load_entry vh vs st parts = Ok (it, st') ->
     load_lines vh vs st' rest = (items, r) ->
     P st' rest (items, r) ->
     P st (line :: rest) (it :: items, r)) ->
  forall lines st, P st lines (load_lines vh vs st lines).
Proof.
  intros vh vs P Hnil Hskip Hparse Hraise Hstep.
  induction lines as [|line rest IH]; intro st; simpl.
  - apply Hnil.
  - destruct (String.eqb_spec line "") as [-> | Hne].
    + apply Hskip, IH.
    + destruct (json_loads line) as [parts |] eqn:Eparse; simpl.
      * destruct (load_entry vh vs st parts) as [[it st'] | e] eqn:Eentry.
        -- destruct (load_lines vh vs st' rest) as [items r] eqn:Erest.
           eapply Hstep; eauto. rewrite <- Erest. apply IH.
        -- eapply Hraise; eauto.
      * now apply Hparse.
Qed.

(** A run on [pre ++ rest] is the run on [pre] followed, when it reaches
    the end of [pre], by the run on [rest]. *)
Lemma load_lines_app : forall vh vs pre rest st items st',
  load_lines vh vs st pre = (items, Ok st') ->
  load_lines vh vs st (pre ++ rest) =
    (items ++ fst (load_lines vh vs st' rest),
     snd (load_lines vh vs st' rest))%list.
Proof.
  intros vh vs pre rest.
  induction pre as [|line pre IH]; intros st items st' E; simpl in *.
  - injection E as <- <-. now destruct (load_lines vh vs st rest).
  - destruct (String.eqb line ""); [now apply IH |].
    destruct (json_loads line) as [parts |]; simpl in *; [| discriminate].
    destruct (load_entry vh vs st parts) as [[it st1] | e]; [| discriminate].
    destruct (load_lines vh vs st1 pre) as [items1 r1] eqn:E1.
    injection E as <- ->.
    rewrite (IH _ _ _ E1). reflexivity.
Qed.

(** The variables at the end of an accepted run, from the items yielded. *)
Lemma load_lines_end : forall vh vs lines st items st',
  load_lines vh vs st lines = (items, Ok st') ->
  index st' = index st + Z.of_nat (List.length items)
  /\ doc st' = last (map it_doc items) (doc st)
  /\ prev_hash st' = last (map it_hash items) (prev_hash st).
Proof.
  intros vh vs lines st.
  pattern st, lines, (load_lines vh vs st lines).
  apply load_lines_cases; clear st lines.
  - intros st items st' E. injection E as <- <-. simpl. repeat split. lia.
  - auto.
  - discriminate.
  - discriminate.
  - intros st line rest parts it st1 items r _ _ Eentry _ IH items' st' E.
    injection E as <- ->.
    destruct (IH _ _ eq_refl) as (Hi & Hd & Hh).
    apply load_entry_ok in Eentry.
    destruct Eentry as (h & v & t & p & pr & d & cid & _ & _ & _ & _ & _ & _
                        & _ & -> & Ei & Ed & Eh & _).
    rewrite Ei in Hi. rewrite Ed in Hd. rewrite Eh in Hh.
    cbn [List.length map it_doc it_hash].
    repeat split.
    + lia.
    + rewrite Hd, last_cons. reflexivity.
    + rewrite Hh, last_cons. reflexivity.
Qed.

(** An accepted run with hash verification follows the chain. *)
Lemma load_lines_chained : forall vs lines st items st',
  load_lines true vs st lines = (items, Ok st') ->
  chained (prev_hash st) lines.
Proof.
  intros vs lines st.
  pattern st, lines, (load_lines true vs st lines).
  apply load_lines_cases; clear st lines.
  - intros; exact I.
  - intros st rest IH items st' E. simpl. eauto.
  - discriminate.
  - discriminate.
  - intros st line rest parts it st1 items r Hne Eparse Eentry _ IH items' st' E.
    injection E as <- ->.
    apply load_entry_ok in Eentry.
    destruct Eentry as (h & v & t & p & pr & d & cid & -> & _ & Hh & _ & _ & _
                        & _ & _ & _ & _ & Eh & _).
    simpl. apply String.eqb_neq in Hne. rewrite Hne, Eparse.
    split; [now apply Hh |].
    rewrite <- Eh. eapply IH. reflexivity.
Qed.

(** An entry whose patch applies to an object and whose stored hash is not
    the recomputed one is refused for its hash. *)
Lemma load_entry_hash_mismatch : forall vs st h v t p pr d,
  apply_patch (doc st) p = Some (JObj d) ->
  h <> JStr (log_line_hash (prev_hash st) v t p) ->
  load_entry true vs st (JArr [h; v; t; p; pr]) =
    Raise (RuntimeError "Invalid log: hash mismatch").
Proof.
  intros vs st h v t p pr d Epatch Hne.
  unfold load_entry. rewrite Epatch. cbn [or_raise bind].
  destruct (eq_str h (log_line_hash (prev_hash st) v t p)) eqn:E.
  - apply eq_str_true in E. contradiction.
  - reflexivity.
Qed.

(** C1: with hash verification on, the entries of an accepted history are
    chained by [log_line_hash] from the seed [format_hash(sha256(base_proto))],
    each entry on the log hash of the entry before it; and when the entries
    before an entry are accepted and its patch applies to an object, a
    stored log hash that differs from the recomputed one ends the traversal
    at that entry with the hash-mismatch error. *)
Theorem hash_chain_enforced : forall first lines vs,
  (forall items,
     load_log (first :: lines) true vs = (items, None) ->
     chained seed_hash lines)
  /\
  (forall pre line post before st h v t p pr d,
     lines = (pre ++ line :: post)%list ->
     load_header first = Ok seed_hash ->
     load_lines true vs (initial_state seed_hash) pre = (before, Ok st) ->
     line <> "" ->
     json_loads line = Some (JArr [h; v; t; p; pr]) ->
     apply_patch (last (map it_doc before) JNull) p = Some (JObj d) ->
     h <> JStr (log_line_hash (last (map it_hash before) seed_hash) v t p) ->
     load_log (first :: lines) true vs =
       (before, Some (RuntimeError "Invalid log: hash mismatch"))).
Proof.
  intros first lines vs. split.
  - intros items E. unfold load_log in E.
    destruct (load_header first) as [seed | e] eqn:Eheader; [| discriminate].
    apply load_header_ok in Eheader. subst seed.
    destruct (load_lines true vs (initial_state seed_hash) lines)
      as [items' [st' | e]] eqn:Erun; [| discriminate].
    apply load_lines_chained in Erun. exact Erun.
  - intros pre line post before st h v t p pr d -> Eheader Epre Hne Eparse
      Epatch Hhash.
    unfold load_log. rewrite Eheader.
    rewrite (load_lines_app _ _ _ _ _ _ _ Epre).
    destruct (load_lines_end _ _ _ _ _ _ Epre) as (_ & Hdoc & Hprev).
    cbn [initial_state doc prev_hash] in Hdoc, Hprev.
    rewrite <- Hdoc in Epatch. rewrite <- Hprev in Hhash.
    cbn [load_lines]. apply String.eqb_neq in Hne. rewrite Hne, Eparse.
    cbn [or_raise bind].
    rewrite (load_entry_hash_mismatch vs st h v t p pr d Epatch Hhash).
    cbn [fst snd]. rewrite app_nil_r. reflexivity.
Qed.

(** The fields of an entry that the loop does not read: with hash
    verification off, the version_id and the timestamp; in every case, the
    proofs. *)
Lemma load_entry_agrees : forall vh vs st h v t p pr v' t' pr',
  (vh = true -> v' = v /\ t' = t) ->
  load_entry vh vs st (JArr [h; v; t; p; pr]) =
  load_entry vh vs st (JArr [h; v'; t'; p; pr']).
Proof.
  intros [|] vs st h v t p pr v' t' pr' Hvt.
  - destruct (Hvt eq_refl) as [-> ->]. reflexivity.
  - reflexivity.
Qed.

Lemma load_lines_agree : forall vh vs lines lines',
  Forall2 (line_agrees vh) lines lines' ->
  forall st, load_lines vh vs st lines = load_lines vh vs st lines'.
Proof.
  intros vh vs lines lines' Hall.
  induction Hall as [|l l' rest rest' Hl _ IH]; intro st; [reflexivity |].
  destruct Hl as [l | l l' h v t p pr v' t' pr' Hne Hne' E E' Hvt].
  - simpl. destruct (String.eqb l ""); [apply IH |].
    destruct (json_loads l) as [parts |]; [| reflexivity].
    cbn [or_raise bind].
    destruct (load_entry vh vs st parts) as [[it st'] |]; [| reflexivity].
    rewrite IH. reflexivity.
  - simpl. apply String.eqb_neq in Hne, Hne'. rewrite Hne, Hne', E, E'.
    cbn [or_raise bind].
    rewrite (load_entry_agrees vh vs st h v t p pr v' t' pr' Hvt).
    destruct (load_entry vh vs st (JArr [h; v'; t'; p; pr']))
      as [[it st'] |]; [| reflexivity].
    rewrite IH. reflexivity.
Qed.

Lemma load_log_agree : forall vh vs first lines lines',
  Forall2 (line_agrees vh) lines lines' ->
  load_log (first :: lines) vh vs = load_log (first :: lines') vh vs.
Proof.
  intros vh vs first lines lines' Hall. unfold load_log.
  destruct (load_header first) as [seed |]; [| reflexivity].
  rewrite (load_lines_agree vh vs lines lines' Hall). reflexivity.
Qed.

(** An accepted entry stays accepted under any other version_id, timestamp
    and proofs once its log hash is the one recomputed for them; it yields
    the same number and the same document. *)
Lemma load_entry_rehashed : forall vh vs st h v t p pr it st1 v' t' pr',
  load_entry vh vs st (JArr [h; v; t; p; pr]) = Ok (it, st1) ->
  load_entry vh vs st
    (JArr [JStr (log_line_hash (prev_hash st) v' t' p); v'; t'; p; pr']) =
    Ok ({| it_index := it_index it;
           it_hash := JStr (log_line_hash (prev_hash st) v' t' p);
           it_doc := it_doc it |},
        {| index := index st1;
           doc := doc st1;
           prev_hash := JStr (log_line_hash (prev_hash st) v' t' p);
           prev_controllers := prev_controllers st1;
           prev_auth_keys := prev_auth_keys st1;
           doc_id := doc_id st1 |}).
Proof.
  intros vh vs st h v t p pr it st1 v' t' pr' E.
  unfold load_entry in *.
  step_ok E as new_doc Epatch. rewrite Epatch. cbn [bind].
  step_ok E as d Edoc. rewrite Edoc. cbn [bind].
  step_ok E as u Ehash.
  rewrite eq_str_refl. cbn [negb raise_if].
  replace (if vh then Ok tt else Ok tt) with (Ok tt) by now destruct vh.
  cbn [bind].
  step_ok E as cid Eid. rewrite Eid. cbn [bind].
  step_ok E as new_id Enew. rewrite Enew. cbn [bind].
  step_ok E as controllers Econtrollers. rewrite Econtrollers. cbn [bind].
  step_ok E as auth_keys Eauth. rewrite Eauth. cbn [bind].
  injection E as <- <-. reflexivity.
Qed.

(** The fifth element of an entry, where the writer puts the proof, is
    not read: two logs that differ there only have the same traversal. *)
Lemma proofs_field_ignored : forall vh vs first lines lines',
  Forall2 differ_in_proofs lines lines' ->
  load_log (first :: lines) vh vs = load_log (first :: lines') vh vs.
Proof.
  intros vh vs first lines lines' Hall. apply load_log_agree.
  eapply Forall2_impl; [| exact Hall].
  intros l l' [| ? ? h v t p pr pr' Hne Hne' E E'].
  - apply agrees_same.
  - eapply agrees_entry; eauto.
Qed.

(** The numbers yielded count the entries. *)
Lemma load_lines_index : forall vh vs lines st items r,
  load_lines vh vs st lines = (items, r) ->
  map it_index items = count_from (index st) (List.length items).
Proof.
  intros vh vs lines st.
  pattern st, lines, (load_lines vh vs st lines).
  apply load_lines_cases; clear st lines.
  - intros st items r E. injection E as <- <-. reflexivity.
  - auto.
  - intros st line rest _ _ items r E. injection E as <- <-. reflexivity.
  - intros st line rest parts e _ _ _ items r E. injection E as <- <-.
    reflexivity.
  - intros st line rest parts it st1 items r _ _ Eentry _ IH items' r' E.
    injection E as <- <-.
    apply load_entry_ok in Eentry.
    destruct Eentry as (h & v & t & p & pr & d & cid & _ & _ & _ & _ & _ & _
                        & _ & -> & Ei & _).
    cbn [map List.length count_from it_index]. f_equal.
    rewrite <- Ei. eapply IH. reflexivity.
Qed.

(** C7, as the code has it: the number [load_log] yields with an entry is
    its own count of the entries, 1 for the first and one more for each
    entry after it, whatever version_id the entries record.  The recorded
    version_id is never compared with it and counts only as an input of
    the log-line hash: with hash verification off the traversal of two logs
    that differ in the recorded version_ids only is the same, and an
    accepted entry stays accepted, with the same number and document,
    under any other version_id once its log hash is recomputed. *)
Theorem index_counts_entries : forall first lines lines' vh vs,
  (forall items e,
     load_log (first :: lines) vh vs = (items, e) ->
     map it_index items = count_from 1 (List.length items))
  /\
  (Forall2 differ_in_version_id lines lines' ->
   load_log (first :: lines) false vs = load_log (first :: lines') false vs)
  /\
  (forall st h v t p pr it st1 v',
     load_entry vh vs st (JArr [h; v; t; p; pr]) = Ok (it, st1) ->
     exists it' st1',
       load_entry vh vs st
         (JArr [JStr (log_line_hash (prev_hash st) v' t p); v'; t; p; pr]) =
         Ok (it', st1')
       /\ it_index it' = it_index it /\ it_doc it' = it_doc it).
Proof.
  intros first lines lines' vh vs. split; [| split].
  - intros items e E. unfold load_log in E.
    destruct (load_header first) as [seed | e0].
    + destruct (load_lines vh vs (initial_state seed) lines)
        as [items' r] eqn:Erun.
      injection E as <- _.
      apply load_lines_index in Erun. exact Erun.
    + injection E as <- _. reflexivity.
  - intro Hall. apply load_log_agree.
    eapply Forall2_impl; [| exact Hall].
    intros l l' [| ? ? h v v' t p pr Hne Hne' E E'].
    + apply agrees_same.
    + eapply agrees_entry; eauto. discriminate.
  - intros st h v t p pr it st1 v' E.
    rewrite (load_entry_rehashed _ _ _ _ _ _ _ _ _ _ v' t pr E).
    eexists _, _. repeat split.
Qed.

(** C8, as the code has it: [load_log] does not compare the timestamps of
    successive entries; a timestamp counts only as an input of the
    log-line hash.  With hash verification off the traversal of two logs
    that differ in their timestamps only is the same, and an accepted entry
    stays accepted, with the same number and document, under any other
    timestamp, earlier ones included, once its log hash is recomputed. *)
Theorem timestamps_only_hashed : forall first lines lines' vh vs,
  (Forall2 differ_in_timestamp lines lines' ->
   load_log (first :: lines) false vs = load_log (first :: lines') false vs)
  /\
  (forall st h v t p pr it st1 t',
     load_entry vh vs st (JArr [h; v; t; p; pr]) = Ok (it, st1) ->
     exists it' st1',
       load_entry vh vs st
         (JArr [JStr (log_line_hash (prev_hash st) v t' p); v; t'; p; pr]) =
         Ok (it', st1')
       /\ it_index it' = it_index it /\ it_doc it' = it_doc it).
Proof.
  intros first lines lines' vh vs. split.
  - intro Hall. apply load_log_agree.
    eapply Forall2_impl; [| exact Hall].
    intros l l' [| ? ? h v t t' p pr Hne Hne' E E'].
    + apply agrees_same.
    + eapply agrees_entry; eauto. discriminate.
  - intros st h v t p pr it st1 t' E.
    rewrite (load_entry_rehashed _ _ _ _ _ _ _ _ _ _ v t' pr E).
    eexists _, _. repeat split.
Qed.

(** ** Proofs and the keys they are checked against *)

Lemma for_each_unit_ok : forall (A : Type) (f : A -> result unit)
  (l : list A) (u : unit),
  for_each l (fun x _ => f x) tt = Ok u -> Forall (fun x => f x = Ok tt) l.
Proof.
  induction l as [|x l IH]; intros u E; [constructor |].
  simpl in E. step_ok E as u' Ex. destruct u'.
  constructor; [exact Ex | eapply IH; exact E].
Qed.

Lemma check_proof_ok : forall d id keys proof,
  dict_get "id" d = JStr id ->
  check_proof d id keys proof = Ok tt ->
  proof_verified keys (JObj d) proof.
Proof.
  intros d id keys proof Eid E. unfold check_proof in E.
  destruct proof as [| | | | | p]; try discriminate.
  destruct (dict_get "verificationMethod" p) as [| | | method_id | |] eqn:Em;
    try discriminate.
  destruct (dict_lookup _ keys) as [vmethod |] eqn:Ek; [| discriminate].
  exists d, id, p, method_id, vmethod. repeat split; assumption.
Qed.

Lemma check_proofs_ok : forall d id keys,
  dict_get "id" d = JStr id ->
  check_proofs d id keys = Ok tt ->
  Forall (proof_verified keys (JObj d)) (document_proofs (JObj d)).
Proof.
  intros d id keys Eid E. unfold check_proofs in E.
  step_ok E as proofs Eproofs.
  unfold document_proofs. rewrite Eproofs.
  apply for_each_unit_ok in E.
  eapply Forall_impl; [| exact E].
  intros proof Hp. now apply check_proof_ok with (id := id).
Qed.

Lemma initial_state_settled : forall seed, settled (initial_state seed).
Proof.
  intro seed. split; simpl; [lia | congruence].
Qed.

Lemma load_entry_settled : forall vh st parts it st',
  settled st ->
  load_entry vh true st parts = Ok (it, st') ->
  settled st'.
Proof.
  intros vh st parts it st' [Hge _] E.
  apply load_entry_ok in E.
  destruct E as (h & v & t & p & pr & d & cid & _ & _ & _ & Eid & _ & _
                 & Hkeys & _ & Ei & Ed & _ & Edid).
  destruct (Hkeys eq_refl) as (keys & Ekeys & <- & _).
  split; [lia |]. intros _. now exists d, cid.
Qed.

Lemma load_lines_settled : forall vh lines st items st',
  settled st ->
  load_lines vh true st lines = (items, Ok st') ->
  settled st'.
Proof.
  intros vh lines st.
  pattern st, lines, (load_lines vh true st lines).
  apply load_lines_cases; clear st lines.
  - intros st items st' Hs E. now injection E as _ <-.
  - auto.
  - discriminate.
  - discriminate.
  - intros st line rest parts it st1 items r _ _ Eentry _ IH items' st' Hs E.
    injection E as _ ->.
    eapply IH; [| reflexivity]. eapply load_entry_settled; eauto.
Qed.

(** The proofs of an accepted entry have been verified against the keys of
    its own document at entry 1, of the document before it afterwards. *)
Lemma load_entry_verified : forall vh st parts it st',
  settled st ->
  load_entry vh true st parts = Ok (it, st') ->
  exists keys,
    document_auth_keys (if index st =? 1 then it_doc it else doc st) = Ok keys
    /\ Forall (proof_verified keys (it_doc it)) (document_proofs (it_doc it)).
Proof.
  intros vh st parts it st' [_ Hs] E.
  apply load_entry_ok in E.
  destruct E as (h & v & t & p & pr & d & cid & _ & _ & _ & Eid & _ & _
                 & Hkeys & -> & _).
  destruct (Hkeys eq_refl) as (keys & Ekeys & _ & Echeck).
  cbn [it_doc].
  destruct (index st =? 1) eqn:E1.
  - exists keys. split.
    + unfold document_auth_keys. now rewrite Eid.
    + now apply check_proofs_ok with (id := cid).
  - apply Z.eqb_neq in E1.
    destruct (Hs E1) as (d0 & id0 & Ed0 & Eid0 & _ & Ekeys0).
    exists (prev_auth_keys st). split.
    + rewrite Ed0. unfold document_auth_keys. now rewrite Eid0.
    + now apply check_proofs_ok with (id := cid).
Qed.

Lemma load_lines_verified : forall vh lines st items r,
  settled st ->
  load_lines vh true st lines = (items, r) ->
  forall before it after,
    items = (before ++ it :: after)%list ->
    exists keys,
      document_auth_keys
        (last (map it_doc before)
           (if index st =? 1 then it_doc it else doc st)) = Ok keys
      /\ Forall (proof_verified keys (it_doc it))
           (document_proofs (it_doc it)).
Proof.
  intros vh lines st.
  pattern st, lines, (load_lines vh true st lines).
  apply load_lines_cases; clear st lines.
  - intros st items r _ E before it after ->. injection E as E _.
    now destruct before.
  - auto.
  - intros st line rest _ _ items r _ E before it after ->.
    injection E as E _. now destruct before.
  - intros st line rest parts e _ _ _ items r _ E before it after ->.
    injection E as E _. now destruct before.
  - intros st line rest parts it0 st1 items r _ _ Eentry _ IH items' r' Hs E
      before it after Esplit.
    injection E as <- <-.
    destruct before as [|b before].
    + injection Esplit as <- _. cbn [map last].
      eapply load_entry_verified; eauto.
    + injection Esplit as <- ->.
      assert (Hs1 : settled st1) by (eapply load_entry_settled; eauto).
      destruct (IH _ _ Hs1 eq_refl before it after eq_refl)
        as (keys & Ekeys & Hall).
      exists keys. split; [| exact Hall].
      apply load_entry_ok in Eentry.
      destruct Eentry as (h & v & t & p & pr & d & cid & _ & _ & _ & _ & _
                          & _ & _ & -> & Ei & Ed & _).
      destruct Hs as [Hge _].
      replace (index st1 =? 1) with false in Ekeys
        by (symmetry; apply Z.eqb_neq; lia).
      cbn [map it_doc]. rewrite last_cons. rewrite <- Ed. exact Ekeys.
Qed.

Lemma last_nonempty : forall (A : Type) (l : list A) (x y : A),
  l <> [] -> last l x = last l y.
Proof.
  induction l as [|a l IH]; intros x y Hne; [contradiction |].
  rewrite !last_cons. reflexivity.
Qed.

Lemma verified_not_unknown : forall keys document proof,
  proof_verified keys document proof ->
  names_unknown_method keys document proof ->
  False.
Proof.
  intros keys document proof (d & id & p & m & vm & -> & Eid & -> & Em & Ek & _)
    (d' & id' & p' & m' & Ed & Eid' & Ep & Em' & Ek').
  injection Ed as <-. injection Ep as <-.
  rewrite Eid in Eid'. injection Eid' as <-.
  rewrite Em in Em'. injection Em' as <-.
  congruence.
Qed.

(** The proofs that the reader does verify are those of the [proof] member
    of a document: with signature verification on, the proofs in the
    document of every entry yielded have been verified against the
    authentication keys of its own document when it is the first entry,
    and of the document of the entry before it otherwise; and when the
    entries before an entry are accepted, a proof in its document that
    names a method absent from that key set ends the traversal at that
    entry.  The proofs of the entry itself, the fifth element of its line,
    are not among them. *)
Theorem proofs_checked_against_prior_keys : forall first lines vh,
  (forall items e before it after,
     load_log (first :: lines) vh true = (items, e) ->
     items = (before ++ it :: after)%list ->
     exists keys,
       document_auth_keys (last (map it_doc before) (it_doc it)) = Ok keys
       /\ Forall (proof_verified keys (it_doc it))
            (document_proofs (it_doc it)))
  /\
  (forall pre line post before st h v t p pr new_doc keys proof,
     lines = (pre ++ line :: post)%list ->
     load_header first = Ok seed_hash ->
     load_lines vh true (initial_state seed_hash) pre = (before, Ok st) ->
     line <> "" ->
     json_loads line = Some (JArr [h; v; t; p; pr]) ->
     apply_patch (last (map it_doc before) JNull) p = Some new_doc ->
     document_auth_keys (last (map it_doc before) new_doc) = Ok keys ->
     In proof (document_proofs new_doc) ->
     names_unknown_method keys new_doc proof ->
     exists e, load_log (first :: lines) vh true = (before, Some e)).
Proof.
  intros first lines vh. split.
  - intros items e before it after E Esplit. unfold load_log in E.
    destruct (load_header first) as [seed | e0].
    + destruct (load_lines vh true (initial_state seed) lines)
        as [items' r] eqn:Erun.
      injection E as <- _.
      exact (load_lines_verified vh lines _ _ _ (initial_state_settled seed)
               Erun before it after Esplit).
    + injection E as <- _. now destruct before.
  - intros pre line post before st h v t p pr new_doc keys proof -> Eheader
      Epre Hne Eparse Epatch Ekeys Hin Hunknown.
    unfold load_log. rewrite Eheader.
    rewrite (load_lines_app _ _ _ _ _ _ _ Epre).
    destruct (load_lines_end _ _ _ _ _ _ Epre) as (Hindex & Hdoc & _).
    cbn [initial_state doc index] in Hdoc, Hindex.
    assert (Hs : settled st).
    { eapply load_lines_settled; [| exact Epre]. apply initial_state_settled. }
    cbn [load_lines]. apply String.eqb_neq in Hne. rewrite Hne, Eparse.
    cbn [or_raise bind].
    destruct (load_entry vh true st (JArr [h; v; t; p; pr]))
      as [[it st1] | e] eqn:Eentry.
    + exfalso.
      destruct (load_entry_verified _ _ _ _ _ Hs Eentry)
        as (keys' & Ekeys' & Hall).
      apply load_entry_ok in Eentry.
      destruct Eentry as (h0 & v0 & t0 & p0 & pr0 & d & cid & Eparts & Epatch'
                          & _ & _ & _ & _ & _ & -> & _).
      injection Eparts as <- <- <- <- <-.
      rewrite <- Hdoc in Epatch. rewrite Epatch in Epatch'.
      injection Epatch' as ->. cbn [it_doc] in *.
      assert (Esame : keys' = keys).
      { destruct before as [|b before].
        - simpl in Hindex. rewrite Hindex in Ekeys'. simpl in Ekeys', Ekeys.
          congruence.
        - replace (index st =? 1) with false in Ekeys'
            by (symmetry; apply Z.eqb_neq; rewrite Hindex;
                cbn [List.length]; lia).
          rewrite Hdoc in Ekeys'.
          rewrite (last_nonempty _ _ JNull (JObj d)) in Ekeys'
            by discriminate.
          congruence. }
      subst keys'.
      rewrite Forall_forall in Hall.
      exact (verified_not_unknown _ _ _ (Hall _ Hin) Hunknown).
    + exists e. cbn [fst snd]. rewrite app_nil_r. reflexivity.
Qed.

(** ** Traversal without signature verification *)

(** What is enough for an entry to be accepted when signatures are not
    verified. *)
Lemma load_entry_unsigned : forall vh st h v t p pr d cid,
  apply_patch (doc st) p = Some (JObj d) ->
  (vh = true -> h = JStr (log_line_hash (prev_hash st) v t p)) ->
  dict_get "id" d = JStr cid ->
  (if index st =? 1
   then exists d', update_scid (JObj d) None = Ok (cid, d')
   else doc_id st = Some cid) ->
  controller_shape (dict_get "controller" d) = true ->
  exists st',
    load_entry vh false st (JArr [h; v; t; p; pr]) =
      Ok ({| it_index := index st; it_hash := h; it_doc := JObj d |}, st')
    /\ index st' = index st + 1 /\ doc st' = JObj d
    /\ prev_hash st' = h /\ doc_id st' = Some cid.
Proof.
  intros vh st h v t p pr d cid Epatch Hhash Eid Hid Hshape.
  unfold load_entry. rewrite Epatch. cbn [or_raise bind].
  assert (Ehash :
    (if vh
     then raise_if (negb (eq_str h (log_line_hash (prev_hash st) v t p)))
            (RuntimeError "Invalid log: hash mismatch")
     else Ok tt) = Ok tt).
  { destruct vh; [| reflexivity].
    rewrite (Hhash eq_refl), eq_str_refl. reflexivity. }
  rewrite Ehash, Eid. cbn [bind].
  assert (Enew :
    (if index st =? 1
     then
       '(derive_id, _) <- update_scid (JObj d) None ;;
       _ <- raise_if (negb (String.eqb cid derive_id))
              (RuntimeError "Invalid log: invalid SCID derivation") ;;
       Ok cid
     else
       match doc_id st with
       | Some d0 =>
           _ <- raise_if (negb (String.eqb cid d0))
                  (RuntimeError "Invalid log: document ID has changed") ;;
           Ok d0
       | None => Raise (RuntimeError "Invalid log: document ID has changed")
       end) = Ok cid).
  { destruct (index st =? 1).
    - destruct Hid as [d' ->]. cbn [bind]. rewrite String.eqb_refl.
      reflexivity.
    - rewrite Hid. rewrite String.eqb_refl. reflexivity. }
  rewrite Enew. cbn [bind].
  unfold controllers_of.
  destruct (dict_get "controller" d); try discriminate Hshape;
    cbn [bind]; eexists; repeat split.
Qed.

Lemma valid_history_accepted : forall vh lines n prev_doc prev id st,
  valid_history true vh n prev_doc prev id lines ->
  index st = n -> doc st = prev_doc -> prev_hash st = prev ->
  doc_id st = id ->
  exists items st',
    load_lines vh false st lines = (items, Ok st')
    /\ List.length items = List.length (entries lines).
Proof.
  intros vh lines.
  induction lines as [|line rest IH];
    intros n prev_doc prev id st Hvalid En Ed Eh Ei.
  - exists [], st. now split.
  - cbn [valid_history load_lines entries filter] in *.
    destruct (String.eqb line "") eqn:Eline; cbn [negb].
    + now apply (IH n prev_doc prev id).
    + destruct Hvalid as (h & v & t & p & pr & d & cid & Eparse & Epatch
                          & Hhash & Eid & Hid & Hshape & Hrest).
      rewrite Eparse. cbn [or_raise bind]. subst n prev_doc prev id.
      destruct (load_entry_unsigned vh st h v t p pr d cid Epatch Hhash Eid
                  Hid (Hshape eq_refl))
        as (st1 & -> & Ei1 & Ed1 & Eh1 & Eid1).
      destruct (IH _ _ _ _ st1 Hrest Ei1 Ed1 Eh1 Eid1)
        as (items & st' & -> & Hlen).
      eexists _, st'. split; [reflexivity |].
      cbn [List.length]. now rewrite Hlen.
Qed.

Lemma accepted_valid_history : forall vh vs lines st items st',
  load_lines vh vs st lines = (items, Ok st') ->
  valid_history true vh (index st) (doc st) (prev_hash st) (doc_id st) lines
  /\ List.length items = List.length (entries lines).
Proof.
  intros vh vs lines st.
  pattern st, lines, (load_lines vh vs st lines).
  apply load_lines_cases; clear st lines.
  - intros st items st' E. injection E as <- _. now split.
  - intros st rest IH items st' E. exact (IH _ _ E).
  - discriminate.
  - discriminate.
  - intros st line rest parts it st1 items r Hne Eparse Eentry _ IH items' st'
      E.
    injection E as <- ->.
    destruct (IH _ _ eq_refl) as [Hrest Hlen].
    apply load_entry_ok in Eentry.
    destruct Eentry as (h & v & t & p & pr & d & cid & -> & Epatch & Hhash
                        & Eid & Hid & Hshape & _ & _ & Ei & Ed & Eh & Edid).
    rewrite Ei, Ed, Eh, Edid in Hrest.
    apply String.eqb_neq in Hne.
    cbn [valid_history entries filter]. rewrite Hne. cbn [negb List.length].
    split; [| now rewrite Hlen].
    exists h, v, t, p, pr, d, cid. repeat split; auto.
Qed.

(** C10, as the code has it: with [verify_signature] false no
    authentication key is parsed, the DID is not looked up in the prior
    controllers and no proof is verified, but the controller member is
    still normalized.  A history is accepted, and every entry yielded,
    exactly when its header is valid and its entries are structurally
    valid, hash-consistent when hashes are verified, and have a controller
    member that is absent or null, a string or a list. *)
Theorem unsigned_traversal : forall first lines vh,
  (load_header first = Ok seed_hash
   /\ valid_history true vh 1 JNull seed_hash None lines)
  <->
  (exists items,
     load_log (first :: lines) vh false = (items, None)
     /\ List.length items = List.length (entries lines)).
Proof.
  intros first lines vh. split.
  - intros [Eheader Hvalid]. unfold load_log. rewrite Eheader.
    destruct (valid_history_accepted vh lines 1 JNull seed_hash None
                (initial_state seed_hash) Hvalid eq_refl eq_refl eq_refl
                eq_refl)
      as (items & st' & Erun & Hlen).
    rewrite Erun. exists items. split; [| exact Hlen].
    destruct (load_lines_end _ _ _ _ _ _ Erun) as (Hindex & _).
    cbn [initial_state index] in Hindex.
    replace (index st' =? 0) with false
      by (symmetry; apply Z.eqb_neq; lia).
    reflexivity.
  - intros (items & E & Hlen). unfold load_log in E.
    destruct (load_header first) as [seed | e] eqn:Eheader; [| discriminate].
    pose proof (load_header_ok _ _ Eheader) as ->.
    split; [reflexivity |].
    destruct (load_lines vh false (initial_state seed_hash) lines)
      as [items' [st' | e]] eqn:Erun; [| discriminate].
    exact (proj1 (accepted_valid_history _ _ _ _ _ _ Erun)).
Qed.

(** ** The SCID derivation *)

Lemma scid_version_code : forall scid_ver old_scid,
  match scid_ver with
  | None =>
      let pfx := substring 0 1 old_scid in
      if isdigit pfx then or_raise (int_of_digit pfx) (ValueError "int")
      else Ok 1
  | Some v => Ok v
  end = or_raise (scid_version scid_ver old_scid) (ValueError "int").
Proof.
  intros [v |] old_scid; [reflexivity |].
  unfold scid_version. cbv zeta.
  now destruct (isdigit (substring 0 1 old_scid)).
Qed.

(** C4, as the code has it: for a document whose id is a string of at least
    four colon segments that starts with [did], when the SCID version is 1
    (given, or read from a leading digit of the final segment, 1 without
    one) and the canonical text is ASCII, the derivation replaces the id by
    the id ending in the placeholder throughout the canonical JCS text,
    hashes it with sha256 and takes the first 24 characters of the
    lower-case base32 text: 24 characters when the digest has 32 bytes.
    It then replaces the old id by the id ending in this SCID throughout
    the text of [json.dumps] and parses the result: when that text is
    JSON, it returns the new id and the document parsed, and when it is
    not, it raises [JSONDecodeError].  It fails on an id with fewer than
    four segments or another first segment, on a version other than 1, and
    on an id that is not a string. *)
Theorem scid_derivation : forall members scid_ver,
  (forall doc_id,
     dict_get "id" members = JStr doc_id ->
     (hd "" (split ":" doc_id) = "did" ->
      (4 <= List.length (split ":" doc_id))%nat ->
      scid_version scid_ver (last (split ":" doc_id) "") = Some 1 ->
      (forall m, List.length (sha256 m) = 32%nat) ->
      forall scid,
        derived_scid (JObj members) doc_id = Some scid ->
        String.length scid = 24%nat
        /\ (forall updated,
              json_loads
                (replace doc_id (with_final_segment doc_id scid)
                   (json_dumps (JObj members))) = Some updated ->
              update_scid (JObj members) scid_ver =
                Ok (with_final_segment doc_id scid, updated))
        /\ (json_loads
              (replace doc_id (with_final_segment doc_id scid)
                 (json_dumps (JObj members))) = None ->
            update_scid (JObj members) scid_ver = Raise JSONDecodeError))
     /\ (hd "" (split ":" doc_id) <> "did"
         \/ (List.length (split ":" doc_id) < 4)%nat ->
         update_scid (JObj members) scid_ver =
           Raise (RuntimeError "Invalid document ID"))
     /\ (hd "" (split ":" doc_id) = "did" ->
         (4 <= List.length (split ":" doc_id))%nat ->
         forall v,
           scid_version scid_ver (last (split ":" doc_id) "") = Some v ->
           v <> 1 ->
           update_scid (JObj members) scid_ver =
             Raise (RuntimeError "Only SCID version 1 is supported")))
  /\
  ((forall doc_id, dict_get "id" members <> JStr doc_id) ->
   update_scid (JObj members) scid_ver =
     Raise (RuntimeError "Missing document ID")).
Proof.
  intros members scid_ver. split.
  - intros doc_id Eid.
    assert (Hshape :
      if negb (String.eqb (hd "" (split ":" doc_id)) "did")
         || (Z.of_nat (List.length (split ":" doc_id)) <? 4)
      then hd "" (split ":" doc_id) <> "did"
           \/ (List.length (split ":" doc_id) < 4)%nat
      else hd "" (split ":" doc_id) = "did"
           /\ (4 <= List.length (split ":" doc_id))%nat).
    { destruct (negb _ || _) eqn:E.
      - apply orb_true_iff in E. destruct E as [E | E].
        + left. apply negb_true_iff, String.eqb_neq in E. exact E.
        + right. apply Z.ltb_lt in E. lia.
      - apply orb_false_iff in E. destruct E as [E1 E2].
        apply negb_false_iff, String.eqb_eq in E1.
        apply Z.ltb_ge in E2. split; [exact E1 | lia]. }
    split; [| split].
    + intros Hdid Hlen Hver Hdigest scid Escid.
      unfold derived_scid in Escid.
      destruct (decode_ascii (canonicalize (JObj members))) as [text |] eqn:Et;
        [| discriminate].
      destruct (encode_ascii _) as [norm |] eqn:En; [| discriminate].
      injection Escid as <-.
      assert (Hrun :
        update_scid (JObj members) scid_ver =
          (updated <-
             or_raise
               (json_loads
                  (replace doc_id
                     (with_final_segment doc_id
                        (substring 0 24
                           (lower
                              (string_of_list_byte
                                 (b32encode (sha256 norm))))))
                     (json_dumps (JObj members))))
               JSONDecodeError ;;
           Ok (with_final_segment doc_id
                 (substring 0 24
                    (lower (string_of_list_byte (b32encode (sha256 norm))))),
               updated))).
      { unfold update_scid. cbn [bind]. rewrite Eid. cbn [bind].
        destruct (negb _ || _).
        { destruct Hshape; [contradiction | lia]. }
        cbn [raise_if bind].
        rewrite scid_version_code, Hver.
        cbn [or_raise bind Z.eqb Pos.eqb negb raise_if].
        fold (with_final_segment doc_id PLACEHOLDER).
        rewrite Et. cbn [or_raise bind]. rewrite En. cbn [or_raise bind].
        reflexivity. }
      split; [| split].
      * apply substring_prefix_length.
        rewrite lower_length, string_of_list_byte_length,
          (b32encode_digest_length _ (Hdigest norm)). lia.
      * intros updated Eparsed. rewrite Hrun, Eparsed. reflexivity.
      * intros Eparsed. rewrite Hrun, Eparsed. reflexivity.
    + intro Hbad. unfold update_scid. cbn [bind]. rewrite Eid. cbn [bind].
      destruct (negb _ || _); [reflexivity |].
      destruct Hshape, Hbad; [contradiction | lia].
    + intros Hdid Hlen v Hver Hv.
      unfold update_scid. cbn [bind]. rewrite Eid. cbn [bind].
      destruct (negb _ || _).
      { destruct Hshape; [contradiction | lia]. }
      cbn [raise_if bind].
      rewrite scid_version_code, Hver. cbn [or_raise bind].
      apply Z.eqb_neq in Hv. rewrite Hv. reflexivity.
  - intro Hid. unfold update_scid. cbn [bind].
    destruct (dict_get "id" members) as [| | | s | |] eqn:Eid;
      try reflexivity.
    now destruct (Hid s).
Qed.

(** ** Proofs *)

Lemma dict_mem_set : forall k v d, dict_mem k (dict_set k v d) = true.
Proof.
  intros k v d. induction d as [|[k' w] d IH]; simpl.
  - now rewrite String.eqb_refl.
  - destruct (String.eqb k' k) eqn:E; simpl; now rewrite E.
Qed.

Lemma dict_del_set : forall k v d,
  dict_mem k d = false -> dict_del k (dict_set k v d) = d.
Proof.
  intros k v d. induction d as [|[k' w] d IH]; simpl; intro Hmem.
  - now rewrite String.eqb_refl.
  - destruct (String.eqb k' k) eqn:E; [discriminate |].
    simpl. rewrite E, IH by exact Hmem. reflexivity.
Qed.

(** C9: [verify_proof] accepts a proof only when its type is
    DataIntegrityProof, its cryptosuite eddsa-jcs-2022, its purpose
    authentication and the key of the method decodes with the codec
    ed25519-pub, and only when the signature verifies over the sha256 of
    the canonical document without its proof member followed by the sha256
    of the canonical proof without its value.  [eddsa_sign] signs that
    same input: the proof it creates for a document without a proof
    member, attached to that document, verifies against the public key of
    the signer, when the multibase text of the signature decodes to the
    signature and the signature of the key verifies under its public
    key. *)
Theorem proof_verification : forall document proof method,
  (verify_proof document proof method = Ok tt ->
   dict_get "type" proof = JStr "DataIntegrityProof"
   /\ dict_get "cryptosuite" proof = JStr "eddsa-jcs-2022"
   /\ dict_get "proofPurpose" proof = JStr "authentication"
   /\ exists m key_mc key_bytes pk value signature,
        method = JObj m
        /\ multibase_decode (dict_get "publicKeyMultibase" m) = Some key_mc
        /\ multicodec_unwrap key_mc = Some ("ed25519-pub", key_bytes)
        /\ key_from_public_bytes "ed25519" key_bytes = Some pk
        /\ dict_lookup "proofValue" proof = Some value
        /\ multibase_decode value = Some signature
        /\ key_verify_signature pk (sig_input document proof) signature
           = true)
  /\
  (forall now unsigned sk challenge attached m key_mc key_bytes pk,
     eddsa_sign now unsigned sk challenge = Ok proof ->
     dict_mem "proof" unsigned = false ->
     document = dict_set "proof" attached unsigned ->
     method = JObj m ->
     multibase_decode (dict_get "publicKeyMultibase" m) = Some key_mc ->
     multicodec_unwrap key_mc = Some ("ed25519-pub", key_bytes) ->
     key_from_public_bytes "ed25519" key_bytes = Some pk ->
     (let signature :=
        key_sign_message (key sk) (sig_input document proof) in
      multibase_decode (JStr (multibase_encode signature "base58btc"))
      = Some signature
      /\ key_verify_signature pk (sig_input document proof) signature
         = true) ->
     dict_lookup "proofValue" proof =
       Some (JStr (multibase_encode
                     (key_sign_message (key sk) (sig_input document proof))
                     "base58btc"))
     /\ verify_proof document proof method = Ok tt).
Proof.
  intros document proof method. split.
  - intro E. unfold verify_proof in E.
    step_ok E as u1 Etype. apply raise_if_ok, negb_false_iff in Etype.
    step_ok E as u2 Epurpose. apply raise_if_ok, negb_false_iff in Epurpose.
    step_ok E as u3 Esuite. apply raise_if_ok, negb_false_iff in Esuite.
    step_ok E as m Em. destruct method as [| | | | | m0]; try discriminate.
    injection Em as <-.
    step_ok E as key_mc Emc. apply or_raise_ok in Emc.
    step_ok E as unwrapped Eunwrap. apply or_raise_ok in Eunwrap.
    destruct unwrapped as [codec key_bytes].
    step_ok E as u4 Ecodec.
    apply raise_if_ok, negb_false_iff, String.eqb_eq in Ecodec. subst codec.
    step_ok E as pk Epk. apply or_raise_ok in Epk.
    step_ok E as u5 Emem.
    step_ok E as value Evalue. apply or_raise_ok in Evalue.
    step_ok E as signature Esig. apply or_raise_ok in Esig.
    apply raise_if_ok, negb_false_iff in E.
    repeat split; try now apply eq_str_true.
    now exists m0, key_mc, key_bytes, pk, value, signature.
  - intros now unsigned sk challenge attached m key_mc key_bytes pk Esign Hmem
      -> -> Emc Eunwrap Epk Hlaws.
    unfold eddsa_sign in Esign.
    step_ok Esign as id Eid. step_ok Esign as id' Eid'.
    match type of Esign with
    | Ok (dict_set "proofValue" ?v ?o) = Ok _ =>
        set (options := o) in *; set (value := v) in *
    end.
    assert (Eproof : proof = dict_set "proofValue" value options)
      by (injection Esign; intro E0; symmetry; exact E0).
    subst proof. clear Esign.
    assert (Htype : dict_get "type" (dict_set "proofValue" value options)
                    = JStr "DataIntegrityProof") by reflexivity.
    assert (Hpurpose :
      dict_get "proofPurpose" (dict_set "proofValue" value options)
      = JStr "authentication") by reflexivity.
    assert (Hsuite :
      dict_get "cryptosuite" (dict_set "proofValue" value options)
      = JStr "eddsa-jcs-2022") by reflexivity.
    assert (Hvalue :
      dict_lookup "proofValue" (dict_set "proofValue" value options)
      = Some value) by reflexivity.
    assert (Hoptions :
      dict_del "proofValue" (dict_set "proofValue" value options) = options)
      by reflexivity.
    assert (Hinput :
      sig_input (dict_set "proof" attached unsigned)
        (dict_set "proofValue" value options)
      = (sha256 (canonicalize (JObj unsigned))
         ++ sha256 (canonicalize (JObj options)))%list).
    { unfold sig_input. now rewrite (dict_del_set _ _ _ Hmem), Hoptions. }
    subst value options.
    cbv zeta in Hlaws. rewrite Hinput in Hlaws.
    destruct Hlaws as [Hbase Hsig].
    split.
    + rewrite Hvalue, Hinput. reflexivity.
    + unfold verify_proof.
      rewrite Htype, Hpurpose, Hsuite, !eq_str_refl.
      cbn [negb raise_if bind].
      rewrite Emc. cbn [or_raise bind].
      rewrite Eunwrap. cbn [or_raise bind].
      rewrite String.eqb_refl. cbn [negb raise_if bind].
      rewrite Epk. cbn [or_raise bind].
      rewrite dict_mem_set. cbn [negb raise_if bind].
      rewrite Hvalue. cbn [or_raise bind].
      rewrite Hbase. cbn [or_raise bind].
      rewrite (dict_del_set _ _ _ Hmem), Hoptions.
      rewrite Hsig. reflexivity.
Qed.

End ManageFacts.

(** * Properties of [did_history/loader.py] *)

Set Warnings "-notation-for-abbreviation".

Section LoaderFacts.
Context `{Libs}.
Variable DocumentState : Type.
Variable datetime : Type.
Variable datetime_ltb : datetime -> datetime -> bool.
Variable version_id_of : DocumentState -> Z.
Variable timestamp_of : DocumentState -> datetime.
Variable load_history_line :
  json -> option DocumentState -> result DocumentState.
Variable check_version_hash : DocumentState -> result unit.
Variable verify_state : option (Loader.VerifyState DocumentState).

Import Loader.

Local Notation loop k t :=
  (Loader.loop DocumentState datetime datetime_ltb version_id_of timestamp_of
     load_history_line check_version_hash k t verify_state).
Local Notation iter_history k t :=
  (Loader.iter_history DocumentState datetime datetime_ltb version_id_of
     timestamp_of load_history_line check_version_hash k t verify_state).
Local Notation loads :=
  (Loader.loads DocumentState load_history_line).
Local Notation checks_pass :=
  (Loader.checks_pass DocumentState check_version_hash verify_state).
Local Notation vars := (Loader.vars DocumentState).

(** On an empty history the loop never sets [done]: whatever the cutoffs,
    the iteration neither yields nor ends. *)
Lemma loop_empty_history : forall k t fuel prev st,
  loop k t fuel
    {| prev_state := prev; state := st; next_state := None; history := [];
       done := false |} = ([], OutOfFuel).
Proof.
  intros k t. induction fuel as [|fuel IH]; intros prev st; [reflexivity |].
  cbn. rewrite IH. reflexivity.
Qed.

Lemma iter_history_empty : forall k t fuel,
  iter_history k t fuel [] = ([], OutOfFuel).
Proof.
  intros k t fuel. apply loop_empty_history.
Qed.

(** With a version_id cutoff that no state has and no time cutoff, the
    loop that holds a loaded state yields it and every state after it, and
    ends without an exception. *)
Lemma loop_cutoff_never_met : forall k rest s states prev st fuel,
  loads (Some s) rest states ->
  checks_pass (s :: states) ->
  (forall x, In x (s :: states) -> version_id_of x <> k) ->
  (List.length rest < fuel)%nat ->
  loop (Some k) None fuel
    {| prev_state := prev; state := st; next_state := Some s;
       history := rest; done := false |} = (s :: states, Finished).
Proof.
  intros k. induction rest as [|line rest IH];
    intros s states prev st fuel Hloads Hpass Hk Hfuel;
    (destruct fuel as [|fuel]; [simpl in Hfuel; lia |]);
    inversion Hloads; subst.
  - cbn [loop done]. unfold turn. cbn [next_state history done bind].
    destruct (Hpass s (or_introl eq_refl)) as [Ehash Hverify].
    replace (version_id_of s =? k) with false
      by (symmetry; apply Z.eqb_neq, Hk; now left).
    rewrite Ehash. cbn [orb bind prev_state].
    assert (Ehook :
      match verify_state with
      | Some f => f s prev true
      | None => Ok tt
      end = Ok tt).
    { destruct verify_state as [f |]; [now apply Hverify | reflexivity]. }
    rewrite Ehook. cbn [bind].
    destruct fuel; reflexivity.
  - cbn [loop done]. unfold turn. cbn [next_state history done].
    match goal with
    | E : json_loads line = Some _ |- _ => rewrite E
    end.
    cbn [or_raise bind].
    match goal with
    | E : load_history_line _ (Some s) = Ok _ |- _ => rewrite E
    end.
    cbn [bind].
    destruct (Hpass s (or_introl eq_refl)) as [Ehash Hverify].
    replace (version_id_of s =? k) with false
      by (symmetry; apply Z.eqb_neq, Hk; now left).
    rewrite Ehash. cbn [orb bind prev_state].
    assert (Ehook :
      match verify_state with
      | Some f => f s prev false
      | None => Ok tt
      end = Ok tt).
    { destruct verify_state as [f |]; [now apply Hverify | reflexivity]. }
    rewrite Ehook. cbn [bind].
    erewrite IH; [reflexivity | eassumption | | |].
    + intros x Hx. apply Hpass. now right.
    + intros x Hx. apply Hk. now right.
    + simpl in Hfuel. lia.
Qed.

(** C6, where the code departs from it: asked for a version_id that the
    history never reaches, with no time cutoff, [iter_history] yields every
    state of a non-empty history and ends without an exception, so the last
    state yielded is the last state of the history and the error for an
    unmet version_id cutoff is not raised. *)
Theorem version_cutoff_beyond_end : forall k history states fuel,
  history <> [] ->
  loads None history states ->
  checks_pass states ->
  (forall s, In s states -> version_id_of s <> k) ->
  (List.length history < fuel)%nat ->
  iter_history (Some k) None fuel history = (states, Finished).
Proof.
  intros k history states fuel Hne Hloads Hpass Hk Hfuel.
  destruct history as [|line rest]; [contradiction |].
  inversion Hloads; subst.
  destruct fuel as [|fuel]; [simpl in Hfuel; lia |].
  unfold Loader.iter_history, initial_vars.
  cbn [loop done]. unfold turn. cbn [next_state history done].
  match goal with
  | E : json_loads line = Some _ |- _ => rewrite E
  end.
  cbn [or_raise bind].
  match goal with
  | E : load_history_line _ None = Ok _ |- _ => rewrite E
  end.
  cbn [bind prev_state].
  erewrite loop_cutoff_never_met;
    [reflexivity | eassumption | assumption | assumption |].
  simpl in Hfuel. lia.
Qed.

(** What the code does for a cutoff that the history meets. *)

(** One turn of the loop on a loaded state [s]: it yields [s] when the
    checks pass. *)
Lemma turn_yields : forall k t prev st s rest next rest' late,
  match rest with
  | [] => next = None /\ rest' = [] /\ late = false
  | line :: more =>
      exists parts s',
        json_loads line = Some parts
        /\ load_history_line parts (Some s) = Ok s'
        /\ next = Some s' /\ rest' = more
        /\ late = match t with
                  | Some T => datetime_ltb T (timestamp_of s')
                  | None => false
                  end
  end ->
  checks_pass [s] ->
  Loader.turn DocumentState datetime datetime_ltb version_id_of timestamp_of
    load_history_line check_version_hash k t verify_state
    {| prev_state := prev; state := st; next_state := Some s;
       history := rest; done := false |}
  = Ok (Some s,
        {| prev_state := Some s; state := Some s; next_state := next;
           history := rest';
           done :=
             if match k with
                | Some n => version_id_of s =? n
                | None => false
                end
                || match next with Some _ => false | None => true end
             then true
             else if late then true else false |}).
Proof.
  intros k t prev st s rest next rest' late Hread Hpass.
  destruct (Hpass s (or_introl eq_refl)) as [Ehash Hverify].
  assert (Ehook : forall finished,
    match verify_state with
    | Some f => f s prev finished
    | None => Ok tt
    end = Ok tt).
  { intro finished.
    destruct verify_state as [f |]; [now apply Hverify | reflexivity]. }
  unfold turn. cbn [next_state history done prev_state].
  destruct rest as [|line more].
  - destruct Hread as (-> & -> & ->). cbn [bind].
    rewrite Ehash. cbn [bind]. rewrite Ehook. reflexivity.
  - destruct Hread as (parts & s' & Eparse & Eload & -> & -> & ->).
    rewrite Eparse. cbn [or_raise bind]. rewrite Eload. cbn [bind].
    rewrite Ehash. cbn [bind]. rewrite Ehook. reflexivity.
Qed.

(** With the version_id cutoff [k] and no time cutoff, the loop yields
    the states up to the first one of version [k] and ends there. *)
Lemma loop_version_cutoff : forall k before rest s states x after prev st fuel,
  loads (Some s) rest states ->
  (s :: states = before ++ x :: after)%list ->
  (forall y, In y before -> version_id_of y <> k) ->
  version_id_of x = k ->
  checks_pass (before ++ [x]) ->
  (List.length rest < fuel)%nat ->
  loop (Some k) None fuel
    {| prev_state := prev; state := st; next_state := Some s;
       history := rest; done := false |} = ((before ++ [x])%list, Finished).
Proof.
  intros k. induction before as [|b before IH];
    intros rest s states x after prev st fuel Hloads Esplit Hbefore Hx Hpass
      Hfuel;
    (destruct fuel as [|fuel]; [simpl in Hfuel; lia |]);
    injection Esplit as <- ->; cbn [loop done].
  - inversion Hloads as [| ? line parts s' more states' Eparse Eload Hmore];
      subst.
    + erewrite turn_yields with (late := false) (next := None);
        [| now repeat split | exact Hpass].
      rewrite Z.eqb_refl. cbn [orb]. destruct fuel; reflexivity.
    + erewrite turn_yields with (late := false) (next := Some s');
        [| | exact Hpass].
      * rewrite Z.eqb_refl. cbn [orb]. destruct fuel; reflexivity.
      * eexists _, _. repeat split; eassumption.
  - inversion Hloads as [| ? line parts s' more states' Eparse Eload Hmore];
      subst.
    + now destruct before.
    + erewrite turn_yields with (late := false) (next := Some s').
      * replace (version_id_of s =? version_id_of x) with false
          by (symmetry; apply Z.eqb_neq, Hbefore; now left).
        cbn [orb].
        erewrite IH;
          [reflexivity | exact Hmore | eassumption | | reflexivity | |].
        -- intros y Hy. apply Hbefore. now right.
        -- intros y Hy. apply Hpass. now right.
        -- simpl in Hfuel. lia.
      * eexists _, _. repeat split; eassumption.
      * intros y [<- | []]. apply Hpass. now left.
Qed.

(** C6, for a version_id cutoff that the history reaches: the last state
    yielded is the first state of that version. *)
Lemma version_cutoff_met : forall k history before x after fuel,
  loads None history (before ++ x :: after)%list ->
  (forall y, In y before -> version_id_of y <> k) ->
  version_id_of x = k ->
  checks_pass (before ++ [x]) ->
  (List.length history < fuel)%nat ->
  iter_history (Some k) None fuel history = ((before ++ [x])%list, Finished).
Proof.
  intros k history before x after fuel Hloads Hbefore Hx Hpass Hfuel.
  inversion Hloads as [| ? line parts s rest states Eparse Eload Hrest Ehist
                         Estates];
    subst; [now destruct before |].
  destruct fuel as [|fuel]; [simpl in Hfuel; lia |].
  unfold Loader.iter_history, initial_vars.
  cbn [loop done]. unfold turn. cbn [next_state history done].
  rewrite Eparse. cbn [or_raise bind]. rewrite Eload. cbn [bind prev_state].
  erewrite loop_version_cutoff;
    [reflexivity | exact Hrest | eassumption | assumption | reflexivity
     | assumption |].
  simpl in Hfuel. lia.
Qed.

(** With the time cutoff [T] and no version_id cutoff, the loop yields
    the states before the first one dated after [T] and ends there. *)
Lemma loop_time_cutoff : forall T before rest s states after prev st fuel,
  loads (Some s) rest states ->
  (s :: states = s :: before ++ after)%list ->
  (forall y, In y before -> datetime_ltb T (timestamp_of y) = false) ->
  match after with
  | [] => True
  | y :: _ => datetime_ltb T (timestamp_of y) = true
  end ->
  checks_pass (s :: before) ->
  (List.length rest < fuel)%nat ->
  loop None (Some T) fuel
    {| prev_state := prev; state := st; next_state := Some s;
       history := rest; done := false |} = (s :: before, Finished).
Proof.
  intros T. induction before as [|b before IH];
    intros rest s states after prev st fuel Hloads Esplit Hbefore Hafter Hpass
      Hfuel;
    (destruct fuel as [|fuel]; [simpl in Hfuel; lia |]);
    injection Esplit as ->; cbn [loop done].
  - inversion Hloads as [| ? line parts s' more states' Eparse Eload Hmore];
      subst.
    + erewrite turn_yields with (late := false) (next := None);
        [| now repeat split | exact Hpass].
      cbn [orb]. destruct fuel; reflexivity.
    + erewrite turn_yields with (late := true) (next := Some s');
        [| | exact Hpass].
      * cbn [orb]. destruct fuel; reflexivity.
      * eexists _, _. repeat split; try eassumption.
        symmetry. exact Hafter.
  - inversion Hloads as [| ? line parts s' more states' Eparse Eload Hmore];
      subst.
    erewrite turn_yields with (late := false) (next := Some b).
    + cbn [orb].
      erewrite IH; [reflexivity | exact Hmore | reflexivity | | exact Hafter
                    | |].
      * intros y Hy. apply Hbefore. now right.
      * intros y Hy. apply Hpass. now right.
      * simpl in Hfuel. lia.
    + eexists _, _. repeat split; try eassumption.
      symmetry. apply Hbefore. now left.
    + intros y [<- | []]. apply Hpass. now left.
Qed.

(** C6, for a time cutoff: the states yielded are those before the first
    state dated after the cutoff, so the last one is the latest state
    dated at or before it, the timestamps being in order; when the first
    state is already dated after the cutoff the iteration fails with the
    error of the time cutoff. *)
Lemma time_cutoff : forall T history before after fuel,
  loads None history (before ++ after)%list ->
  (forall y, In y before -> datetime_ltb T (timestamp_of y) = false) ->
  match after with
  | [] => True
  | y :: _ => datetime_ltb T (timestamp_of y) = true
  end ->
  checks_pass before ->
  history <> [] ->
  (List.length history < fuel)%nat ->
  iter_history None (Some T) fuel history =
    (before,
     match before with
     | [] => Raised (ValueError "Cannot resolve versionTime")
     | _ :: _ => Finished
     end).
Proof.
  intros T history before after fuel Hloads Hbefore Hafter Hpass Hne Hfuel.
  remember (before ++ after)%list as all eqn:Eall.
  inversion Hloads as [| ? line parts s rest states Eparse Eload Hrest];
    subst; [contradiction |].
  match goal with
  | E : (_ :: _ = before ++ after)%list |- _ => rename E into Eall
  end.
  destruct fuel as [|fuel]; [simpl in Hfuel; lia |].
  unfold Loader.iter_history, initial_vars.
  cbn [loop done]. unfold turn. cbn [next_state history done].
  rewrite Eparse. cbn [or_raise bind]. rewrite Eload. cbn [bind prev_state].
  destruct before as [|b before].
  - simpl in Eall. subst after. rewrite Hafter.
    destruct fuel; reflexivity.
  - injection Eall as <- ->.
    rewrite (Hbefore s (or_introl eq_refl)).
    erewrite loop_time_cutoff;
      [reflexivity | exact Hrest | reflexivity | | exact Hafter | exact Hpass
       |].
    + intros y Hy. apply Hbefore. now right.
    + simpl in Hfuel. lia.
Qed.

End LoaderFacts.

(** * The properties on the sample data

    The code runs here on the reference implementations of the
    libraries. *)

#[local] Existing Instance ref_libs.

(** Closes a goal made of equations between closed terms by running both
    sides. *)
Ltac run :=
  repeat match goal with
         | |- _ /\ _ => split
         end;
  vm_compute; reflexivity.

(** Replaces a closed term of the goal by its value. *)
Ltac value_of t :=
  let v := eval vm_compute in t in
  replace t with v by (vm_compute; reflexivity).

(** C1 on the samples: [log_plain] is chained from the seed, and
    [log_tampered] ends at its second entry with the hash-mismatch error. *)
Lemma hash_chain_enforced_witness :
  Spec.chained (Spec.seed_hash) (tl Sample.log_plain)
  /\ snd (Sample.load_log Sample.log_tampered true true)
     = Some (RuntimeError "Invalid log: hash mismatch").
Proof.
  split.
  - apply (proj1 (@hash_chain_enforced ref_libs Sample.header
                    (tl Sample.log_plain) true)
             (fst (Sample.load_log Sample.log_plain true true))).
    vm_compute. reflexivity.
  - change (Sample.load_log Sample.log_tampered true true)
      with (Manage.load_log
              (Sample.header :: tl Sample.log_tampered) true true).
    erewrite (proj2 (@hash_chain_enforced ref_libs Sample.header
                       (tl Sample.log_tampered) true))
      with (pre := [Sample.entry Sample.hash_com1 1 Sample.time1
                      (Sample.inception Sample.doc_com) (JArr [])])
           (post := []).
    + reflexivity.
    + reflexivity.
    + vm_compute. reflexivity.
    + vm_compute. reflexivity.
    + intro E. vm_compute in E. discriminate E.
    + vm_compute. reflexivity.
    + vm_compute. reflexivity.
    + vm_compute. intro E. discriminate E.
Defined.

(** C2 on the samples, where the code departs from it: with signature
    verification on, [log_plain], whose entries carry no proof in their
    fifth element and none in their documents, is accepted, and so is
    [log_forged], whose entries carry a proof that is no signature. *)
Theorem missing_and_forged_proofs_accepted :
  Spec.recorded 4 (tl Sample.log_plain) = [JArr []; JArr []]
  /\ map (Spec.document_proofs)
       (map Manage.it_doc (fst (Sample.load_log Sample.log_plain true true)))
     = [[]; []]
  /\ snd (Sample.load_log Sample.log_plain true true) = None
  /\ Spec.recorded 4 (tl Sample.log_forged)
     = [JArr [Sample.forged_proof]; JArr [Sample.forged_proof]]
  /\ Sample.load_log Sample.log_forged true true
     = Sample.load_log Sample.log_plain true true.
Proof. run. Qed.

(** C3 on the samples, where the code departs from it: the authentication
    keys of the first version of [log_foreign_proofs] hold [key1] alone,
    the proofs of both of its entries name [key2], which that key set does
    not hold, and with signature verification on the log is accepted and
    both versions are yielded: the proofs of an entry are matched against
    no key set, neither the one of its own document at entry 1 nor the
    one of the entry before afterwards. *)
Theorem entry_proofs_matched_to_no_keys :
  Spec.document_auth_keys (JObj Sample.members_org)
  = Ok [(Sample.did_org ++ "#key1", Sample.method_org)]
  /\ Spec.recorded 4 (tl Sample.log_foreign_proofs)
     = [JArr [Sample.proof_org (Sample.did_org ++ "#key2")];
        JArr [Sample.proof_org (Sample.did_org ++ "#key2")]]
  /\ Py.dict_get "verificationMethod"
       (Sample.proof_members (Sample.did_org ++ "#key2"))
     = JStr (Sample.did_org ++ "#key2")
  /\ Py.dict_lookup (Sample.did_org ++ "#key2")
       [(Sample.did_org ++ "#key1", Sample.method_org)]
     = None
  /\ map Spec.document_auth_keys
       (map Manage.it_doc
          (fst (Sample.load_log Sample.log_foreign_proofs true true)))
     = [Ok [(Sample.did_org ++ "#key1", Sample.method_org)];
        Ok [(Sample.did_org ++ "#key1", Sample.method_org)]]
  /\ map Manage.it_index
       (fst (Sample.load_log Sample.log_foreign_proofs true true))
     = [1; 2]
  /\ snd (Sample.load_log Sample.log_foreign_proofs true true) = None.
Proof. run. Qed.

(** The proofs of the documents on the samples: the proof in the second
    version of [log_signed] is verified against the keys of the first
    version, and [log_unknown_method], whose second document holds a proof
    that names a key the first version does not have, ends at its second
    entry. *)
Lemma proofs_checked_against_prior_keys_witness :
  (exists keys,
     Spec.document_auth_keys (JObj Sample.members_org) = Ok keys
     /\ Forall
          (Spec.proof_verified keys
             (Sample.doc_org2 (Sample.proof_org (Sample.did_org ++ "#key1"))))
          [Sample.proof_org (Sample.did_org ++ "#key1")])
  /\ exists e,
       snd (Sample.load_log Sample.log_unknown_method false true) = Some e.
Proof.
  split.
  - value_of (JObj Sample.members_org).
    value_of (Sample.proof_org (Sample.did_org ++ "#key1")).
    value_of (Sample.doc_org2 (Sample.proof_org (Sample.did_org ++ "#key1"))).
    let header := eval vm_compute in Sample.header in
    let lines := eval vm_compute in (tl Sample.log_signed) in
    let items :=
      eval vm_compute in (fst (Sample.load_log Sample.log_signed true true)) in
    match items with
    | [?i1; ?i2] =>
        assert (Erun : Manage.load_log (header :: lines) true true
                       = (items, None)) by (vm_compute; reflexivity);
        destruct (proj1 (@proofs_checked_against_prior_keys ref_libs header
                           lines true)
                    items None [i1] i2 [] Erun eq_refl)
          as (keys & Ekeys & Hall)
    end.
    exists keys. split; [exact Ekeys | exact Hall].
  - value_of (Sample.load_log Sample.log_unknown_method false true).
    let header := eval vm_compute in Sample.header in
    let e1 := eval vm_compute in Sample.entry_org1 in
    let e2 :=
      eval vm_compute in
        (Sample.entry_org2 (Sample.proof_org (Sample.did_org ++ "#key2"))) in
    let pf :=
      eval vm_compute in (Sample.proof_org (Sample.did_org ++ "#key2")) in
    edestruct (proj2 (@proofs_checked_against_prior_keys ref_libs header
                        [e1; e2] false))
      with (pre := [e1]) (line := e2) (post := @nil string)
           (proof := pf)
      as (e & Ee).
    + reflexivity.
    + vm_compute. reflexivity.
    + vm_compute. reflexivity.
    + discriminate.
    + vm_compute. reflexivity.
    + vm_compute. reflexivity.
    + vm_compute. reflexivity.
    + vm_compute. left. reflexivity.
    + vm_compute. do 4 eexists. repeat split.
    + vm_compute in Ee. eexists. reflexivity.
Defined.

(** C4 fails for an id whose final segment starts with a digit other than
    1: the id has four colon segments and starts with [did], and the
    derivation refuses the version. *)
Lemma scid_version_refused :
  Py.split ":" "did:webnext:example.com:2abc"
  = ["did"; "webnext"; "example.com"; "2abc"]
  /\ Sample.update_scid Sample.doc_version2 None
     = Raise (RuntimeError "Only SCID version 1 is supported").
Proof. run. Qed.

(** C4 on the samples: the SCID of [genesis_com] has 24 characters and
    the derivation returns the id and the document that hold it; for
    [doc_backslash], whose id ends in a backslash, the text with the id
    replaced is not JSON and the derivation raises; for [doc_quote], whose
    id holds a double quote, the id does not occur in the text of
    [json.dumps] as it is, and the document returned keeps it. *)
Lemma scid_derivation_witness :
  (String.length "ff4c2yf5ga75mjnl3ww3vo5u" = 24%nat
   /\ Sample.update_scid Sample.genesis_com None
      = Ok ("did:webnext:example.com:ff4c2yf5ga75mjnl3ww3vo5u",
            Sample.doc_com))
  /\ Sample.update_scid Sample.doc_backslash None = Raise JSONDecodeError
  /\ Sample.update_scid Sample.doc_quote None
     = Ok ("did:webnext:example.com:gm26da4ojv62u6nn3myufw7n",
           Sample.doc_quote).
Proof.
  split; [| split].
  - assert (Eid : Py.dict_get "id"
                    [("id", JStr "did:webnext:example.com:{{SCID}}")]
                  = JStr "did:webnext:example.com:{{SCID}}") by reflexivity.
    destruct (proj1 (proj1 (@scid_derivation ref_libs
                              [("id",
                                JStr "did:webnext:example.com:{{SCID}}")]
                              None) _ Eid))
      with (scid := "ff4c2yf5ga75mjnl3ww3vo5u") as (Hlen & Hrun & _).
    + reflexivity.
    + vm_compute. lia.
    + reflexivity.
    + exact ref_sha256_length.
    + vm_compute. reflexivity.
    + split; [exact Hlen |].
      unfold Sample.update_scid, Sample.genesis_com.
      apply Hrun. vm_compute. reflexivity.
  - assert (Eid : Py.dict_get "id" [("id", JStr Sample.id_backslash)]
                  = JStr Sample.id_backslash) by reflexivity.
    destruct (proj1 (proj1 (@scid_derivation ref_libs
                              [("id", JStr Sample.id_backslash)] None)
                       _ Eid))
      with (scid := "3y3k2qvo5x6zdfbexpobcik6") as (_ & _ & Hrun).
    + vm_compute. reflexivity.
    + vm_compute. lia.
    + vm_compute. reflexivity.
    + exact ref_sha256_length.
    + vm_compute. reflexivity.
    + unfold Sample.update_scid, Sample.doc_backslash.
      apply Hrun. vm_compute. reflexivity.
  - assert (Eid : Py.dict_get "id" [("id", JStr Sample.id_quote)]
                  = JStr Sample.id_quote) by reflexivity.
    destruct (proj1 (proj1 (@scid_derivation ref_libs
                              [("id", JStr Sample.id_quote)] None)
                       _ Eid))
      with (scid := "gm26da4ojv62u6nn3myufw7n") as (_ & Hrun & _).
    + vm_compute. reflexivity.
    + vm_compute. lia.
    + vm_compute. reflexivity.
    + exact ref_sha256_length.
    + vm_compute. reflexivity.
    + unfold Sample.update_scid, Sample.doc_quote.
      rewrite (Hrun (JObj [("id", JStr Sample.id_quote)])).
      * vm_compute. reflexivity.
      * vm_compute. reflexivity.
Defined.

(** C5 on the samples, where the code departs from it: the SCID derived for
    [genesis_net] starts with the digit 7, so running the derivation again
    on the result reads it as version 7 and fails, and so does the reader on
    the log of that document. *)
Theorem scid_rederivation_fails :
  Sample.update_scid Sample.genesis_net None
  = Ok ("did:webnext:example.net:7bqbmxce347zrn2ut2e46i7i",
        Sample.derived_net)
  /\ Sample.update_scid Sample.derived_net None
     = Raise (RuntimeError "Only SCID version 1 is supported")
  /\ Sample.load_log Sample.log_net true false
     = ([], Some (RuntimeError "Only SCID version 1 is supported")).
Proof. run. Qed.

(** C6 on the samples: asked for version 3 of the two versions of
    [log_plain], the iteration yields versions 1 and 2 and ends without an
    exception. *)
Lemma version_cutoff_beyond_end_witness :
  map Sample.version_id
    (fst (Sample.iter_history (Some 3) None 3 (tl Sample.log_plain)))
  = [1; 2]
  /\ snd (Sample.iter_history (Some 3) None 3 (tl Sample.log_plain))
     = Loader.Finished.
Proof.
  value_of (tl Sample.log_plain).
  match goal with
  | |- context [Sample.iter_history _ _ _ ?history] =>
      let states :=
        eval vm_compute in
          (fst (Sample.iter_history (Some 3) None 3 history)) in
      assert (Erun : Sample.iter_history (Some 3) None 3 history
                     = (states, Loader.Finished))
  end.
  { unfold Sample.iter_history.
    apply (@version_cutoff_beyond_end ref_libs).
    - discriminate.
    - eapply Loader.loads_cons;
        [vm_compute; reflexivity | vm_compute; reflexivity |].
      eapply Loader.loads_cons;
        [vm_compute; reflexivity | vm_compute; reflexivity |].
      apply Loader.loads_nil.
    - intros s [<- | [<- | []]];
        (split; [vm_compute; reflexivity | discriminate]).
    - intros s [<- | [<- | []]]; vm_compute; discriminate.
    - vm_compute. lia. }
  rewrite Erun. split; reflexivity.
Defined.

(** C7 fails on [log_versions]: it is accepted with hash and signature
    verification on, and its entries record the version_ids 7 and 3. *)
Lemma version_ids_unchecked :
  snd (Sample.load_log Sample.log_versions true true) = None
  /\ Spec.recorded 1 (tl Sample.log_versions) = [JInt 7; JInt 3].
Proof. run. Qed.

(** C7, as the code has it, on the samples: the entries of [log_versions]
    are yielded with the numbers 1 and 2, [log_renumbered] is traversed
    as [log_plain] when hashes are not verified, and the first entry of
    [log_plain] is accepted with the version_id 7 and the hash recomputed
    for it. *)
Lemma index_counts_entries_witness :
  map Manage.it_index (fst (Sample.load_log Sample.log_versions true true))
  = [1; 2]
  /\ Sample.load_log Sample.log_plain false true
     = Sample.load_log Sample.log_renumbered false true
  /\ exists it st,
       Manage.load_entry true true
         (Manage.initial_state (Spec.seed_hash))
         (JArr [JStr "zQmZr9pCiEUSdpFwzmmYhhoxydVzgy2RF5PZkUG99ADPK69";
                JInt 7; JStr Sample.time1; Sample.inception Sample.doc_com;
                JArr []])
       = Ok (it, st)
       /\ Manage.it_index it = 1 /\ Manage.it_doc it = Sample.doc_com.
Proof.
  destruct (@index_counts_entries ref_libs Sample.header
              (tl Sample.log_plain) (tl Sample.log_renumbered) true true)
    as (_ & Hsame & Hrehash).
  destruct (@index_counts_entries ref_libs Sample.header
              (tl Sample.log_versions) [] true true)
    as (Hcount & _).
  split; [| split].
  - exact (Hcount (fst (Sample.load_log Sample.log_versions true true)) None
             ltac:(vm_compute; reflexivity)).
  - apply Hsame.
    repeat (constructor;
            [eapply Spec.version_id_other;
             [ intro E; vm_compute in E; discriminate E
             | intro E; vm_compute in E; discriminate E
             | vm_compute; reflexivity
             | vm_compute; reflexivity ] |]).
    constructor.
  - edestruct (Hrehash
                 (Manage.initial_state (Spec.seed_hash))
                 (JStr Sample.hash_com1) (JInt 1) (JStr Sample.time1)
                 (Sample.inception Sample.doc_com) (JArr []))
      with (v' := JInt 7) as (it & st & Erun & Hindex & Hdoc).
    + vm_compute. reflexivity.
    + exists it, st. split; [exact Erun | split].
      * rewrite Hindex. reflexivity.
      * rewrite Hdoc. reflexivity.
Defined.

(** C8 fails on [log_backwards]: it is accepted with hash and signature
    verification on, and its second entry is dated before its first. *)
Lemma timestamps_unchecked :
  snd (Sample.load_log Sample.log_backwards true true) = None
  /\ Spec.recorded 2 (tl Sample.log_backwards)
     = [JStr Sample.time1; JStr Sample.time0]
  /\ String.ltb Sample.time0 Sample.time1 = true.
Proof. run. Qed.

(** C8, as the code has it, on the samples: [log_redated] is traversed as
    [log_plain] when hashes are not verified, and the second entry of
    [log_plain] is accepted with a timestamp before the first and the hash
    recomputed for it. *)
Lemma timestamps_only_hashed_witness :
  Sample.load_log Sample.log_plain false true
  = Sample.load_log Sample.log_redated false true
  /\ snd (Sample.load_log Sample.log_backwards true true) = None.
Proof.
  destruct (@timestamps_only_hashed ref_libs Sample.header
              (tl Sample.log_plain) (tl Sample.log_redated) true true)
    as (Hsame & Hrehash).
  split.
  - apply Hsame.
    repeat (constructor;
            [eapply Spec.timestamp_other;
             [ intro E; vm_compute in E; discriminate E
             | intro E; vm_compute in E; discriminate E
             | vm_compute; reflexivity
             | vm_compute; reflexivity ] |]).
    constructor.
  - vm_compute. reflexivity.
Defined.

(** C9 on the samples: the proof that [eddsa_sign] makes for the second
    version of the sample document verifies, attached to it, against the
    method that holds the key. *)
Lemma proof_verification_witness :
  Manage.eddsa_sign Sample.time2 Sample.members_org2 Sample.sk
    "sample challenge"
  = Ok (Sample.proof_members (Sample.did_org ++ "#key1"))
  /\ Manage.verify_proof
       (Py.dict_set "proof" (Sample.proof_org (Sample.did_org ++ "#key1"))
          Sample.members_org2)
       (Sample.proof_members (Sample.did_org ++ "#key1"))
       Sample.method_org
     = Ok tt.
Proof.
  assert (Esign :
    Manage.eddsa_sign Sample.time2 Sample.members_org2 Sample.sk
      "sample challenge"
    = Ok (Sample.proof_members (Sample.did_org ++ "#key1")))
    by (vm_compute; reflexivity).
  split; [exact Esign |].
  eapply (proj2 (@proof_verification ref_libs _ _ _)).
  - exact Esign.
  - vm_compute. reflexivity.
  - reflexivity.
  - reflexivity.
  - vm_compute. reflexivity.
  - vm_compute. reflexivity.
  - vm_compute. reflexivity.
  - split; vm_compute; reflexivity.
Defined.

(** C10 fails on [log_controller]: its entry is structurally valid and
    hash-consistent, and the reader refuses it without signature
    verification, for the shape of its controller member. *)
Lemma controller_checked_without_signatures :
  Spec.valid_history false true 1 JNull Spec.seed_hash None
    (tl Sample.log_controller)
  /\ Sample.load_log Sample.log_controller true false
     = ([], Some (RuntimeError "Invalid log: invalid controllers")).
Proof.
  split; [| run].
  value_of (tl Sample.log_controller).
  cbn [Spec.valid_history String.eqb].
  do 7 eexists.
  split; [vm_compute; reflexivity |].
  split; [vm_compute; reflexivity |].
  split; [intros _; vm_compute; reflexivity |].
  split; [vm_compute; reflexivity |].
  split; [cbn [Z.eqb Pos.eqb]; eexists; vm_compute; reflexivity |].
  split; [discriminate | exact I].
Qed.

(** C10, as the code has it, on the samples: [log_forged], accepted
    without signature verification, has a valid header and is a valid
    history with accepted controller members. *)
Lemma unsigned_traversal_witness :
  Manage.load_header Sample.header = Ok Spec.seed_hash
  /\ Spec.valid_history true true 1 JNull Spec.seed_hash None
       (tl Sample.log_forged).
Proof.
  apply (proj2 (@unsigned_traversal ref_libs Sample.header
                  (tl Sample.log_forged) true)).
  eexists. split; vm_compute; reflexivity.
Defined.

(** * Further properties of [python/manage.py] *)

(** ** Dictionaries *)

Lemma dict_mem_lookup : forall k d,
  Py.dict_mem k d = match Py.dict_lookup k d with
                    | Some _ => true
                    | None => false
                    end.
Proof.
  intros k d. induction d as [|[k' w] d IH]; simpl; [reflexivity |].
  destruct (String.eqb k' k); [reflexivity | exact IH].
Qed.

Lemma dict_lookup_set_same : forall k v d,
  Py.dict_lookup k (Py.dict_set k v d) = Some v.
Proof.
  intros k v d. induction d as [|[k' w] d IH]; simpl.
  - now rewrite String.eqb_refl.
  - destruct (String.eqb k' k) eqn:E; simpl; rewrite E; [reflexivity | exact IH].
Qed.

Lemma dict_lookup_set_other : forall k k' v d,
  k <> k' -> Py.dict_lookup k (Py.dict_set k' v d) = Py.dict_lookup k d.
Proof.
  intros k k' v d Hne. induction d as [|[k0 w] d IH]; simpl.
  - destruct (String.eqb_spec k' k); [congruence | reflexivity].
  - destruct (String.eqb_spec k0 k') as [-> | Hk0]; simpl.
    + destruct (String.eqb_spec k' k); [congruence | reflexivity].
    + destruct (String.eqb k0 k); [reflexivity | exact IH].
Qed.

Section ReaderFacts.
Context `{Libs}.
Import Py Manage Spec Reading.

(** ** Verification methods and authentication keys *)

Lemma parse_verification_method_ok : forall method doc_id method_dict id updated,
  parse_verification_method method doc_id method_dict = Ok (id, updated) ->
  method_key doc_id method = Some id
  /\ dict_lookup id method_dict = None
  /\ updated = dict_set id method method_dict.
Proof.
  intros method doc_id method_dict id updated E.
  unfold parse_verification_method in E. unfold method_key.
  destruct method as [| | | | | m]; try discriminate.
  destruct (dict_get "id" m) as [| | | raw | |]; try discriminate.
  step_ok E as u Emem. apply raise_if_ok in Emem.
  injection E as <- <-.
  rewrite dict_mem_lookup in Emem.
  destruct (dict_lookup _ method_dict); [discriminate |].
  repeat split.
Qed.

(** X6: [parse_verification_method] files the method under its identifier,
    a leading [#] standing for the DID: the identifier was free before the
    call, holds the method after it, and every other identifier holds what
    it held; a method whose identifier is taken is refused as a
    duplicate. *)
Theorem parse_verification_method_registers : forall method doc_id method_dict,
  (forall id updated,
     parse_verification_method method doc_id method_dict = Ok (id, updated) ->
     method_key doc_id method = Some id
     /\ dict_lookup id method_dict = None
     /\ dict_lookup id updated = Some method
     /\ forall k, k <> id -> dict_lookup k updated = dict_lookup k method_dict)
  /\
  (forall id,
     method_key doc_id method = Some id ->
     dict_lookup id method_dict <> None ->
     parse_verification_method method doc_id method_dict =
       Raise (RuntimeError "Invalid log: duplicate verification method ID")).
Proof.
  intros method doc_id method_dict. split.
  - intros id updated E.
    apply parse_verification_method_ok in E. destruct E as (Hkey & Hfree & ->).
    repeat split; try assumption.
    + apply dict_lookup_set_same.
    + intros k Hk. now apply dict_lookup_set_other.
  - intros id Hkey Htaken.
    unfold method_key in Hkey. unfold parse_verification_method.
    destruct method as [| | | | | m]; try discriminate.
    destruct (dict_get "id" m) as [| | | raw | |]; try discriminate.
    injection Hkey as Hkey. rewrite Hkey.
    rewrite dict_mem_lookup.
    destruct (dict_lookup id method_dict); [reflexivity | contradiction].
Qed.

Lemma filed_set : forall doc_id sources methods id method,
  filed doc_id sources methods ->
  In method sources ->
  method_key doc_id method = Some id ->
  filed doc_id sources (dict_set id method methods).
Proof.
  intros doc_id sources methods id method Hfiled Hin Hkey k v E.
  destruct (String.eqb_spec k id) as [-> | Hne].
  - rewrite dict_lookup_set_same in E. injection E as <-. now split.
  - rewrite dict_lookup_set_other in E by exact Hne. now apply Hfiled.
Qed.

Lemma methods_filed : forall doc_id sources vmethods methods methods',
  (forall x, In x vmethods -> In x sources) ->
  filed doc_id sources methods ->
  for_each vmethods
    (fun method vm_dict =>
       '(_, d) <- parse_verification_method method doc_id vm_dict ;; Ok d)
    methods = Ok methods' ->
  filed doc_id sources methods'.
Proof.
  intros doc_id sources.
  induction vmethods as [|method rest IH]; intros methods methods' Hsub Hfiled E.
  - simpl in E. now injection E as <-.
  - simpl in E. step_ok E as next Enext.
    step_ok Enext as parsed Eparsed. destruct parsed as [id updated].
    injection Enext as <-.
    apply parse_verification_method_ok in Eparsed.
    destruct Eparsed as (Hkey & _ & ->).
    eapply IH; [| | exact E].
    + intros x Hx. apply Hsub. now right.
    + apply filed_set; [exact Hfiled | apply Hsub; now left | exact Hkey].
Qed.

(** One turn of the loop over the authentication members keeps the
    methods filed and the keys among them. *)
Lemma parse_auth_filed : forall doc_id sources auth vm keys vm' keys',
  In auth sources ->
  filed doc_id sources vm ->
  (forall k v, dict_lookup k keys = Some v -> dict_lookup k vm = Some v) ->
  parse_auth doc_id auth (vm, keys) = Ok (vm', keys') ->
  filed doc_id sources vm'
  /\ (forall k v, dict_lookup k keys' = Some v -> dict_lookup k vm' = Some v).
Proof.
  intros doc_id sources auth vm keys vm' keys' Hin Hfiled Hsub E.
  unfold parse_auth in E.
  step_ok E as named Enamed. destruct named as [a vm1].
  step_ok E as v Ev. apply or_raise_ok in Ev.
  injection E as <- <-.
  assert (Hvm : filed doc_id sources vm1
                /\ forall k w, dict_lookup k keys = Some w ->
                               dict_lookup k vm1 = Some w).
  { destruct auth as [| | | s | l | m]; try discriminate.
    - step_ok Enamed as u1 E1. step_ok Enamed as u2 E2.
      injection Enamed as _ <-. now split.
    - apply parse_verification_method_ok in Enamed.
      destruct Enamed as (Hkey & Hfree & ->). split.
      + now apply filed_set.
      + intros k w Ek. rewrite dict_lookup_set_other; [now apply Hsub |].
        intros ->. apply Hsub in Ek. congruence. }
  destruct Hvm as [Hfiled1 Hsub1]. split; [exact Hfiled1 |].
  intros k w Ek.
  destruct (String.eqb_spec k a) as [-> | Hne].
  - rewrite dict_lookup_set_same in Ek. congruence.
  - rewrite dict_lookup_set_other in Ek by exact Hne. now apply Hsub1.
Qed.

Lemma auths_filed : forall doc_id sources auths vm keys vm' keys',
  (forall x, In x auths -> In x sources) ->
  filed doc_id sources vm ->
  (forall k v, dict_lookup k keys = Some v -> dict_lookup k vm = Some v) ->
  for_each auths (parse_auth doc_id) (vm, keys) = Ok (vm', keys') ->
  filed doc_id sources keys'.
Proof.
  intros doc_id sources.
  induction auths as [|auth rest IH]; intros vm keys vm' keys' Hin Hfiled Hsub E.
  - simpl in E. injection E as <- <-.
    intros k v Ek. apply Hfiled. now apply Hsub.
  - simpl in E. step_ok E as next Enext. destruct next as [vm1 keys1].
    destruct (parse_auth_filed _ _ _ _ _ _ _ (Hin _ (or_introl eq_refl))
                Hfiled Hsub Enext) as [Hfiled1 Hsub1].
    eapply IH; [| exact Hfiled1 | exact Hsub1 | exact E].
    intros x Hx. apply Hin. now right.
Qed.

(** X5: every authentication key that [load_log] derives from a document is
    one of the members of its verificationMethod or authentication lists,
    an object, filed under its own identifier with a leading [#] resolved
    against the DID; so a proof is never verified against anything but a
    method object of the document. *)
Theorem auth_keys_are_methods : forall document doc_id keys,
  auth_keys_of document doc_id = Ok keys ->
  exists vmethods auths,
    dict_get_default "verificationMethod" (JArr []) document = JArr vmethods
    /\ dict_get_default "authentication" (JArr []) document = JArr auths
    /\ forall k v,
         dict_lookup k keys = Some v ->
         In v (vmethods ++ auths)%list
         /\ exists m raw,
              v = JObj m /\ dict_get "id" m = JStr raw
              /\ k = resolve doc_id raw.
Proof.
  intros document doc_id keys E. unfold auth_keys_of in E.
  step_ok E as vmethods Evm.
  destruct (dict_get_default "verificationMethod" (JArr []) document)
    as [| | | | l |]; try discriminate.
  injection Evm as ->.
  step_ok E as vm Emethods.
  step_ok E as auths Eauths.
  destruct (dict_get_default "authentication" (JArr []) document)
    as [| | | | l |]; try discriminate.
  injection Eauths as ->.
  step_ok E as final Efinal. destruct final as [vm' keys'].
  injection E as <-.
  exists vmethods, auths. split; [reflexivity | split; [reflexivity |]].
  assert (Hvm : filed doc_id (vmethods ++ auths)%list vm).
  { eapply methods_filed; [| | exact Emethods].
    - intros x Hx. apply in_or_app. now left.
    - intros k v Ek. discriminate Ek. }
  assert (Hkeys : filed doc_id (vmethods ++ auths)%list keys').
  { eapply auths_filed; [| exact Hvm | | exact Efinal].
    - intros x Hx. apply in_or_app. now right.
    - intros k v Ek. discriminate Ek. }
  intros k v Ek. destruct (Hkeys k v Ek) as [Hin Hkey].
  split; [exact Hin |].
  unfold method_key in Hkey.
  destruct v as [| | | | | m]; try discriminate.
  destruct (dict_get "id" m) as [| | | raw | |] eqn:Eraw; try discriminate.
  injection Hkey as <-. exists m, raw. repeat split. exact Eraw.
Qed.

(** ** The controllers *)

(** The controllers of an accepted entry, and the check made on them. *)
Lemma load_entry_controllers : forall vh vs st parts it st',
  load_entry vh vs st parts = Ok (it, st') ->
  exists d cid controllers,
    it_doc it = JObj d /\ dict_get "id" d = JStr cid
    /\ controllers_of d cid = Ok controllers
    /\ prev_controllers st' = controllers
    /\ (vs = true ->
        list_mem_str cid
          (if index st =? 1 then controllers else prev_controllers st) = true).
Proof.
  intros vh vs st parts it st' E.
  unfold load_entry in E.
  destruct parts as [| | | | items |]; try discriminate.
  destruct items as [|h [|v [|t [|p [|pr [|]]]]]]; try discriminate.
  step_ok E as new_doc Epatch.
  step_ok E as d Edoc.
  destruct new_doc as [| | | | | d0]; try discriminate.
  injection Edoc as <-.
  step_ok E as u Ehash.
  step_ok E as cid Eid.
  destruct (dict_get "id" d0) as [| | | s | |] eqn:Eget; try discriminate.
  injection Eid as <-.
  step_ok E as new_id Enew.
  step_ok E as controllers Econtrollers.
  step_ok E as auth_keys Eauth.
  injection E as <- <-.
  assert (Hid : new_id = s).
  { destruct (index st =? 1).
    - step_ok Enew as derived Ederive. destruct derived as [derive_id d'].
      step_ok Enew as u' Esame. now injection Enew as <-.
    - destruct (doc_id st) as [id0 |]; [| discriminate].
      step_ok Enew as u' Esame. apply raise_if_ok in Esame.
      apply negb_false_iff, String.eqb_eq in Esame. subst id0.
      now injection Enew as <-. }
  subst new_id.
  exists d0, s, controllers. repeat split; try assumption.
  intros ->. step_ok Eauth as keys Ekeys.
  step_ok Eauth as u1 Emem. apply raise_if_ok, negb_false_iff in Emem.
  exact Emem.
Qed.

Lemma initial_state_tracked : forall seed, tracked (initial_state seed).
Proof.
  intro seed. split; simpl; [lia | congruence].
Qed.

Lemma load_entry_tracked : forall vh vs st parts it st',
  tracked st ->
  load_entry vh vs st parts = Ok (it, st') ->
  tracked st'.
Proof.
  intros vh vs st parts it st' [Hge _] E.
  destruct (load_entry_controllers _ _ _ _ _ _ E)
    as (d & cid & controllers & Edoc & Eid & Ecs & Eprev & _).
  apply load_entry_ok in E.
  destruct E as (h & v & t & p & pr & d' & cid' & _ & _ & _ & _ & _ & _
                 & _ & -> & Ei & Ed & _).
  cbn [it_doc] in Edoc. injection Edoc as ->.
  split; [lia |]. intros _.
  rewrite Ed. unfold document_controllers. rewrite Eid, Ecs, Eprev.
  reflexivity.
Qed.

Lemma load_lines_controllers : forall vh lines st items r,
  tracked st ->
  load_lines vh true st lines = (items, r) ->
  forall before it after,
    items = (before ++ it :: after)%list ->
    exists d id controllers,
      it_doc it = JObj d /\ dict_get "id" d = JStr id
      /\ document_controllers
           (last (map it_doc before)
              (if index st =? 1 then it_doc it else doc st)) = Ok controllers
      /\ list_mem_str id controllers = true.
Proof.
  intros vh lines st.
  pattern st, lines, (load_lines vh true st lines).
  apply load_lines_cases; clear st lines.
  - intros st items r _ E before it after ->. injection E as E _.
    now destruct before.
  - auto.
  - intros st line rest _ _ items r _ E before it after ->.
    injection E as E _. now destruct before.
  - intros st line rest parts e _ _ _ items r _ E before it after ->.
    injection E as E _. now destruct before.
  - intros st line rest parts it0 st1 items r _ _ Eentry _ IH items' r' Hs E
      before it after Esplit.
    injection E as <- <-.
    destruct before as [|b before].
    + injection Esplit as <- _. cbn [map last].
      destruct (load_entry_controllers _ _ _ _ _ _ Eentry)
        as (d & cid & controllers & Edoc & Eid & Ecs & _ & Hmem).
      specialize (Hmem eq_refl).
      destruct Hs as [_ Hs].
      destruct (index st =? 1) eqn:E1.
      * exists d, cid, controllers. repeat split; try assumption.
        rewrite Edoc. unfold document_controllers. now rewrite Eid.
      * apply Z.eqb_neq in E1.
        exists d, cid, (prev_controllers st). repeat split; auto.
    + injection Esplit as <- ->.
      assert (Hs1 : tracked st1) by (eapply load_entry_tracked; eauto).
      destruct (IH _ _ Hs1 eq_refl before it after eq_refl)
        as (d & id & controllers & Edoc & Eid & Ecs & Hmem).
      exists d, id, controllers. repeat split; try assumption.
      apply load_entry_ok in Eentry.
      destruct Eentry as (h & v & t & p & pr & d0 & cid & _ & _ & _ & _ & _
                          & _ & _ & -> & Ei & Ed & _).
      destruct Hs as [Hge _].
      replace (index st1 =? 1) with false in Ecs
        by (symmetry; apply Z.eqb_neq; lia).
      cbn [map it_doc]. rewrite last_cons. rewrite <- Ed. exact Ecs.
Qed.

(** X4: with signature verification on, the DID of every entry yielded is
    one of the controllers of the document of the entry before it, and of
    its own document at the first entry; the controllers of a document are
    its controller member, a string standing for the list of itself, and
    the DID when the member is absent or null. *)
Theorem did_among_prior_controllers :
  forall first lines vh items e before it after,
    load_log (first :: lines) vh true = (items, e) ->
    items = (before ++ it :: after)%list ->
    exists d id controllers,
      it_doc it = JObj d /\ dict_get "id" d = JStr id
      /\ document_controllers (last (map it_doc before) (it_doc it))
         = Ok controllers
      /\ list_mem_str id controllers = true.
Proof.
  intros first lines vh items e before it after E Esplit.
  unfold load_log in E.
  destruct (load_header first) as [seed | e0].
  - destruct (load_lines vh true (initial_state seed) lines)
      as [items' r] eqn:Erun.
    injection E as <- _.
    exact (load_lines_controllers vh lines _ _ _ (initial_state_tracked seed)
             Erun before it after Esplit).
  - injection E as <- _. now destruct before.
Qed.

(** ** Verification only restricts *)

Lemma same_track_refl : forall vs st, same_track vs st st.
Proof. intros vs st. repeat split. Qed.

(** An entry accepted under some checks is accepted under fewer, with the
    same item. *)
Lemma load_entry_relax : forall vh vs vh' vs' st st2 parts it st1,
  (vh' = true -> vh = true) ->
  (vs' = true -> vs = true) ->
  same_track vs' st st2 ->
  load_entry vh vs st parts = Ok (it, st1) ->
  exists st2',
    load_entry vh' vs' st2 parts = Ok (it, st2') /\ same_track vs' st1 st2'.
Proof.
  intros vh vs vh' vs' st st2 parts it st1 Hvh Hvs
    (Ei & Ed & Eh & Ec & Edid & Ek) E.
  unfold load_entry in *.
  destruct parts as [| | | | items |]; try discriminate.
  destruct items as [|h [|v [|t [|p [|pr [|]]]]]]; try discriminate.
  rewrite <- Ei, <- Ed, <- Eh, <- Ec, <- Edid.
  step_ok E as new_doc Epatch. rewrite Epatch. cbn [bind].
  step_ok E as d Edoc. rewrite Edoc. cbn [bind].
  step_ok E as u Ehash.
  assert (Ehash' :
    (if vh'
     then raise_if (negb (eq_str h (log_line_hash (prev_hash st) v t p)))
            (RuntimeError "Invalid log: hash mismatch")
     else Ok tt) = Ok tt).
  { destruct vh'; [| reflexivity].
    rewrite (Hvh eq_refl) in Ehash. destruct u. exact Ehash. }
  rewrite Ehash'. cbn [bind].
  step_ok E as cid Eid. rewrite Eid. cbn [bind].
  step_ok E as new_id Enew. rewrite Enew. cbn [bind].
  step_ok E as controllers Econtrollers. rewrite Econtrollers. cbn [bind].
  step_ok E as auth_keys Eauth. injection E as <- <-.
  destruct vs'.
  - rewrite (Hvs eq_refl) in Eauth. rewrite <- (Ek eq_refl).
    rewrite Eauth. cbn [bind].
    eexists. split; [reflexivity |]. repeat split.
  - cbn [bind]. eexists. split; [reflexivity |].
    repeat split. discriminate.
Qed.

Lemma load_lines_relax : forall vh vs vh' vs',
  (vh' = true -> vh = true) ->
  (vs' = true -> vs = true) ->
  forall lines st st2 items r,
    same_track vs' st st2 ->
    load_lines vh vs st lines = (items, r) ->
    exists more r',
      load_lines vh' vs' st2 lines = ((items ++ more)%list, r')
      /\ forall st1, r = Ok st1 ->
           more = [] /\ exists st2', r' = Ok st2' /\ same_track vs' st1 st2'.
Proof.
  intros vh vs vh' vs' Hvh Hvs.
  induction lines as [|line rest IH]; intros st st2 items r Htrack E.
  - simpl in E. injection E as <- <-. exists [], (Ok st2).
    split; [reflexivity |]. intros st1 E1. injection E1 as <-.
    split; [reflexivity |]. now exists st2.
  - simpl in E |- *.
    destruct (String.eqb line ""); [now apply (IH st) |].
    destruct (json_loads line) as [parts |]; cbn [or_raise bind] in E |- *.
    + destruct (load_entry vh vs st parts) as [[it st1] | e0] eqn:Eentry.
      * destruct (load_lines vh vs st1 rest) as [items1 r1] eqn:Erest.
        injection E as <- <-.
        destruct (load_entry_relax _ _ _ _ _ _ _ _ _ Hvh Hvs Htrack Eentry)
          as (st2' & -> & Htrack').
        destruct (IH _ _ _ _ Htrack' Erest) as (more & r' & -> & Hend).
        exists more, r'. split; [reflexivity | exact Hend].
      * injection E as <- <-.
        destruct (match load_entry vh' vs' st2 parts with
                  | Ok (it, st') =>
                      let '(its, r) := load_lines vh' vs' st' rest in
                      (it :: its, r)
                  | Raise e => ([], Raise e)
                  end) as [more r'].
        exists more, r'. split; [reflexivity | discriminate].
    + injection E as <- <-. exists [], (Raise JSONDecodeError).
      split; [reflexivity | discriminate].
Qed.

(** X7: the two verification flags only restrict.  What [load_log] yields
    with a check on is the beginning of what it yields with the check off,
    and a log accepted with a check on is accepted with it off, with the
    same items. *)
Theorem verification_only_restricts : forall history vh vs vh' vs' items e,
  (vh' = true -> vh = true) ->
  (vs' = true -> vs = true) ->
  load_log history vh vs = (items, e) ->
  exists more e',
    load_log history vh' vs' = ((items ++ more)%list, e')
    /\ (e = None -> more = [] /\ e' = None).
Proof.
  intros history vh vs vh' vs' items e Hvh Hvs E.
  unfold load_log in *.
  destruct history as [|first lines].
  - injection E as <- <-. eexists [], _. split; [reflexivity | discriminate].
  - destruct (load_header first) as [seed | e0].
    + destruct (load_lines vh vs (initial_state seed) lines)
        as [items' r] eqn:Erun.
      injection E as <- <-.
      destruct (load_lines_relax _ _ _ _ Hvh Hvs _ _ _ _ _
                  (same_track_refl vs' (initial_state seed)) Erun)
        as (more & r' & -> & Hend).
      eexists more, _. split; [reflexivity |].
      destruct r as [st1 | e1]; [| discriminate].
      destruct (Hend st1 eq_refl) as (-> & st2' & -> & Htrack).
      destruct Htrack as (<- & _). auto.
    + injection E as <- <-. eexists [], _.
      split; [reflexivity | discriminate].
Qed.

(** ** The identifier of the documents *)

Lemma load_lines_same_id : forall vh vs lines st items r id,
  index st <> 1 ->
  1 <= index st ->
  doc_id st = Some id ->
  load_lines vh vs st lines = (items, r) ->
  forall it, In it items ->
    exists d, it_doc it = JObj d /\ dict_get "id" d = JStr id.
Proof.
  intros vh vs lines st.
  pattern st, lines, (load_lines vh vs st lines).
  apply load_lines_cases; clear st lines.
  - intros st items r id _ _ _ E it Hin. injection E as <- _. destruct Hin.
  - auto.
  - intros st line rest _ _ items r id _ _ _ E it Hin.
    injection E as <- _. destruct Hin.
  - intros st line rest parts e _ _ _ items r id _ _ _ E it Hin.
    injection E as <- _. destruct Hin.
  - intros st line rest parts it0 st1 items r _ _ Eentry _ IH items' r' id Hne
      Hge Eid E it Hin.
    injection E as <- <-.
    apply load_entry_ok in Eentry.
    destruct Eentry as (h & v & t & p & pr & d & cid & _ & _ & _ & Eget & Hid
                        & _ & _ & -> & Ei & _ & _ & Edid).
    apply Z.eqb_neq in Hne. rewrite Hne in Hid.
    assert (cid = id) by congruence. subst cid.
    destruct Hin as [<- | Hin].
    + now exists d.
    + eapply (IH _ _ id); try eassumption; try reflexivity; lia.
Qed.

(** X1: the documents that [load_log] yields all are objects with one and
    the same string id, the one that the SCID derivation returns for the
    first of them. *)
Theorem document_id_fixed : forall history vh vs items e first rest,
  load_log history vh vs = (items, e) ->
  items = first :: rest ->
  exists id derived,
    update_scid (it_doc first) None = Ok (id, derived)
    /\ forall it, In it items ->
         exists d, it_doc it = JObj d /\ dict_get "id" d = JStr id.
Proof.
  intros history vh vs items e first rest E ->.
  unfold load_log in E.
  destruct history as [|header lines]; [discriminate |].
  destruct (load_header header) as [seed | e0]; [| discriminate].
  destruct (load_lines vh vs (initial_state seed) lines) as [items' r] eqn:Erun.
  injection E as -> _.
  revert Erun. generalize (eq_refl : index (initial_state seed) = 1).
  generalize (initial_state seed) as st.
  induction lines as [|line lines IH]; intros st Hst Erun; simpl in Erun.
  - discriminate.
  - destruct (String.eqb line ""); [now apply (IH st) |].
    destruct (json_loads line) as [parts |]; cbn [or_raise bind] in Erun;
      [| discriminate].
    destruct (load_entry vh vs st parts) as [[it st1] |] eqn:Eentry;
      [| discriminate].
    destruct (load_lines vh vs st1 lines) as [items1 r1] eqn:Erest.
    injection Erun as -> -> <-.
    apply load_entry_ok in Eentry.
    destruct Eentry as (h & v & t & p & pr & d & cid & _ & _ & _ & Eget & Hid
                        & _ & _ & -> & Ei & _ & _ & Edid).
    rewrite Hst in Hid. cbn [Z.eqb Pos.eqb] in Hid. destruct Hid as [d' Hid].
    exists cid, d'. cbn [it_doc]. split; [exact Hid |].
    intros it [<- | Hin].
    + now exists d.
    + eapply (load_lines_same_id vh vs lines st1); try eassumption; lia.
Qed.

(** ** Logs without entries, and logs with more lines *)

Lemma load_lines_blank : forall vh vs lines st,
  entries lines = [] -> load_lines vh vs st lines = ([], Ok st).
Proof.
  intros vh vs. induction lines as [|line rest IH]; intros st E;
    [reflexivity |].
  cbn [entries filter] in E. simpl.
  destruct (String.eqb line ""); [now apply IH | discriminate].
Qed.

Lemma load_lines_app_raise : forall vh vs pre post st items e,
  load_lines vh vs st pre = (items, Raise e) ->
  load_lines vh vs st (pre ++ post) = (items, Raise e).
Proof.
  intros vh vs pre post.
  induction pre as [|line pre IH]; intros st items e E; simpl in *.
  - discriminate.
  - destruct (String.eqb line ""); [now apply IH |].
    destruct (json_loads line) as [parts |]; cbn [or_raise bind] in *;
      [| exact E].
    destruct (load_entry vh vs st parts) as [[it st1] | e0]; [| exact E].
    destruct (load_lines vh vs st1 pre) as [items1 r1] eqn:E1.
    injection E as <- ->.
    rewrite (IH _ _ _ E1). reflexivity.
Qed.

(** X3: lines appended to a log leave what [load_log] yields for the lines
    before them as it is.  A log that is refused stays refused, at the same
    entry and with the same error; after an accepted log the items of the
    new lines follow, numbered on from the count of the entries. *)
Theorem appended_lines : forall first pre post vh vs items e,
  load_log (first :: pre) vh vs = (items, e) ->
  exists more e',
    load_log (first :: pre ++ post) vh vs = ((items ++ more)%list, e')
    /\ (e <> None -> more = [] /\ e' = e)
    /\ map it_index more
       = count_from (1 + Z.of_nat (List.length items)) (List.length more).
Proof.
  intros first pre post vh vs items e E. unfold load_log in *.
  destruct (load_header first) as [seed | e0].
  - destruct (load_lines vh vs (initial_state seed) pre)
      as [items' [st | e1]] eqn:Erun.
    + injection E as <- <-.
      rewrite (load_lines_app _ _ _ post _ _ _ Erun).
      destruct (load_lines vh vs st post) as [more r] eqn:Epost.
      cbn [fst snd].
      destruct (load_lines_end _ _ _ _ _ _ Erun) as (Hindex & _).
      cbn [initial_state index] in Hindex.
      eexists more, _. split; [reflexivity |]. split.
      * replace (index st =? 0) with false
          by (symmetry; apply Z.eqb_neq; lia).
        intro Hne. now destruct Hne.
      * rewrite <- Hindex. exact (load_lines_index _ _ _ _ _ _ Epost).
    + injection E as <- <-.
      rewrite (load_lines_app_raise _ _ _ post _ _ _ Erun).
      eexists [], _. rewrite app_nil_r. split; [reflexivity |].
      split; [now split | reflexivity].
  - injection E as <- <-. eexists [], _. split; [reflexivity |].
    split; [now split | reflexivity].
Qed.

(** ** The error for a log without entries *)

Lemma bind_raise : forall (A B : Type) (c : result A) (k : A -> result B) e,
  bind c k = Raise e -> c = Raise e \/ exists a, c = Ok a /\ k a = Raise e.
Proof.
  intros A B [a | e0] k e E; simpl in E; [right; eauto | left].
  now injection E as <-.
Qed.

Lemma for_each_raise : forall (A S : Type) (body : A -> S -> result S)
  (P : exn -> Prop),
  (forall x s e, body x s = Raise e -> P e) ->
  forall l s e, for_each l body s = Raise e -> P e.
Proof.
  intros A S body P Hbody. induction l as [|x l IH]; intros s e E.
  - discriminate.
  - simpl in E. apply bind_raise in E. destruct E as [E | (s' & _ & E)].
    + now apply Hbody in E.
    + now apply IH in E.
Qed.

(** Follows a raised exception to the place that raised it. *)
Ltac raise_site :=
  repeat match goal with
         | E : Ok _ = Raise _ |- _ => discriminate E
         | E : Raise _ = Raise _ |- _ =>
             injection E as <-; unfold other_error; cbn; discriminate
         | E : bind _ _ = Raise _ |- _ =>
             apply bind_raise in E; destruct E as [E | (? & ? & E)]
         | E : raise_if ?b _ = Raise _ |- _ =>
             destruct b; cbn [raise_if] in E
         | E : or_raise ?o _ = Raise _ |- _ =>
             destruct o; cbn [or_raise] in E
         | E : match ?x with _ => _ end = Raise _ |- _ => destruct x
         end.

Lemma update_scid_other : forall document scid_ver e,
  update_scid document scid_ver = Raise e -> other_error e.
Proof.
  intros document scid_ver e E. unfold update_scid in E. raise_site.
Qed.

Lemma controllers_of_other : forall d id e,
  controllers_of d id = Raise e -> other_error e.
Proof.
  intros d id e E. unfold controllers_of in E. raise_site.
Qed.

Lemma parse_verification_method_other : forall method id methods e,
  parse_verification_method method id methods = Raise e -> other_error e.
Proof.
  intros method id methods e E. unfold parse_verification_method in E.
  raise_site.
Qed.

Lemma parse_auth_other : forall id auth s e,
  parse_auth id auth s = Raise e -> other_error e.
Proof.
  intros id auth [vm keys] e E. unfold parse_auth in E.
  apply bind_raise in E. destruct E as [E | (a & _ & E)].
  - destruct auth; try (raise_site; fail).
    now apply parse_verification_method_other in E.
  - destruct a. raise_site.
Qed.

Lemma auth_keys_of_other : forall d id e,
  auth_keys_of d id = Raise e -> other_error e.
Proof.
  intros d id e E. unfold auth_keys_of in E.
  apply bind_raise in E. destruct E as [E | (vmethods & _ & E)];
    [raise_site |].
  apply bind_raise in E. destruct E as [E | (vm & _ & E)].
  { revert E. apply for_each_raise. intros x s e0 E.
    apply bind_raise in E. destruct E as [E | ([? ?] & _ & E)];
      [now apply parse_verification_method_other in E | discriminate]. }
  apply bind_raise in E. destruct E as [E | (auths & _ & E)];
    [raise_site |].
  apply bind_raise in E. destruct E as [E | ([? ?] & _ & E)];
    [| discriminate].
  revert E. apply for_each_raise. intros x s e0. apply parse_auth_other.
Qed.

Lemma verify_proof_other : forall d p method e,
  verify_proof d p method = Raise e -> other_error e.
Proof.
  intros d p method e E. unfold verify_proof in E. raise_site.
Qed.

Lemma check_proofs_other : forall d id keys e,
  check_proofs d id keys = Raise e -> other_error e.
Proof.
  intros d id keys e E. unfold check_proofs in E.
  apply bind_raise in E. destruct E as [E | (proofs & _ & E)].
  - unfold proofs_of in E. raise_site.
  - revert E. apply for_each_raise. intros x s e0 E.
    unfold check_proof in E.
    destruct x; try (raise_site; fail).
    destruct (dict_get "verificationMethod" _); try (raise_site; fail).
    destruct (dict_lookup _ keys); [| raise_site].
    now apply verify_proof_other in E.
Qed.

Lemma load_entry_other : forall vh vs st parts e,
  load_entry vh vs st parts = Raise e -> other_error e.
Proof.
  intros vh vs st parts e E. unfold load_entry in E.
  destruct parts as [| | | | items |]; try (raise_site; fail).
  destruct items as [|h [|v [|t [|p [|pr [|]]]]]]; try (raise_site; fail).
  apply bind_raise in E. destruct E as [E | (new_doc & _ & E)]; [raise_site |].
  apply bind_raise in E. destruct E as [E | (d & _ & E)]; [raise_site |].
  apply bind_raise in E. destruct E as [E | (u & _ & E)].
  { destruct vh; raise_site. }
  apply bind_raise in E. destruct E as [E | (cid & _ & E)]; [raise_site |].
  apply bind_raise in E. destruct E as [E | (new_id & _ & E)].
  { destruct (index st =? 1).
    - apply bind_raise in E. destruct E as [E | ([? ?] & _ & E)].
      + now apply update_scid_other in E.
      + raise_site.
    - raise_site. }
  apply bind_raise in E. destruct E as [E | (controllers & _ & E)].
  { now apply controllers_of_other in E. }
  apply bind_raise in E. destruct E as [E | (keys & _ & E)]; [| discriminate].
  destruct vs; [| discriminate].
  apply bind_raise in E. destruct E as [E | (keys & _ & E)].
  { now apply auth_keys_of_other in E. }
  apply bind_raise in E. destruct E as [E | (u1 & _ & E)]; [raise_site |].
  apply bind_raise in E. destruct E as [E | (u2 & _ & E)]; [| discriminate].
  now apply check_proofs_other in E.
Qed.

Lemma load_header_other : forall first e,
  load_header first = Raise e -> other_error e.
Proof.
  intros first e E. unfold load_header in E.
  apply bind_raise in E. destruct E as [E | (header & _ & E)]; [raise_site |].
  raise_site.
Qed.

Lemma load_lines_other : forall vh vs lines st items e,
  load_lines vh vs st lines = (items, Raise e) -> other_error e.
Proof.
  intros vh vs lines st.
  pattern st, lines, (load_lines vh vs st lines).
  apply load_lines_cases; clear st lines.
  - discriminate.
  - auto.
  - intros st line rest _ _ items e E. injection E as _ <-. discriminate.
  - intros st line rest parts e0 _ _ Eentry items e E. injection E as _ <-.
    now apply load_entry_other in Eentry.
  - intros st line rest parts it st1 items r _ _ _ _ IH items' e E.
    injection E as _ ->. now apply (IH items).
Qed.

(** X2: a log that holds its header and no entry is accepted: [load_log]
    yields nothing and ends without an exception.  The count [index]
    starts at 1 and only grows, so the error for a log without entries,
    raised when it is 0, is never raised, whatever the log and the
    flags. *)
Theorem log_without_entries : forall history vh vs,
  (forall first lines seed,
     history = first :: lines ->
     load_header first = Ok seed ->
     entries lines = [] ->
     load_log history vh vs = ([], None))
  /\ snd (load_log history vh vs)
     <> Some (RuntimeError "Invalid log: no entries").
Proof.
  intros history vh vs. split.
  - intros first lines seed -> Eheader Eblank. unfold load_log.
    rewrite Eheader, (load_lines_blank _ _ _ _ Eblank). reflexivity.
  - unfold load_log. destruct history as [|first lines]; [discriminate |].
    destruct (load_header first) as [seed | e] eqn:Eheader.
    + destruct (load_lines vh vs (initial_state seed) lines)
        as [items [st | e]] eqn:Erun; cbn [snd].
      * destruct (load_lines_end _ _ _ _ _ _ Erun) as (Hindex & _).
        cbn [initial_state index] in Hindex.
        replace (index st =? 0) with false
          by (symmetry; apply Z.eqb_neq; lia).
        discriminate.
      * apply load_lines_other in Erun. intro E. injection E as ->.
        now apply Erun.
    + apply load_header_other in Eheader. cbn [snd]. intro E.
      injection E as ->. now apply Eheader.
Qed.

End ReaderFacts.

(** * Further properties of [did_history/loader.py] *)

Section LoaderRuns.
Context `{Libs}.
Variable DocumentState : Type.
Variable datetime : Type.
Variable datetime_ltb : datetime -> datetime -> bool.
Variable version_id_of : DocumentState -> Z.
Variable timestamp_of : DocumentState -> datetime.
Variable deactivated_of : DocumentState -> bool.
Variable load_history_line :
  json -> option DocumentState -> result DocumentState.
Variable check_version_hash : DocumentState -> result unit.
Variable verify_state : option (Loader.VerifyState DocumentState).

Import Loader.

#[local] Arguments Loader.prev_state {DocumentState} v.
#[local] Arguments Loader.state {DocumentState} v.
#[local] Arguments Loader.next_state {DocumentState} v.
#[local] Arguments Loader.history {DocumentState} v.
#[local] Arguments Loader.done {DocumentState} v.

Local Notation turn k t :=
  (Loader.turn DocumentState datetime datetime_ltb version_id_of timestamp_of
     load_history_line check_version_hash k t verify_state).
Local Notation after_loop k t :=
  (Loader.after_loop DocumentState datetime k t).
Local Notation loop k t :=
  (Loader.loop DocumentState datetime datetime_ltb version_id_of timestamp_of
     load_history_line check_version_hash k t verify_state).
Local Notation iter_history k t :=
  (Loader.iter_history DocumentState datetime datetime_ltb version_id_of
     timestamp_of load_history_line check_version_hash k t verify_state).
Local Notation load_history k t :=
  (Loader.load_history DocumentState datetime datetime_ltb version_id_of
     timestamp_of deactivated_of load_history_line check_version_hash k t
     verify_state).
Local Notation loads :=
  (Loader.loads DocumentState load_history_line).
Local Notation checks_pass :=
  (Loader.checks_pass DocumentState check_version_hash verify_state).
Local Notation vars := (Loader.vars DocumentState).

(** What the metadata of [load_history] are, for the first and the last
    state yielded. *)
Local Notation metadata first latest :=
  {| created := timestamp_of first;
     updated := timestamp_of latest;
     deactivated := deactivated_of latest;
     version_id := version_id_of latest |}.

(** ** One turn of the loop *)

(** A turn yields the state loaded in the turn before, checked, and loads
    the next line from it. *)
Lemma turn_ok : forall k t (v : vars) yielded v',
  turn k t v = Ok (yielded, v') ->
  yielded = next_state v
  /\ match history v with
     | [] => next_state v' = None /\ history v' = []
     | line :: rest =>
         exists parts s,
           json_loads line = Some parts
           /\ load_history_line parts (next_state v) = Ok s
           /\ next_state v' = Some s /\ history v' = rest
     end
  /\ match yielded with
     | Some s =>
         check_version_hash s = Ok tt
         /\ (forall f, verify_state = Some f ->
               f s (prev_state v) (done v') = Ok tt)
         /\ prev_state v' = Some s /\ state v' = Some s
         /\ (next_state v' = None -> done v' = true)
     | None => prev_state v' = prev_state v /\ state v' = None
     end.
Proof.
  intros k t v yielded v' E. unfold Loader.turn in E.
  step_ok E as read Eread. destruct read as [[next rest] done1].
  assert (Hread :
    match history v with
    | [] => next = None /\ rest = []
    | line :: more =>
        exists parts s,
          json_loads line = Some parts
          /\ load_history_line parts (next_state v) = Ok s
          /\ next = Some s /\ rest = more
    end).
  { destruct (history v) as [|line more].
    - injection Eread as <- <- _. now split.
    - step_ok Eread as parts Eparts. apply or_raise_ok in Eparts.
      step_ok Eread as s Es. injection Eread as <- <- _.
      now exists parts, s. }
  clear Eread. cbv zeta in E.
  destruct (next_state v) as [s |].
  - step_ok E as u1 Echeck. destruct u1.
    step_ok E as u2 Ehook. destruct u2.
    injection E as <- <-. cbn [next_state history prev_state state done].
    split; [reflexivity |]. split; [exact Hread |].
    split; [exact Echeck |]. split.
    + intros f Ef. rewrite Ef in Ehook. exact Ehook.
    + split; [reflexivity |]. split; [reflexivity |].
      intros ->. rewrite orb_true_r. reflexivity.
  - injection E as <- <-. cbn [next_state history prev_state state done].
    split; [reflexivity |]. split; [exact Hread |]. now split.
Qed.

Lemma after_loop_ends : forall k t (v : vars), after_loop k t v <> OutOfFuel.
Proof.
  intros k t v. unfold Loader.after_loop.
  destruct (state v); [discriminate |].
  destruct k as [n |]; [| destruct t; discriminate].
  destruct (n =? 0); [destruct t; discriminate | discriminate].
Qed.

Lemma loop_done : forall k t fuel (v : vars),
  done v = true -> loop k t fuel v = ([], after_loop k t v).
Proof.
  intros k t fuel v E. destruct fuel; simpl; now rewrite E.
Qed.

(** The equation of the loop for a turn that is made. *)
Lemma loop_turn : forall k t fuel (v : vars),
  done v = false ->
  loop k t (S fuel) v =
    match turn k t v with
    | Raise e => ([], Raised e)
    | Ok (yielded, v') =>
        let '(ys, o) := loop k t fuel v' in
        (match yielded with Some s => s :: ys | None => ys end, o)
    end.
Proof.
  intros k t fuel v E. simpl. now rewrite E.
Qed.

(** ** The end of the iteration *)

Lemma loop_ends : forall k t fuel (v : vars),
  next_state v <> None ->
  (List.length (history v) < fuel)%nat ->
  snd (loop k t fuel v) <> OutOfFuel.
Proof.
  intros k t. induction fuel as [|fuel IH]; intros v Hnext Hfuel; [lia |].
  destruct (done v) eqn:Edone.
  - rewrite loop_done by exact Edone. apply after_loop_ends.
  - rewrite loop_turn by exact Edone.
    destruct (turn k t v) as [[yielded v'] | e] eqn:Eturn; [| discriminate].
    destruct (turn_ok _ _ _ _ _ Eturn) as (-> & Hread & Hyield).
    destruct (next_state v) as [s |] eqn:Es; [| contradiction].
    destruct Hyield as (_ & _ & _ & _ & Hlast).
    destruct (loop k t fuel v') as [ys o] eqn:Erest. cbn [snd].
    change o with (snd (ys, o)). rewrite <- Erest.
    destruct (history v) as [|line rest].
    + destruct Hread as [Enone _].
      rewrite loop_done by now apply Hlast. apply after_loop_ends.
    + destruct Hread as (parts & s' & _ & _ & Enext & Erest').
      apply IH.
      * rewrite Enext. discriminate.
      * rewrite Erest'. simpl in Hfuel. lia.
Qed.

(** A run that has ended is the same with more fuel. *)
Lemma loop_more_fuel : forall k t fuel (v : vars) ys o extra,
  loop k t fuel v = (ys, o) ->
  o <> OutOfFuel ->
  loop k t (fuel + extra) v = (ys, o).
Proof.
  intros k t. induction fuel as [|fuel IH]; intros v ys o extra E Ho.
  - simpl in E. destruct (done v) eqn:Edone.
    + rewrite loop_done by exact Edone. exact E.
    + injection E as _ <-. contradiction.
  - destruct (done v) eqn:Edone.
    + rewrite loop_done in E |- * by exact Edone. exact E.
    + change (S fuel + extra)%nat with (S (fuel + extra)).
      rewrite loop_turn in E |- * by exact Edone.
      destruct (turn k t v) as [[yielded v'] | e]; [| exact E].
      destruct (loop k t fuel v') as [ys' o'] eqn:Erest.
      injection E as <- <-.
      rewrite (IH _ _ _ extra Erest Ho). reflexivity.
Qed.

Lemma iter_history_ends_with : forall k t fuel line rest,
  (List.length (line :: rest) < fuel)%nat ->
  snd (iter_history k t fuel (line :: rest)) <> OutOfFuel.
Proof.
  intros k t fuel line rest Hfuel.
  destruct fuel as [|fuel]; [simpl in Hfuel; lia |].
  unfold Loader.iter_history.
  rewrite loop_turn by reflexivity.
  destruct (turn k t (initial_vars DocumentState (line :: rest)))
    as [[yielded v'] | e] eqn:Eturn; [| discriminate].
  destruct (turn_ok _ _ _ _ _ Eturn) as (_ & Hread & _).
  cbn [initial_vars history] in Hread.
  destruct Hread as (parts & s & _ & _ & Enext & Erest).
  destruct (loop k t fuel v') as [ys o] eqn:Erun. cbn [snd].
  change o with (snd (ys, o)). rewrite <- Erun.
  apply loop_ends.
  - rewrite Enext. discriminate.
  - rewrite Erest. simpl in Hfuel. lia.
Qed.

(** X10: the iteration over a history that is not empty ends, by
    finishing or by an exception, within one turn more than it has lines,
    whatever the cutoffs and the hook, and its result is the same however
    many more turns it is allowed; the iteration over an empty history
    never ends and yields nothing. *)
Theorem iteration_ends : forall k t history,
  (history = [] ->
   forall fuel, iter_history k t fuel history = ([], OutOfFuel))
  /\
  (history <> [] ->
   forall fuel extra,
     (List.length history < fuel)%nat ->
     snd (iter_history k t fuel history) <> OutOfFuel
     /\ load_history k t fuel history <> None
     /\ iter_history k t (fuel + extra) history
        = iter_history k t fuel history).
Proof.
  intros k t history. split.
  - intros -> fuel. apply loop_empty_history.
  - intros Hne fuel extra Hfuel.
    destruct history as [|line rest]; [contradiction |].
    pose proof (iter_history_ends_with k t fuel line rest Hfuel) as Hend.
    split; [exact Hend |]. split.
    + unfold Loader.load_history.
      destruct (iter_history k t fuel (line :: rest)) as [ys o].
      cbn [snd] in Hend.
      destruct o; [destruct ys | |]; try discriminate. contradiction.
    + unfold Loader.iter_history in *.
      destruct (loop k t fuel (initial_vars DocumentState (line :: rest)))
        as [ys o] eqn:Erun.
      exact (loop_more_fuel _ _ _ _ _ _ extra Erun Hend).
Qed.

(** ** What is yielded *)

Lemma loop_finished_yields : forall k t fuel (v : vars) ys,
  loop k t fuel v = (ys, Finished) ->
  state v = None ->
  ys <> [].
Proof.
  intros k t. induction fuel as [|fuel IH]; intros v ys E Hstate.
  - simpl in E. destruct (done v); [| discriminate].
    unfold Loader.after_loop in E. rewrite Hstate in E.
    exfalso. injection E as _ E.
    destruct k as [n |]; [destruct (n =? 0) |]; destruct t; discriminate.
  - destruct (done v) eqn:Edone.
    + rewrite loop_done in E by exact Edone.
      unfold Loader.after_loop in E. rewrite Hstate in E.
      exfalso. injection E as _ E.
      destruct k as [n |]; [destruct (n =? 0) |]; destruct t; discriminate.
    + rewrite loop_turn in E by exact Edone.
      destruct (turn k t v) as [[yielded v'] | e] eqn:Eturn; [| discriminate].
      destruct (turn_ok _ _ _ _ _ Eturn) as (_ & _ & Hyield).
      destruct (loop k t fuel v') as [ys' o] eqn:Erest.
      injection E as <- ->.
      destruct yielded as [s |]; [discriminate |].
      destruct Hyield as [_ Hnone]. now apply (IH v').
Qed.

(** X8: an iteration that finishes has yielded at least one state, as
    [load_history] relies on: it then returns the last state yielded, with
    the timestamp of the first state yielded as the time of creation and
    the timestamp, the deactivation flag and the version_id of the last as
    the rest of the metadata. *)
Theorem load_history_returns_last : forall k t fuel history states,
  iter_history k t fuel history = (states, Finished) ->
  exists first rest,
    states = first :: rest
    /\ load_history k t fuel history
       = Some (Ok (last rest first, metadata first (last rest first))).
Proof.
  intros k t fuel history states E.
  pose proof (loop_finished_yields _ _ _ _ _ E eq_refl) as Hne.
  destruct states as [|first rest]; [contradiction |].
  exists first, rest. split; [reflexivity |].
  unfold Loader.load_history. rewrite E. rewrite last_cons. reflexivity.
Qed.

(** The states a run yields have passed the checks; the hook has seen each
    with the state yielded before it, and as the final one only when
    nothing is yielded after it. *)
Lemma loop_yields_checked : forall k t fuel (v : vars) ys o,
  loop k t fuel v = (ys, o) ->
  forall before s after,
    ys = (before ++ s :: after)%list ->
    check_version_hash s = Ok tt
    /\ forall f, verify_state = Some f ->
         exists finished,
           f s (last (map Some before) (prev_state v)) finished = Ok tt
           /\ (after <> [] -> finished = false).
Proof.
  intros k t. induction fuel as [|fuel IH]; intros v ys o E before s after Eys.
  - simpl in E. destruct (done v); injection E as <- _; now destruct before.
  - destruct (done v) eqn:Edone.
    + rewrite loop_done in E by exact Edone. injection E as <- _.
      now destruct before.
    + rewrite loop_turn in E by exact Edone.
      destruct (turn k t v) as [[yielded v'] | e] eqn:Eturn.
      * destruct (turn_ok _ _ _ _ _ Eturn) as (_ & _ & Hyield).
        destruct (loop k t fuel v') as [ys' o'] eqn:Erest.
        injection E as <- <-.
        destruct yielded as [s0 |].
        -- destruct Hyield as (Echeck & Hhook & Eprev & _).
           destruct before as [|b before].
           ++ injection Eys as -> ->. split; [exact Echeck |].
              intros f Ef. exists (done v'). split; [now apply Hhook |].
              intro Hafter. destruct (done v') eqn:Edone'; [| reflexivity].
              rewrite loop_done in Erest by exact Edone'.
              injection Erest as <- _. contradiction.
           ++ injection Eys as -> Eys.
              destruct (IH _ _ _ Erest before s after Eys) as [Echeck' Hhook'].
              split; [exact Echeck' |].
              cbn [map]. rewrite last_cons, <- Eprev. exact Hhook'.
        -- destruct Hyield as [Eprev _].
           rewrite <- Eprev. exact (IH _ _ _ Erest before s after Eys).
      * injection E as <- _. now destruct before.
Qed.

(** The states a run yields are loaded from the lines, in order, each from
    the state before; at most one state is loaded ahead of them. *)
Lemma loop_yields_loaded : forall k t fuel (v : vars) ys o,
  loop k t fuel v = (ys, o) ->
  exists n tail ahead,
    loads (next_state v) (firstn n (history v)) tail
    /\ (match next_state v with Some s => s :: tail | None => tail end
        = ys ++ ahead)%list
    /\ (List.length ahead <= 1)%nat.
Proof.
  intros k t.
  assert (Hstop : forall v : vars,
    exists n tail ahead,
      loads (next_state v) (firstn n (history v)) tail
      /\ (match next_state v with Some s => s :: tail | None => tail end
          = [] ++ ahead)%list
      /\ (List.length ahead <= 1)%nat).
  { intro v. exists O, [].
    exists (match next_state v with Some s => [s] | None => [] end).
    split; [apply loads_nil |].
    destruct (next_state v); simpl; split; auto. }
  induction fuel as [|fuel IH]; intros v ys o E.
  - simpl in E. destruct (done v); injection E as <- _; apply Hstop.
  - destruct (done v) eqn:Edone.
    + rewrite loop_done in E by exact Edone. injection E as <- _.
      apply Hstop.
    + rewrite loop_turn in E by exact Edone.
      destruct (turn k t v) as [[yielded v'] | e] eqn:Eturn.
      * destruct (turn_ok _ _ _ _ _ Eturn) as (-> & Hread & _).
        destruct (loop k t fuel v') as [ys' o'] eqn:Erest.
        injection E as <- <-.
        destruct (IH _ _ _ Erest) as (n & tail & ahead & Hloads & Etail & Hlen).
        destruct (history v) as [|line rest].
        -- destruct Hread as [Enext Ehist].
           rewrite Enext, Ehist in *.
           assert (tail = []) as ->.
           { destruct n; simpl in Hloads; now inversion Hloads. }
           exists O, [], ahead. split; [apply loads_nil |].
           split; [| exact Hlen].
           destruct (next_state v); simpl; now rewrite <- Etail.
        -- destruct Hread as (parts & s & Eparse & Eload & Enext & Ehist).
           rewrite Enext, Ehist in *.
           exists (S n), (s :: tail), ahead.
           split; [now apply loads_cons with (parts := parts) |].
           split; [| exact Hlen].
           destruct (next_state v); simpl; now rewrite Etail.
      * injection E as <- _. apply Hstop.
Qed.

(** X9: whatever the cutoffs and however the iteration ends, every state
    it yields was loaded from the lines of the history, in their order and
    each from the state before it, with at most one further line loaded
    ahead, and has passed [check_version_hash] and the hook; the hook has
    been given the state yielded before, and the final flag only for a
    state after which nothing is yielded. *)
Theorem yielded_states_loaded_and_checked : forall k t fuel history states o,
  iter_history k t fuel history = (states, o) ->
  (exists n ahead,
     loads None (firstn n history) (states ++ ahead)%list
     /\ (List.length ahead <= 1)%nat)
  /\
  (forall before s after,
     states = (before ++ s :: after)%list ->
     check_version_hash s = Ok tt
     /\ forall f, verify_state = Some f ->
          exists finished,
            f s (last (map Some before) None) finished = Ok tt
            /\ (after <> [] -> finished = false)).
Proof.
  intros k t fuel history states o E. split.
  - destruct (loop_yields_loaded _ _ _ _ _ _ E)
      as (n & tail & ahead & Hloads & Etail & Hlen).
    cbn [initial_vars Loader.next_state Loader.history] in Hloads, Etail.
    exists n, ahead. rewrite <- Etail. now split.
  - exact (loop_yields_checked _ _ _ _ _ _ E).
Qed.

(** ** What [load_history] resolves *)

(** With no time cutoff and a version_id cutoff that no state has, or
    none, the loop that holds a loaded state yields it and every state
    after it. *)
Lemma loop_to_the_end : forall k rest s states prev st fuel,
  loads (Some s) rest states ->
  checks_pass (s :: states) ->
  (forall x n, In x (s :: states) -> k = Some n -> version_id_of x <> n) ->
  (List.length rest < fuel)%nat ->
  loop k None fuel
    {| prev_state := prev; state := st; next_state := Some s;
       history := rest; done := false |} = (s :: states, Finished).
Proof.
  intros k. induction rest as [|line rest IH];
    intros s states prev st fuel Hloads Hpass Hk Hfuel;
    (destruct fuel as [|fuel]; [simpl in Hfuel; lia |]);
    inversion Hloads as [| ? ? parts s' ? states' Eparse Eload Hmore]; subst;
    rewrite loop_turn by reflexivity.
  - erewrite turn_yields with (late := false) (next := None);
      [| now repeat split | intros y [<- | []]; apply Hpass; now left].
    rewrite orb_true_r. rewrite loop_done by reflexivity. reflexivity.
  - erewrite turn_yields with (late := false) (next := Some s').
    + replace (match k with
               | Some n => version_id_of s =? n
               | None => false
               end) with false.
      * cbn [orb].
        erewrite IH; [reflexivity | exact Hmore | | |].
        -- intros y Hy. apply Hpass. now right.
        -- intros y n Hy. apply Hk. now right.
        -- simpl in Hfuel. lia.
      * destruct k as [n |]; [| reflexivity].
        symmetry. apply Z.eqb_neq. apply Hk; [now left | reflexivity].
    + eexists _, _. repeat split; eassumption.
    + intros y [<- | []]. apply Hpass. now left.
Qed.

Lemma iter_history_first_turn : forall k t fuel line rest parts s,
  json_loads line = Some parts ->
  load_history_line parts None = Ok s ->
  iter_history k t (S fuel) (line :: rest) =
    loop k t fuel
      {| prev_state := None; state := None; next_state := Some s;
         history := rest;
         done := match t with
                 | Some T =>
                     if datetime_ltb T (timestamp_of s) then true else false
                 | None => false
                 end |}.
Proof.
  intros k t fuel line rest parts s Eparse Eload.
  unfold Loader.iter_history. rewrite loop_turn by reflexivity.
  unfold Loader.turn. cbn [initial_vars next_state history done prev_state].
  rewrite Eparse. cbn [or_raise bind]. rewrite Eload. cbn [bind].
  destruct (loop k t fuel _) as [ys o] eqn:E.
  destruct t as [T |]; rewrite E; reflexivity.
Qed.

(** X11: without cutoffs, on a history whose lines load one after the
    other into states that pass the checks, [load_history] returns the
    state of the last line, with the timestamp of the first as the time of
    creation; one turn more than the history has lines is enough. *)
Theorem load_history_latest : forall history first rest fuel,
  loads None history (first :: rest) ->
  checks_pass (first :: rest) ->
  (List.length history < fuel)%nat ->
  iter_history None None fuel history = (first :: rest, Finished)
  /\ load_history None None fuel history
     = Some (Ok (last rest first, metadata first (last rest first))).
Proof.
  intros history first rest fuel Hloads Hpass Hfuel.
  assert (E : iter_history None None fuel history = (first :: rest, Finished)).
  { inversion Hloads as [| ? line parts s more states Eparse Eload Hmore];
      subst.
    destruct fuel as [|fuel]; [simpl in Hfuel; lia |].
    rewrite (iter_history_first_turn _ _ _ _ _ _ _ Eparse Eload).
    apply loop_to_the_end; try assumption.
    - discriminate.
    - simpl in Hfuel. lia. }
  split; [exact E |].
  unfold Loader.load_history. rewrite E, last_cons. reflexivity.
Qed.

(** X12: with a version_id cutoff that the history reaches, [load_history]
    returns the first state of that version, the states after it are
    neither checked nor yielded, and the time of creation is the
    timestamp of the first state of the history. *)
Theorem load_history_at_version : forall k history before x after fuel,
  loads None history (before ++ x :: after)%list ->
  (forall y, In y before -> version_id_of y <> k) ->
  version_id_of x = k ->
  checks_pass (before ++ [x]) ->
  (List.length history < fuel)%nat ->
  load_history (Some k) None fuel history
  = Some (Ok (x, metadata (hd x before) x)).
Proof.
  intros k history before x after fuel Hloads Hbefore Hx Hpass Hfuel.
  unfold Loader.load_history.
  rewrite (version_cutoff_met _ _ _ _ _ _ _ verify_state k history before x
             after fuel Hloads Hbefore Hx Hpass Hfuel).
  destruct before as [|b before]; [reflexivity |].
  cbn [app hd]. rewrite last_cons, last_last. reflexivity.
Qed.

(** X13: with a time cutoff, on a history whose states are dated at or
    before the cutoff up to some line and after it from the next,
    [load_history] returns the last state dated at or before the cutoff;
    when the first state is already dated after it, the error for the time
    cutoff is raised. *)
Theorem load_history_at_time : forall T history before after fuel,
  loads None history (before ++ after)%list ->
  (forall y, In y before -> datetime_ltb T (timestamp_of y) = false) ->
  match after with
  | [] => True
  | y :: _ => datetime_ltb T (timestamp_of y) = true
  end ->
  checks_pass before ->
  history <> [] ->
  (List.length history < fuel)%nat ->
  load_history None (Some T) fuel history
  = match before with
    | [] => Some (Raise (ValueError "Cannot resolve versionTime"))
    | first :: rest =>
        Some (Ok (last rest first, metadata first (last rest first)))
    end.
Proof.
  intros T history before after fuel Hloads Hbefore Hafter Hpass Hne Hfuel.
  unfold Loader.load_history.
  rewrite (time_cutoff _ _ _ _ _ _ _ verify_state T history before after fuel
             Hloads Hbefore Hafter Hpass Hne Hfuel).
  destruct before as [|first rest]; [reflexivity |].
  rewrite last_cons. reflexivity.
Qed.

(** ** A line that is not JSON *)

Lemma loop_bad_line : forall pre bad post s states prev st fuel,
  loads (Some s) pre states ->
  json_loads bad = None ->
  checks_pass (removelast (s :: states)) ->
  (List.length pre < fuel)%nat ->
  loop None None fuel
    {| prev_state := prev; state := st; next_state := Some s;
       history := (pre ++ bad :: post)%list; done := false |}
  = (removelast (s :: states), Raised (ValueError "Invalid history JSON")).
Proof.
  induction pre as [|line pre IH];
    intros bad post s states prev st fuel Hloads Ebad Hpass Hfuel;
    (destruct fuel as [|fuel]; [simpl in Hfuel; lia |]);
    inversion Hloads as [| ? ? parts s' ? states' Eparse Eload Hmore]; subst;
    rewrite loop_turn by reflexivity.
  - unfold Loader.turn. cbn [next_state history app].
    rewrite Ebad. reflexivity.
  - change (removelast (s :: s' :: states'))
      with (s :: removelast (s' :: states')) in *.
    cbn [app].
    erewrite turn_yields with (late := false) (next := Some s').
    + cbn [orb].
      erewrite IH; [reflexivity | exact Hmore | exact Ebad | |].
      * intros y Hy. apply Hpass. now right.
      * simpl in Hfuel. lia.
    + eexists _, _. repeat split; eassumption.
    + intros y [<- | []]. apply Hpass. now left.
Qed.

(** X14: a line that is not JSON ends the iteration with the error for
    invalid history JSON before the state of the line before it is
    yielded: of the states loaded from the lines before the bad line, all
    but the last are yielded, and [load_history] raises the error. *)
Theorem bad_line_hides_last_state : forall pre bad post states fuel,
  loads None pre states ->
  json_loads bad = None ->
  checks_pass (removelast states) ->
  (List.length pre < fuel)%nat ->
  iter_history None None fuel (pre ++ bad :: post)
  = (removelast states, Raised (ValueError "Invalid history JSON"))
  /\ load_history None None fuel (pre ++ bad :: post)
     = Some (Raise (ValueError "Invalid history JSON")).
Proof.
  intros pre bad post states fuel Hloads Ebad Hpass Hfuel.
  assert (E : iter_history None None fuel (pre ++ bad :: post)
              = (removelast states,
                 Raised (ValueError "Invalid history JSON"))).
  { destruct fuel as [|fuel]; [lia |].
    inversion Hloads as [| ? line parts s more states' Eparse Eload Hmore];
      subst.
    - unfold Loader.iter_history. rewrite loop_turn by reflexivity.
      unfold Loader.turn. cbn [initial_vars next_state history app].
      rewrite Ebad. reflexivity.
    - cbn [app].
      rewrite (iter_history_first_turn _ _ _ _ _ _ _ Eparse Eload).
      apply loop_bad_line; try assumption. simpl in Hfuel. lia. }
  split; [exact E |].
  unfold Loader.load_history. rewrite E. reflexivity.
Qed.

End LoaderRuns.

(** * Properties of the writing side of [python/manage.py] *)

Section WriterFacts.
Context `{KeyLibs}.
Import Py Manage Spec Reading Writer.

Lemma line_not_empty : forall s, s ++ newline <> "".
Proof. intros [|c s]; discriminate. Qed.

Lemma find_put_dir : forall path d fs, find_dir path (put_dir path d fs) = Some d.
Proof.
  intros path d fs. induction fs as [|[p d'] fs IH]; simpl.
  - now rewrite String.eqb_refl.
  - destruct (String.eqb p path) eqn:E; simpl; rewrite E; [reflexivity | exact IH].
Qed.

Lemma find_put_dir_other : forall path path' d fs,
  path <> path' -> find_dir path (put_dir path' d fs) = find_dir path fs.
Proof.
  intros path path' d fs Hne. induction fs as [|[p d'] fs IH]; simpl.
  - destruct (String.eqb_spec path' path); [congruence | reflexivity].
  - destruct (String.eqb_spec p path') as [-> | Hp]; simpl.
    + destruct (String.eqb_spec path' path); [congruence | reflexivity].
    + destruct (String.eqb p path); [reflexivity | exact IH].
Qed.

(** ** The header *)

(** X15: the log that [init_log] writes is one header line, and the hash
    it returns is the one from which [load_log] starts the chain on that
    line; the log is accepted as a log without entries.  The line is read
    as it was written when [json.loads] gives back the header that
    [json.dumps] has made text. *)
Theorem init_log_read_back : forall dir vh vs,
  json_loads (json_dumps log_header ++ newline) = Some log_header ->
  exists first,
    log (snd (init_log dir)) = Some [first]
    /\ load_header first = Ok (JStr (fst (init_log dir)))
    /\ JStr (fst (init_log dir)) = seed_hash
    /\ load_log [first] vh vs = ([], None)
    /\ did_json (snd (init_log dir)) = did_json dir
    /\ store (snd (init_log dir)) = store dir.
Proof.
  intros dir vh vs Elaw.
  exists (json_dumps log_header ++ newline).
  assert (Eheader : load_header (json_dumps log_header ++ newline)
                    = Ok (JStr (fst (init_log dir)))).
  { unfold load_header. rewrite Elaw. cbn [or_raise bind log_header].
    rewrite !eq_str_refl. cbn [negb raise_if bind].
    replace (encode_ascii BASE_PROTO)
      with (Some (list_byte_of_string BASE_PROTO))
      by (vm_compute; reflexivity).
    reflexivity. }
  split; [reflexivity |]. split; [exact Eheader |].
  split; [reflexivity |]. split; [| now split].
  unfold load_log. rewrite Eheader. reflexivity.
Qed.

(** ** An entry written and read *)

Lemma log_entry_ok : forall now document prev_document prev version_id
  timestamp sk entry,
  log_entry now document prev_document prev version_id timestamp sk
  = Ok entry ->
  exists d id proof,
    document = JObj d /\ dict_get "id" d = JStr id
    /\ eddsa_sign now d sk
         (log_line_hash prev (JInt version_id) (JStr timestamp)
            (make_patch prev_document document)) = Ok proof
    /\ entry = JArr [JStr (log_line_hash prev (JInt version_id)
                             (JStr timestamp)
                             (make_patch prev_document document));
                     JInt version_id; JStr timestamp;
                     make_patch prev_document document; JArr [JObj proof]].
Proof.
  intros now document prev_document prev version_id timestamp sk entry E.
  unfold log_entry in E. step_ok E as proof Eproof.
  destruct document as [| | | | | d]; try discriminate.
  injection E as <-. exists d.
  pose proof Eproof as Esign. unfold eddsa_sign in Eproof.
  step_ok Eproof as idj Eid. apply or_raise_ok in Eid.
  step_ok Eproof as id Eid'.
  destruct idj as [| | | s | |]; try discriminate. injection Eid' as <-.
  exists s, proof. repeat split; [| exact Esign].
  unfold dict_get, dict_get_default. now rewrite Eid.
Qed.

(** The entry that the writer makes is accepted by the reader that holds
    the previous document and hash, signatures apart, when the patch gives
    the document back and the document has the identifier and a controller
    member that the reader accepts. *)
Lemma written_entry_accepted : forall st document d id prev_document prev
  version_id timestamp proofs,
  doc st = prev_document ->
  Manage.prev_hash st = prev ->
  apply_patch prev_document (make_patch prev_document document)
  = Some document ->
  document = JObj d ->
  dict_get "id" d = JStr id ->
  (if index st =? 1
   then exists d', update_scid document None = Ok (id, d')
   else doc_id st = Some id) ->
  controller_shape (dict_get "controller" d) = true ->
  exists st',
    load_entry true false st
      (JArr [JStr (log_line_hash prev version_id timestamp
                     (make_patch prev_document document));
             version_id; timestamp; make_patch prev_document document;
             proofs])
    = Ok ({| it_index := index st;
             it_hash := JStr (log_line_hash prev version_id timestamp
                                (make_patch prev_document document));
             it_doc := document |}, st')
    /\ index st' = index st + 1 /\ doc st' = document
    /\ Manage.prev_hash st'
       = JStr (log_line_hash prev version_id timestamp
                 (make_patch prev_document document))
    /\ doc_id st' = Some id.
Proof.
  intros st document d id prev_document prev version_id timestamp proofs
    Edoc Eprev Epatch -> Eid Hid Hshape.
  subst prev_document prev.
  apply load_entry_unsigned with (cid := id); auto.
Qed.

Lemma write_document_ok :
  forall now dir document prev_document prev version_id timestamp sk dir',
    write_document now dir document prev_document prev version_id timestamp
      sk = Ok dir' ->
    exists d id proof entry,
      document = JObj d /\ dict_get "id" d = JStr id
      /\ log_entry now document prev_document prev version_id timestamp sk
         = Ok entry
      /\ entry = JArr [JStr (log_line_hash prev (JInt version_id)
                               (JStr timestamp)
                               (make_patch prev_document document));
                       JInt version_id; JStr timestamp;
                       make_patch prev_document document; JArr [JObj proof]]
      /\ log dir'
         = Some (match log dir with Some lines => lines | None => [] end
                 ++ [(json_dumps entry ++ newline)%string])%list
      /\ did_json dir' = Some (json_dumps_indent document ++ newline)
      /\ store dir' = store dir.
Proof.
  intros now dir document prev_document prev version_id timestamp sk dir' E.
  unfold write_document in E. step_ok E as entry Eentry.
  injection E as <-.
  destruct (log_entry_ok _ _ _ _ _ _ _ _ Eentry)
    as (d & id & proof & Edoc & Eid & _ & Eshape).
  exists d, id, proof, entry. repeat split; assumption.
Qed.

(** The line of a written entry, read by the reader that holds the
    previous document and hash. *)
Lemma written_line_read : forall st document d id prev_document prev
  version_id timestamp proofs line,
  json_loads line
  = Some (JArr [JStr (log_line_hash prev version_id timestamp
                        (make_patch prev_document document));
                version_id; timestamp; make_patch prev_document document;
                proofs]) ->
  line <> "" ->
  doc st = prev_document ->
  Manage.prev_hash st = prev ->
  apply_patch prev_document (make_patch prev_document document)
  = Some document ->
  document = JObj d ->
  dict_get "id" d = JStr id ->
  (if index st =? 1
   then exists d', update_scid document None = Ok (id, d')
   else doc_id st = Some id) ->
  controller_shape (dict_get "controller" d) = true ->
  exists st',
    load_lines true false st [line]
    = ([{| it_index := index st;
           it_hash := JStr (log_line_hash prev version_id timestamp
                              (make_patch prev_document document));
           it_doc := document |}], Ok st')
    /\ index st' = index st + 1 /\ doc st' = document.
Proof.
  intros st document d id prev_document prev version_id timestamp proofs line
    Eloads Hline Est Eprev Epatch Edoc Eid Hid Hshape.
  destruct (written_entry_accepted st document d id prev_document prev
              version_id timestamp proofs Est Eprev Epatch Edoc Eid Hid
              Hshape)
    as (st' & Eread & Hindex & Hdoc & _).
  exists st'. split; [| now split].
  cbn [load_lines]. apply String.eqb_neq in Hline. rewrite Hline.
  rewrite Eloads. cbn [or_raise bind]. rewrite Eread. reflexivity.
Qed.

(** X16: [write_document] appends one line to the log, the entry whose log
    hash is [log_line_hash] of the previous hash, the version_id, the
    timestamp and the patch from the previous document, and writes the
    document to [did.json]; it leaves the lines before and the key store
    as they are.  The reader that holds the previous document and hash
    accepts the line with hash verification on, signatures apart, and
    yields the document written, when [json.loads] reads the line as
    written, the patch gives the document back and the document has the
    identifier and a controller member that the reader accepts. *)
Theorem written_entry_read_back :
  forall now dir document prev_document prev version_id timestamp sk dir',
    write_document now dir document prev_document prev version_id timestamp
      sk = Ok dir' ->
    (exists d id entry,
       document = JObj d /\ dict_get "id" d = JStr id
       /\ log_entry now document prev_document prev version_id timestamp sk
          = Ok entry
       /\ log dir'
          = Some (match log dir with Some lines => lines | None => [] end
                  ++ [(json_dumps entry ++ newline)%string])%list
       /\ did_json dir' = Some (json_dumps_indent document ++ newline)
       /\ store dir' = store dir)
    /\
    (forall st before line d id proofs,
       log dir' = Some (before ++ [line])%list ->
       document = JObj d ->
       dict_get "id" d = JStr id ->
       json_loads line
       = Some (JArr [JStr (log_line_hash prev (JInt version_id)
                             (JStr timestamp)
                             (make_patch prev_document document));
                     JInt version_id; JStr timestamp;
                     make_patch prev_document document; proofs]) ->
       apply_patch prev_document (make_patch prev_document document)
       = Some document ->
       doc st = prev_document ->
       Manage.prev_hash st = prev ->
       (if index st =? 1
        then exists d', update_scid document None = Ok (id, d')
        else doc_id st = Some id) ->
       controller_shape (dict_get "controller" d) = true ->
       exists st',
         load_lines true false st [line]
         = ([{| it_index := index st;
                it_hash :=
                  JStr (log_line_hash prev (JInt version_id)
                          (JStr timestamp)
                          (make_patch prev_document document));
                it_doc := document |}], Ok st')
         /\ index st' = index st + 1
         /\ doc st' = document).
Proof.
  intros now dir document prev_document prev version_id timestamp sk dir' E.
  destruct (write_document_ok _ _ _ _ _ _ _ _ _ E)
    as (d & id & proof & entry & Edoc & Eid & Eentry & Eshape & Elog & Ejson
        & Estore).
  split.
  - exists d, id, entry. repeat split; assumption.
  - intros st before line d' id' proofs Elog' Edoc' Eid' Eloads Epatch Est
      Eprev Hid Hshape.
    rewrite Elog' in Elog. injection Elog as Esame.
    apply app_inj_tail in Esame. destruct Esame as [_ Hline].
    apply (written_line_read st document d' id' prev_document prev
             (JInt version_id) (JStr timestamp) proofs line); try assumption.
    rewrite Hline. apply line_not_empty.
Qed.

(** ** A DID made and read *)

Lemma header_line_read : forall first,
  json_loads first = Some log_header -> load_header first = Ok seed_hash.
Proof.
  intros first Elaw. unfold load_header. rewrite Elaw.
  cbn [or_raise bind log_header].
  rewrite !eq_str_refl. cbn [negb raise_if bind].
  replace (encode_ascii BASE_PROTO)
    with (Some (list_byte_of_string BASE_PROTO))
    by (vm_compute; reflexivity).
  reflexivity.
Qed.

(** X17: a call of [manual_generate_did] that succeeds has derived the
    DID twice with the same result, has made the directory named by the
    DID, which did not exist, and has left the other directories as they
    were; the directory holds the log of the header and one entry, the
    document in [did.json] and a key store with the signing key under its
    name.  [load_log] accepts that log with hash verification on,
    signatures apart, and yields the document as version 1, when the two
    lines are read as written, the patch from nothing gives the document
    and the document carries the DID as its id and a controller member
    that the reader accepts. *)
Theorem generated_did_read_back :
  forall now timestamp document sk pass scid_ver fs fs' doc_dir,
    manual_generate_did now timestamp document sk pass scid_ver fs
    = (fs', Created doc_dir) ->
    (exists doc_v1 dir entry,
       update_scid document scid_ver = Ok (doc_dir, doc_v1)
       /\ (exists again, update_scid doc_v1 None = Ok (doc_dir, again))
       /\ find_dir doc_dir fs = None
       /\ find_dir doc_dir fs' = Some dir
       /\ (forall path,
             path <> doc_dir -> find_dir path fs' = find_dir path fs)
       /\ log_entry now doc_v1 JNull seed_hash 1 timestamp sk = Ok entry
       /\ log dir = Some [json_dumps log_header ++ newline;
                          json_dumps entry ++ newline]
       /\ did_json dir = Some (json_dumps_indent doc_v1 ++ newline)
       /\ store dir = Some {| pass_key := pass;
                              named := [(kid sk, key sk)] |})
    /\
    (forall dir header line d proofs,
       find_dir doc_dir fs' = Some dir ->
       log dir = Some [header; line] ->
       update_scid document scid_ver = Ok (doc_dir, JObj d) ->
       json_loads header = Some log_header ->
       json_loads line
       = Some (JArr [JStr (log_line_hash seed_hash (JInt 1) (JStr timestamp)
                             (make_patch JNull (JObj d)));
                     JInt 1; JStr timestamp; make_patch JNull (JObj d);
                     proofs]) ->
       apply_patch JNull (make_patch JNull (JObj d)) = Some (JObj d) ->
       dict_get "id" d = JStr doc_dir ->
       controller_shape (dict_get "controller" d) = true ->
       load_log [header; line] true false
       = ([{| it_index := 1;
              it_hash := JStr (log_line_hash seed_hash (JInt 1)
                                 (JStr timestamp)
                                 (make_patch JNull (JObj d)));
              it_doc := JObj d |}], None)).
Proof.
  intros now timestamp document sk pass scid_ver fs fs' doc_dir E.
  unfold manual_generate_did in E.
  destruct (update_scid document scid_ver) as [[doc_id doc_v1] | e] eqn:Ederive;
    [| discriminate].
  destruct (update_scid doc_v1 None) as [[check_id again] | e] eqn:Echeck;
    [| discriminate].
  destruct (String.eqb_spec check_id doc_id) as [-> | Hne];
    cbn [negb] in E; [| discriminate].
  destruct (find_dir doc_id fs) eqn:Efree; [discriminate |].
  cbn [init_log empty_directory log did_json versions store] in E.
  match type of E with
  | match ?w with _ => _ end = _ => destruct w as [dir' | e] eqn:Ewrite
  end; [| discriminate].
  injection E as <- <-.
  destruct (write_document_ok _ _ _ _ _ _ _ _ _ Ewrite)
    as (d & id & proof & entry & Edoc & Eid & Eentry & Eshape & Elog & Ejson
        & Estore).
  cbn [log store] in Elog, Estore.
  split.
  - exists doc_v1, dir', entry.
    split; [reflexivity |]. split; [now exists again |].
    split; [exact Efree |]. split; [apply find_put_dir |].
    split; [intros path Hpath; now apply find_put_dir_other |].
    split; [exact Eentry |]. split; [exact Elog |].
    split; [exact Ejson |]. exact Estore.
  - intros dir header line d' proofs Edir Elog' Ev1 Eheader Eline Epatch Eown
      Hshape.
    rewrite find_put_dir in Edir. injection Edir as <-.
    injection Ev1 as ->.
    rewrite Elog' in Elog. injection Elog as -> Hline.
    unfold load_log. rewrite (header_line_read _ Eheader).
    destruct (written_line_read (initial_state seed_hash) (JObj d') d' doc_id
                JNull seed_hash (JInt 1) (JStr timestamp) proofs line Eline)
      as (st' & Eread & Hindex & _); try assumption; try reflexivity.
    + rewrite Hline. apply line_not_empty.
    + cbn [initial_state index Z.eqb Pos.eqb]. now exists again.
    + rewrite Eread. cbn [initial_state index] in Hindex.
      rewrite Hindex. reflexivity.
Qed.

(** ** A new version written and read *)

Lemma count_from_last : forall k n d,
  last (count_from n (S k)) d = n + Z.of_nat k.
Proof.
  induction k as [|k IH]; intros n d.
  - simpl. lia.
  - change (count_from n (S (S k))) with (n :: count_from (n + 1) (S k)).
    rewrite last_cons, IH. lia.
Qed.

(** The variables at the end of an accepted run that has yielded an
    item. *)
Lemma load_lines_doc_id : forall vh vs lines st items st',
  load_lines vh vs st lines = (items, Ok st') ->
  items <> []
  \/ (exists d id, doc st = JObj d /\ dict_get "id" d = JStr id
                   /\ doc_id st = Some id) ->
  exists d id, doc st' = JObj d /\ dict_get "id" d = JStr id
               /\ doc_id st' = Some id.
Proof.
  intros vh vs lines st.
  pattern st, lines, (load_lines vh vs st lines).
  apply load_lines_cases; clear st lines.
  - intros st items st' E Hq. injection E as <- <-.
    destruct Hq as [Hne | Hq]; [contradiction | exact Hq].
  - auto.
  - discriminate.
  - discriminate.
  - intros st line rest parts it st1 items r _ _ Eentry _ IH items' st' E _.
    injection E as _ ->.
    apply (IH _ _ eq_refl). right.
    apply load_entry_ok in Eentry.
    destruct Eentry as (h & v & t & p & pr & d & cid & _ & _ & _ & Eget & _
                        & _ & _ & _ & _ & Ed & _ & Edid).
    now exists d, cid.
Qed.

(** What the reader holds at the end of an accepted log. *)
Lemma accepted_log_end : forall history vs before latest,
  load_log history true vs = ((before ++ [latest])%list, None) ->
  exists first lines st d id,
    history = first :: lines
    /\ load_header first = Ok seed_hash
    /\ load_lines true vs (initial_state seed_hash) lines
       = ((before ++ [latest])%list, Ok st)
    /\ index st = Z.of_nat (List.length before) + 2
    /\ it_index latest = Z.of_nat (List.length before) + 1
    /\ doc st = it_doc latest
    /\ Manage.prev_hash st = it_hash latest
    /\ it_doc latest = JObj d /\ dict_get "id" d = JStr id
    /\ doc_id st = Some id.
Proof.
  intros history vs before latest E. unfold load_log in E.
  destruct history as [|first lines]; [discriminate |].
  destruct (load_header first) as [seed | e] eqn:Eheader; [| discriminate].
  pose proof (load_header_ok _ _ Eheader) as ->.
  destruct (load_lines true vs (initial_state seed_hash) lines)
    as [items [st | e]] eqn:Erun; [| discriminate].
  injection E as -> _.
  destruct (load_lines_end _ _ _ _ _ _ Erun) as (Hindex & Hdoc & Hprev).
  pose proof (load_lines_index _ _ _ _ _ _ Erun) as Hcount.
  destruct (load_lines_doc_id _ _ _ _ _ _ Erun) as (d & id & Ed & Eid & Edid).
  { left. now destruct before. }
  rewrite map_app in Hdoc, Hprev, Hcount. cbn [map] in Hdoc, Hprev, Hcount.
  rewrite last_last in Hdoc, Hprev.
  rewrite length_app in Hindex, Hcount.
  cbn [List.length initial_state index] in Hindex, Hcount.
  assert (Hlatest : it_index latest = Z.of_nat (List.length before) + 1).
  { apply (f_equal (fun l => last l 0)) in Hcount.
    rewrite last_last, Nat.add_1_r, count_from_last in Hcount.
    lia. }
  exists first, lines, st, d, id.
  repeat split; try assumption; try reflexivity; try lia; congruence.
Qed.

Lemma load_log_relax : forall history vh vs items,
  load_log history vh vs = (items, None) ->
  load_log history vh false = (items, None).
Proof.
  intros history vh vs items E. unfold load_log in *.
  destruct history as [|first lines]; [discriminate |].
  destruct (load_header first) as [seed | e0]; [| discriminate].
  destruct (load_lines vh vs (initial_state seed) lines)
    as [items' [st1 | e1]] eqn:Erun; [| discriminate].
  destruct (load_lines_relax vh vs vh false (fun E0 => E0)
              ltac:(discriminate) _ _ _ _ _
              (same_track_refl false (initial_state seed)) Erun)
    as (more & r' & -> & Hend).
  destruct (Hend st1 eq_refl) as (-> & st2' & -> & Htrack).
  destruct Htrack as (<- & _). rewrite app_nil_r.
  destruct (index st1 =? 0); [discriminate |].
  injection E as <-. reflexivity.
Qed.

Lemma signing_kid_ok : forall members kid,
  signing_kid members = Ok kid -> kid <> "".
Proof.
  intros members kid E. unfold signing_kid in E.
  step_ok E as vmethods Evm. step_ok E as found Efound.
  destruct found as [[|c s] |]; try discriminate.
  injection E as <-. discriminate.
Qed.

Lemma from_key_named : forall k c s sk,
  from_key k (Some (String c s)) = Ok sk ->
  kid sk = String c s /\ key sk = k.
Proof.
  intros k c s sk E. unfold from_key in E.
  destruct (key_is_ed25519 k); [| discriminate].
  injection E as <-. now split.
Qed.

(** What a call of [update_document] that succeeds has read, found and
    written. *)
Lemma update_document_ok : forall now timestamp dir_path pass fs document fs',
  update_document now timestamp dir_path pass fs = Ok (document, fs') ->
  exists dir text history before latest keys sk dir',
    find_dir dir_path fs = Some dir
    /\ did_json dir = Some text
    /\ log dir = Some history
    /\ load_log history true true = ((before ++ [latest])%list, None)
    /\ json_loads text = Some document
    /\ store dir = Some {| pass_key := pass; named := keys |}
    /\ kid sk <> "" /\ fetch_key (kid sk) keys = Some (key sk)
    /\ write_document now dir document (it_doc latest) (it_hash latest)
         (it_index latest + 1) timestamp sk = Ok dir'
    /\ fs' = put_dir dir_path dir' fs.
Proof.
  intros now timestamp dir_path pass fs document fs' E.
  unfold update_document in E.
  step_ok E as dir Edir. apply or_raise_ok in Edir.
  step_ok E as text Etext. apply or_raise_ok in Etext.
  step_ok E as history Ehistory. apply or_raise_ok in Ehistory.
  destruct (load_log history true true) as [items raised] eqn:Eload.
  step_ok E as u Eraised.
  destruct raised as [e |]; [discriminate |].
  step_ok E as latest Elatest.
  destruct (rev items) as [|it r] eqn:Erev; [discriminate |].
  injection Elatest as ->.
  assert (Eitems : items = (rev r ++ [latest])%list).
  { rewrite <- (rev_involutive items), Erev. reflexivity. }
  step_ok E as loaded Eloaded. apply or_raise_ok in Eloaded.
  step_ok E as members Emembers.
  destruct loaded as [| | | | | m]; try discriminate.
  injection Emembers as <-.
  step_ok E as name Ename.
  step_ok E as keys Ekeys.
  destruct (store dir) as [[pass0 keys0] |] eqn:Estore; [| discriminate].
  cbn [Writer.pass_key named] in Ekeys.
  destruct (String.eqb_spec pass0 pass) as [-> | Hpass]; [| discriminate].
  injection Ekeys as <-.
  step_ok E as k Ek. apply or_raise_ok in Ek.
  step_ok E as sk Esk.
  step_ok E as dir' Ewrite.
  injection E as <- <-.
  pose proof (signing_kid_ok _ _ Ename) as Hname.
  destruct name as [|c s]; [contradiction |].
  destruct (from_key_named _ _ _ _ Esk) as [Ekid Ekey].
  exists dir, text, history, (rev r), latest, keys0, sk, dir'.
  rewrite Ekid, Ekey, <- Eitems.
  repeat split; try assumption; try discriminate.
Qed.

(** An entry whose document has another id than the log is refused for
    it, after the hash check. *)
Lemma changed_id_refused : forall vs st document d id held prev_document
  prev version_id timestamp proofs,
  doc st = prev_document ->
  Manage.prev_hash st = prev ->
  apply_patch prev_document (make_patch prev_document document)
  = Some document ->
  document = JObj d ->
  dict_get "id" d = JStr id ->
  index st <> 1 ->
  doc_id st = Some held ->
  id <> held ->
  load_entry true vs st
    (JArr [JStr (log_line_hash prev version_id timestamp
                   (make_patch prev_document document));
           version_id; timestamp; make_patch prev_document document;
           proofs])
  = Raise (RuntimeError "Invalid log: document ID has changed").
Proof.
  intros vs st document d id held prev_document prev version_id timestamp
    proofs Edoc Eprev Epatch -> Eid Hindex Eheld Hne.
  subst prev_document prev.
  unfold load_entry. rewrite Epatch. cbn [or_raise bind].
  rewrite eq_str_refl. cbn [negb raise_if bind]. rewrite Eid. cbn [bind].
  apply Z.eqb_neq in Hindex. rewrite Hindex, Eheld.
  apply String.eqb_neq in Hne. rewrite Hne. reflexivity.
Qed.

(** What the log of the directory is after a call of [update_document]
    that succeeds, named from the files. *)
Lemma updated_log : forall now timestamp dir_path pass fs document fs' dir'
  history line before latest,
  update_document now timestamp dir_path pass fs = Ok (document, fs') ->
  find_dir dir_path fs' = Some dir' ->
  log dir' = Some (history ++ [line])%list ->
  load_log history true true = ((before ++ [latest])%list, None) ->
  exists d id proof,
    document = JObj d /\ dict_get "id" d = JStr id
    /\ line
       = json_dumps
           (JArr [JStr (log_line_hash (it_hash latest)
                          (JInt (it_index latest + 1)) (JStr timestamp)
                          (make_patch (it_doc latest) document));
                  JInt (it_index latest + 1); JStr timestamp;
                  make_patch (it_doc latest) document; JArr [JObj proof]])
         ++ newline
    /\ did_json dir' = Some (json_dumps_indent document ++ newline).
Proof.
  intros now timestamp dir_path pass fs document fs' dir' history line before
    latest E Edir' Elog' Eload'.
  destruct (update_document_ok _ _ _ _ _ _ _ E)
    as (dir & text & history0 & before0 & latest0 & keys & sk & dir0 & Edir
        & Etext & Ehistory & Eload & Eloaded & Estore & Hkid & Ekey & Ewrite
        & ->).
  rewrite find_put_dir in Edir'. injection Edir' as <-.
  destruct (write_document_ok _ _ _ _ _ _ _ _ _ Ewrite)
    as (d & id & proof & entry & Edoc & Eid & Eentry & Eshape & Elog & Ejson
        & Estore').
  rewrite Ehistory, Elog' in Elog. injection Elog as Esame.
  apply app_inj_tail in Esame. destruct Esame as [-> ->].
  rewrite Eload' in Eload. injection Eload as Esame.
  apply app_inj_tail in Esame. destruct Esame as [<- <-].
  subst entry. now exists d, id, proof.
Qed.

(** X18: a call of [update_document] that succeeds has found the log of
    the directory accepted with both verifications on and appends one
    entry to it, from the last document of the log to the document read
    from [did.json], chained on the last log hash, with the version_id
    that follows the count of the entries and signed by a key of the
    store; it rewrites [did.json] and leaves the key store and the other
    directories as they are.  [load_log] then accepts the longer log with
    hash verification on, signatures apart, and yields the document as the
    next version, when the new line is read as written, the patch gives
    the document and the document keeps the id of the log and has a
    controller member that the reader accepts. *)
Theorem update_appends_version :
  forall now timestamp dir_path pass fs document fs',
    update_document now timestamp dir_path pass fs = Ok (document, fs') ->
    (exists dir dir' history before latest d id keys sk entry,
       find_dir dir_path fs = Some dir
       /\ log dir = Some history
       /\ load_log history true true = ((before ++ [latest])%list, None)
       /\ it_index latest = Z.of_nat (List.length before) + 1
       /\ document = JObj d /\ dict_get "id" d = JStr id
       /\ store dir = Some {| pass_key := pass; named := keys |}
       /\ fetch_key (kid sk) keys = Some (key sk)
       /\ log_entry now document (it_doc latest) (it_hash latest)
            (Z.of_nat (List.length before) + 2) timestamp sk = Ok entry
       /\ find_dir dir_path fs' = Some dir'
       /\ (forall path,
             path <> dir_path -> find_dir path fs' = find_dir path fs)
       /\ log dir'
          = Some (history ++ [(json_dumps entry ++ newline)%string])%list
       /\ did_json dir' = Some (json_dumps_indent document ++ newline)
       /\ store dir' = store dir)
    /\
    (forall dir' history line before latest d id proofs,
       find_dir dir_path fs' = Some dir' ->
       log dir' = Some (history ++ [line])%list ->
       load_log history true true = ((before ++ [latest])%list, None) ->
       document = JObj d ->
       dict_get "id" d = JStr id ->
       json_loads line
       = Some (JArr [JStr (log_line_hash (it_hash latest)
                             (JInt (it_index latest + 1)) (JStr timestamp)
                             (make_patch (it_doc latest) document));
                     JInt (it_index latest + 1); JStr timestamp;
                     make_patch (it_doc latest) document; proofs]) ->
       apply_patch (it_doc latest) (make_patch (it_doc latest) document)
       = Some document ->
       (exists dl, it_doc latest = JObj dl /\ dict_get "id" dl = JStr id) ->
       controller_shape (dict_get "controller" d) = true ->
       load_log (history ++ [line])%list true false
       = ((before
           ++ [latest;
               {| it_index := it_index latest + 1;
                  it_hash :=
                    JStr (log_line_hash (it_hash latest)
                            (JInt (it_index latest + 1)) (JStr timestamp)
                            (make_patch (it_doc latest) document));
                  it_doc := document |}])%list, None)).
Proof.
  intros now timestamp dir_path pass fs document fs' E. split.
  - destruct (update_document_ok _ _ _ _ _ _ _ E)
      as (dir & text & history & before & latest & keys & sk & dir' & Edir
          & Etext & Ehistory & Eload & Eloaded & Estore & Hkid & Ekey & Ewrite
          & ->).
    destruct (write_document_ok _ _ _ _ _ _ _ _ _ Ewrite)
      as (d & id & proof & entry & Edoc & Eid & Eentry & Eshape & Elog & Ejson
          & Estore').
    rewrite Ehistory in Elog.
    destruct (accepted_log_end _ _ _ _ Eload)
      as (first & lines & st & dl & idl & _ & _ & _ & _ & Hlatest & _).
    replace (it_index latest + 1) with (Z.of_nat (List.length before) + 2)
      in * by lia.
    exists dir, dir', history, before, latest, d, id, keys, sk, entry.
    split; [exact Edir |]. split; [exact Ehistory |]. split; [exact Eload |].
    split; [exact Hlatest |]. split; [exact Edoc |]. split; [exact Eid |].
    split; [exact Estore |]. split; [exact Ekey |]. split; [exact Eentry |].
    split; [apply find_put_dir |].
    split; [intros path Hpath; now apply find_put_dir_other |].
    split; [exact Elog |]. split; [exact Ejson |]. exact Estore'.
  - intros dir' history line before latest d id proofs Edir' Elog' Eload Edoc
      Eid Eline Epatch (dl & Edl & Eidl) Hshape.
    destruct (updated_log _ _ _ _ _ _ _ _ _ _ _ _ E Edir' Elog' Eload)
      as (d1 & id1 & proof & _ & _ & Hline & _).
    apply load_log_relax in Eload.
    destruct (accepted_log_end _ _ _ _ Eload)
      as (first & lines & st & d0 & id0 & -> & Eheader & Erun & Hindex
          & Hlatest & Hdoc & Hprev & Ed0 & Eid0 & Edid).
    assert (id0 = id) as -> by congruence.
    destruct (written_line_read st document d id (it_doc latest)
                (it_hash latest) (JInt (it_index latest + 1))
                (JStr timestamp) proofs line Eline)
      as (st2 & Eread & Hindex2 & _); try assumption.
    + rewrite Hline. apply line_not_empty.
    + replace (index st =? 1) with false
        by (symmetry; apply Z.eqb_neq; lia).
      exact Edid.
    + unfold load_log. cbn [app]. rewrite Eheader.
      rewrite (load_lines_app _ _ _ _ _ _ _ Erun), Eread. cbn [fst snd].
      replace (index st2 =? 0) with false
        by (symmetry; apply Z.eqb_neq; lia).
      replace (index st) with (it_index latest + 1) by lia.
      rewrite <- app_assoc. reflexivity.
Qed.

(** X19: [update_document] does not compare the id of the document it
    writes with the id of the log.  When the document read from [did.json]
    has another id than the last document of the log, a call that succeeds
    has appended an entry that [load_log] refuses, with hash verification
    on and whatever the other flag, with the error for a changed document
    id, after it has yielded the versions before; so every later call of
    [update_document] on the directory raises that error.  The new line is
    taken to be read as written and the patch to give the document. *)
Theorem update_does_not_keep_id :
  forall now timestamp dir_path pass fs document fs' dir' history line before
    latest d id dl held proofs,
    update_document now timestamp dir_path pass fs = Ok (document, fs') ->
    find_dir dir_path fs' = Some dir' ->
    log dir' = Some (history ++ [line])%list ->
    load_log history true true = ((before ++ [latest])%list, None) ->
    document = JObj d ->
    dict_get "id" d = JStr id ->
    it_doc latest = JObj dl ->
    dict_get "id" dl = JStr held ->
    id <> held ->
    json_loads line
    = Some (JArr [JStr (log_line_hash (it_hash latest)
                          (JInt (it_index latest + 1)) (JStr timestamp)
                          (make_patch (it_doc latest) document));
                  JInt (it_index latest + 1); JStr timestamp;
                  make_patch (it_doc latest) document; proofs]) ->
    apply_patch (it_doc latest) (make_patch (it_doc latest) document)
    = Some document ->
    (forall vs,
       load_log (history ++ [line])%list true vs
       = ((before ++ [latest])%list,
          Some (RuntimeError "Invalid log: document ID has changed")))
    /\ forall now' timestamp' pass',
         update_document now' timestamp' dir_path pass' fs'
         = Raise (RuntimeError "Invalid log: document ID has changed").
Proof.
  intros now timestamp dir_path pass fs document fs' dir' history line before
    latest d id dl held proofs E Edir' Elog' Eload Edoc Eid Edl Eheld Hne
    Eline Epatch.
  destruct (updated_log _ _ _ _ _ _ _ _ _ _ _ _ E Edir' Elog' Eload)
    as (d1 & id1 & proof & _ & _ & Hline & Ejson).
  assert (Hrefused : forall vs,
    load_log (history ++ [line])%list true vs
    = ((before ++ [latest])%list,
       Some (RuntimeError "Invalid log: document ID has changed"))).
  { intro vs.
    assert (Eacc : load_log history true vs
                   = ((before ++ [latest])%list, None)).
    { destruct vs; [exact Eload | exact (load_log_relax _ _ _ _ Eload)]. }
    destruct (accepted_log_end _ _ _ _ Eacc)
      as (first & lines & st & d0 & id0 & -> & Eheader & Erun & Hindex & _
          & Hdoc & Hprev & Ed0 & Eid0 & Edid).
    assert (d0 = dl) as -> by congruence.
    assert (id0 = held) as -> by congruence.
    unfold load_log. cbn [app]. rewrite Eheader.
    rewrite (load_lines_app _ _ _ _ _ _ _ Erun).
    cbn [load_lines].
    replace (String.eqb line "") with false
      by (symmetry; apply String.eqb_neq; rewrite Hline;
          apply line_not_empty).
    rewrite Eline. cbn [or_raise bind].
    rewrite (changed_id_refused vs st document d id held (it_doc latest)
               (it_hash latest) _ _ _ Hdoc Hprev Epatch Edoc Eid);
      [| lia | exact Edid | exact Hne].
    cbn [fst snd]. rewrite app_nil_r. reflexivity. }
  split; [exact Hrefused |].
  intros now' timestamp' pass'. unfold update_document.
  rewrite Edir'. cbn [or_raise bind].
  rewrite Ejson, Elog'. cbn [or_raise bind].
  rewrite (Hrefused true). reflexivity.
Qed.

End WriterFacts.

(** ** The genesis document *)

Section GenesisFacts.
Context `{KeyLibs}.
Import Py Manage Spec Reading Writer.

Lemma append_inj_left : forall p a b : string, p ++ a = p ++ b -> a = b.
Proof.
  induction p as [|c p IH]; intros a b E; [exact E |].
  simpl in E. injection E as E. now apply IH.
Qed.

Lemma prefix_append : forall p s : string, String.prefix p (p ++ s) = true.
Proof.
  induction p as [|c p IH]; intro s; cbn [append String.prefix];
    [now destruct s |].
  destruct (ascii_dec c c); [apply IH | contradiction].
Qed.

Lemma append_assoc_string : forall a b c : string,
  (a ++ b) ++ c = a ++ b ++ c.
Proof.
  induction a as [|x a IH]; intros b c; simpl; [reflexivity |].
  now rewrite IH.
Qed.

Lemma plain_name : forall id s : string,
  id <> "" -> startswith "#" id = false -> startswith "#" (id ++ s) = false.
Proof.
  intros [|c id] s Hne Hplain; [contradiction |].
  unfold startswith in *. cbn [append String.prefix] in *.
  destruct (ascii_dec "#" c); [| reflexivity].
  destruct id; discriminate Hplain.
Qed.

Lemma local_name : forall id s : string,
  startswith (id ++ "#") (id ++ "#" ++ s) = true.
Proof.
  intros id s. unfold startswith.
  rewrite <- (append_assoc_string id "#" s). apply prefix_append.
Qed.

(** the turn of the loop of [genesis_document] *)
Local Notation genesis_turn id :=
  (fun vm (lists : list json * list json) =>
     method <- genesis_method id vm ;;
     let name := id ++ "#" ++ kid vm in
     Ok ((fst lists ++ [JStr name])%list, (snd lists ++ [method])%list)).

Lemma genesis_loop : forall id keys auths0 methods0 auths methods,
  for_each keys (genesis_turn id) (auths0, methods0) = Ok (auths, methods) ->
  exists made,
    Forall2 (fun vm method => genesis_method id vm = Ok method) keys made
    /\ auths
       = (auths0 ++ map (fun vm => JStr (id ++ "#" ++ kid vm)) keys)%list
    /\ methods = (methods0 ++ made)%list.
Proof.
  intros id. induction keys as [|vm keys IH];
    intros auths0 methods0 auths methods E.
  - simpl in E. injection E as <- <-. exists [].
    rewrite !app_nil_r. now repeat split.
  - cbn [for_each] in E. step_ok E as next Enext.
    step_ok Enext as method Emethod. injection Enext as <-.
    cbn [fst snd] in E.
    destruct (IH _ _ _ _ E) as (made & Hmade & -> & ->).
    exists (method :: made). cbn [map].
    rewrite <- !app_assoc. repeat split. now constructor.
Qed.

Lemma genesis_method_shape : forall id vm method,
  genesis_method id vm = Ok method ->
  exists rest, method = JObj (("id", JStr (id ++ "#" ++ kid vm)) :: rest).
Proof.
  intros id vm method E. unfold genesis_method in E.
  step_ok E as wrapped Ewrapped. injection E as <-. eexists. reflexivity.
Qed.

Section Named.
Variable id : string.
Hypothesis id_not_empty : id <> "".
Hypothesis id_plain : startswith "#" id = false.

Lemma parse_genesis_method : forall vm method methods,
  genesis_method id vm = Ok method ->
  parse_verification_method method id methods
  = (if dict_mem (id ++ "#" ++ kid vm) methods
     then Raise (RuntimeError "Invalid log: duplicate verification method ID")
     else Ok (id ++ "#" ++ kid vm,
              dict_set (id ++ "#" ++ kid vm) method methods)).
Proof.
  intros vm method methods E.
  destruct (genesis_method_shape _ _ _ E) as (rest & ->).
  unfold parse_verification_method.
  change (dict_get "id" (("id", JStr (id ++ "#" ++ kid vm)) :: rest))
    with (JStr (id ++ "#" ++ kid vm)).
  cbv beta iota. rewrite (plain_name id _ id_not_empty id_plain).
  now destruct (dict_mem (id ++ "#" ++ kid vm) methods).
Qed.

(** The loop over the methods of distinct names files every method under
    its name. *)
Lemma genesis_methods_filed : forall keys made methods,
  Forall2 (fun vm method => genesis_method id vm = Ok method) keys made ->
  NoDup (map kid keys) ->
  (forall vm, In vm keys -> dict_lookup (id ++ "#" ++ kid vm) methods = None) ->
  exists methods',
    for_each made
      (fun method vm_dict =>
         '(_, d) <- parse_verification_method method id vm_dict ;; Ok d)
      methods = Ok methods'
    /\ (forall vm method,
          In (vm, method) (combine keys made) ->
          dict_lookup (id ++ "#" ++ kid vm) methods' = Some method)
    /\ forall k,
         (forall vm, In vm keys -> k <> id ++ "#" ++ kid vm) ->
         dict_lookup k methods' = dict_lookup k methods.
Proof.
  intros keys made methods Hmade. revert methods.
  induction Hmade as [|vm method keys made Emethod Hmade IH];
    intros methods Hdistinct Hfree.
  - exists methods. repeat split. intros vm method [].
  - cbn [map] in Hdistinct. apply NoDup_cons_iff in Hdistinct.
    destruct Hdistinct as [Hfresh Hdistinct].
    cbn [for_each].
    rewrite (parse_genesis_method _ _ _ Emethod), dict_mem_lookup,
      (Hfree vm (or_introl eq_refl)).
    cbn [bind].
    destruct (IH (dict_set (id ++ "#" ++ kid vm) method methods) Hdistinct)
      as (methods' & Erun & Hfiled & Hother).
    { intros vm' Hin. rewrite dict_lookup_set_other.
      - apply Hfree. now right.
      - intro E. apply append_inj_left in E. injection E as E.
        apply Hfresh. rewrite <- E. now apply in_map. }
    exists methods'. split; [exact Erun |]. split.
    + intros vm' method' [E | Hin].
      * injection E as <- <-. rewrite Hother.
        -- apply dict_lookup_set_same.
        -- intros vm' Hin E. apply append_inj_left in E. injection E as E.
           apply Hfresh. rewrite E. now apply in_map.
      * now apply Hfiled.
    + intros k Hk. rewrite Hother.
      * apply dict_lookup_set_other. apply Hk. now left.
      * intros vm' Hin. apply Hk. now right.
Qed.

(** The loop over the methods stops at a name that is taken. *)
Lemma genesis_methods_duplicate : forall keys made methods,
  Forall2 (fun vm method => genesis_method id vm = Ok method) keys made ->
  (exists vm, In vm keys /\ dict_lookup (id ++ "#" ++ kid vm) methods <> None)
  \/ ~ NoDup (map kid keys) ->
  for_each made
    (fun method vm_dict =>
       '(_, d) <- parse_verification_method method id vm_dict ;; Ok d)
    methods
  = Raise (RuntimeError "Invalid log: duplicate verification method ID").
Proof.
  intros keys made methods Hmade. revert methods.
  induction Hmade as [|vm method keys made Emethod Hmade IH];
    intros methods Hdup.
  - destruct Hdup as [(vm & [] & _) | Hdup]. destruct Hdup. constructor.
  - cbn [for_each].
    rewrite (parse_genesis_method _ _ _ Emethod), dict_mem_lookup.
    destruct (dict_lookup (id ++ "#" ++ kid vm) methods) as [taken |] eqn:Efree;
      [reflexivity |].
    cbn [bind]. apply IH.
    destruct Hdup as [(vm' & [<- | Hin] & Htaken) | Hdup].
    + contradiction.
    + left. exists vm'. split; [exact Hin |].
      destruct (String.eqb_spec (id ++ "#" ++ kid vm') (id ++ "#" ++ kid vm))
        as [-> | Hne].
      * rewrite dict_lookup_set_same. discriminate.
      * rewrite dict_lookup_set_other by exact Hne. exact Htaken.
    + destruct (in_dec string_dec (kid vm) (map kid keys)) as [Hin | Hnot].
      * left. apply in_map_iff in Hin. destruct Hin as (vm' & Ekid & Hin).
        exists vm'. split; [exact Hin |].
        rewrite Ekid, dict_lookup_set_same. discriminate.
      * right. intro Hnodup. apply Hdup. cbn [map]. now constructor.
Qed.

(** The loop over the authentication members only adds keys. *)
Lemma auths_loop_grows : forall auths methods keys0 methods' keys',
  for_each auths (parse_auth id) (methods, keys0) = Ok (methods', keys') ->
  forall k, dict_lookup k keys0 <> None -> dict_lookup k keys' <> None.
Proof.
  induction auths as [|auth auths IH];
    intros methods keys0 methods' keys' E k Hk.
  - simpl in E. now injection E as _ <-.
  - cbn [for_each] in E. step_ok E as next Enext.
    destruct next as [methods1 keys1].
    apply (IH _ _ _ _ E).
    unfold parse_auth in Enext.
    step_ok Enext as named Enamed. destruct named as [a methods2].
    step_ok Enext as v Ev. injection Enext as _ <-.
    destruct (String.eqb_spec k a) as [-> | Hne].
    + rewrite dict_lookup_set_same. discriminate.
    + rewrite dict_lookup_set_other by exact Hne. exact Hk.
Qed.

(** The loop over the references to the methods gives each name the
    method filed under it. *)
Lemma genesis_auths_resolved : forall names methods keys0,
  (forall name, In name names ->
     startswith "#" name = false
     /\ startswith (id ++ "#") name = true
     /\ dict_lookup name methods <> None) ->
  (forall k v, dict_lookup k keys0 = Some v -> dict_lookup k methods = Some v) ->
  exists keys',
    for_each (map JStr names) (parse_auth id) (methods, keys0)
    = Ok (methods, keys')
    /\ (forall name, In name names ->
          dict_lookup name keys' = dict_lookup name methods)
    /\ forall k v,
         dict_lookup k keys' = Some v -> dict_lookup k methods = Some v.
Proof.
  induction names as [|name names IH]; intros methods keys0 Hnames Hsub.
  - exists keys0. split; [reflexivity |]. split; [intros name [] | exact Hsub].
  - destruct (Hnames name (or_introl eq_refl)) as (Hplain & Hlocal & Htaken).
    destruct (dict_lookup name methods) as [method |] eqn:Emethod;
      [| contradiction].
    cbn [map for_each]. unfold parse_auth at 1.
    rewrite Hplain, Hlocal, dict_mem_lookup, Emethod.
    cbn [negb raise_if bind or_raise].
    rewrite Emethod. cbn [or_raise bind].
    destruct (IH methods (dict_set name method keys0)) as (keys' & Erun & Hall
                                                           & Hsub').
    { intros n Hn. apply Hnames. now right. }
    { intros k v Ek.
      destruct (String.eqb_spec k name) as [-> | Hne].
      - rewrite dict_lookup_set_same in Ek. congruence.
      - rewrite dict_lookup_set_other in Ek by exact Hne. now apply Hsub. }
    exists keys'. split; [exact Erun |]. split; [| exact Hsub'].
    intros n [<- | Hn]; [| now apply Hall].
    rewrite Emethod.
    destruct (dict_lookup name keys') as [v |] eqn:Ev.
    + apply Hsub' in Ev. congruence.
    + exfalso. apply (auths_loop_grows _ _ _ _ _ Erun name); [| exact Ev].
      rewrite dict_lookup_set_same. discriminate.
Qed.

End Named.

Lemma genesis_id_named : forall domain,
  genesis_id domain <> "" /\ startswith "#" (genesis_id domain) = false.
Proof.
  intro domain. split; [discriminate | reflexivity].
Qed.

Lemma made_for : forall id keys made vm,
  Forall2 (fun vm method => genesis_method id vm = Ok method) keys made ->
  In vm keys ->
  exists method,
    genesis_method id vm = Ok method /\ In (vm, method) (combine keys made).
Proof.
  intros id keys made vm Hmade.
  induction Hmade as [|vm0 method keys made Emethod Hmade IH]; intros Hin.
  - destruct Hin.
  - destruct Hin as [<- | Hin].
    + exists method. split; [exact Emethod | now left].
    + destruct (IH Hin) as (m & Em & Hm). exists m. split; [exact Em |].
      now right.
Qed.

(** X20: the document that [genesis_document] makes for a domain and keys
    has the id [did:webnext:<domain>:{{SCID}}], no controller member, so
    that the DID is its own controller, and no proof.  When the keys have
    distinct names, the reader derives from it an authentication key for
    every key: the reference [<id>#<kid>] resolves to the method made for
    the key.  When two keys have the same name, the reader refuses the
    document for a duplicate verification method. *)
Theorem genesis_keys_resolve : forall domain keys members,
  genesis_members domain keys = Ok members ->
  dict_get "id" members = JStr (genesis_id domain)
  /\ controllers_of members (genesis_id domain)
     = Ok [JStr (genesis_id domain)]
  /\ proofs_of members = Ok []
  /\ (NoDup (map kid keys) ->
      exists auth_keys,
        auth_keys_of members (genesis_id domain) = Ok auth_keys
        /\ forall vm, In vm keys ->
             exists method,
               genesis_method (genesis_id domain) vm = Ok method
               /\ dict_lookup (genesis_id domain ++ "#" ++ kid vm) auth_keys
                  = Some method)
  /\ (~ NoDup (map kid keys) ->
      auth_keys_of members (genesis_id domain)
      = Raise (RuntimeError "Invalid log: duplicate verification method ID")).
Proof.
  intros domain keys members E. unfold genesis_members in E.
  cbv zeta in E. step_ok E as lists Elists. destruct lists as [auths methods].
  injection E as <-.
  destruct (genesis_loop _ _ _ _ _ _ Elists)
    as (made & Hmade & Eauths & Emethods).
  cbn [app] in Eauths, Emethods. subst auths methods.
  destruct (genesis_id_named domain) as [Hne Hplain].
  split; [reflexivity |]. split; [reflexivity |]. split; [reflexivity |].
  split.
  - intro Hdistinct.
    destruct (genesis_methods_filed (genesis_id domain) Hne Hplain keys made
                [] Hmade Hdistinct)
      as (methods' & Erun & Hfiled & _).
    { reflexivity. }
    destruct (genesis_auths_resolved (genesis_id domain)
                (map (fun vm => genesis_id domain ++ "#" ++ kid vm) keys)
                methods' [])
      as (auth_keys & Eauth & Hall & _).
    { intros name Hin. apply in_map_iff in Hin.
      destruct Hin as (vm & <- & Hin).
      split; [apply plain_name; assumption |].
      split; [apply local_name |].
      destruct (made_for _ _ _ _ Hmade Hin) as (method & _ & Hcombined).
      rewrite (Hfiled _ _ Hcombined). discriminate. }
    { intros k v Ek. discriminate Ek. }
    exists auth_keys. split.
    + unfold auth_keys_of.
      change (dict_get_default "verificationMethod" (JArr []) _)
        with (JArr made).
      cbn [bind]. rewrite Erun. cbn [bind].
      change (dict_get_default "authentication" (JArr []) _)
        with (JArr (map (fun vm => JStr (genesis_id domain ++ "#" ++ kid vm))
                      keys)).
      cbn [bind]. rewrite map_map in Eauth.
      match goal with
      | |- bind ?c _ = _ =>
          replace c with (Ok (methods', auth_keys)) by (symmetry; exact Eauth)
      end.
      reflexivity.
    + intros vm Hin.
      destruct (made_for _ _ _ _ Hmade Hin) as (method & Emethod & Hcombined).
      exists method. split; [exact Emethod |].
      rewrite Hall by (apply in_map_iff; now exists vm).
      now apply Hfiled.
  - intro Hdup.
    unfold auth_keys_of.
    change (dict_get_default "verificationMethod" (JArr []) _)
      with (JArr made).
    cbn [bind].
    rewrite (genesis_methods_duplicate (genesis_id domain) Hne Hplain keys
               made [] Hmade (or_intror Hdup)).
    reflexivity.
Qed.

End GenesisFacts.

(** ** The signing key of an update, and the SCID of a new DID *)

Section UpdateFacts.
Context `{KeyLibs}.
Import Py Manage Spec Reading Writer.

Lemma substring_all : forall s : string, substring 0 (String.length s) s = s.
Proof.
  induction s as [|c s IH]; [reflexivity |]. simpl. now rewrite IH.
Qed.

Lemma removeprefix_append : forall p s : string, removeprefix p (p ++ s) = s.
Proof.
  intros p s. unfold removeprefix. rewrite prefix_append.
  induction p as [|c p IH].
  - cbn [append String.length]. rewrite Nat.sub_0_r. apply substring_all.
  - cbn [append String.length substring Nat.sub]. exact IH.
Qed.

Lemma lstrip_plain : forall s : string,
  startswith "#" s = false -> lstrip "#" s = s.
Proof.
  intros [|c s] Hplain; [reflexivity |].
  unfold startswith in Hplain. cbn [String.prefix] in Hplain.
  cbn [lstrip].
  destruct (ascii_dec "#" c) as [<- | Hne].
  - destruct s; discriminate Hplain.
  - replace (Ascii.eqb c "#") with false; [reflexivity |].
    symmetry. apply Ascii.eqb_neq. congruence.
Qed.

Lemma dict_get_lookup : forall k d s,
  dict_get k d = JStr s -> dict_lookup k d = Some (JStr s).
Proof.
  intros k d s E. unfold dict_get, dict_get_default in E.
  destruct (dict_lookup k d); [now subst | discriminate].
Qed.

(** The name of the signing key, for a document whose first verification
    method is named by the id of the document, [#] and the name. *)
Lemma signing_kid_of_method : forall members id m rest name,
  dict_get "id" members = JStr id ->
  dict_lookup "verificationMethod" members = Some (JArr (JObj m :: rest)) ->
  dict_get "id" m = JStr (id ++ "#" ++ name) ->
  name <> "" ->
  startswith "#" name = false ->
  signing_kid members = Ok name.
Proof.
  intros members id m rest name Eid Emethods Em Hne Hplain.
  unfold signing_kid. rewrite Emethods. cbn [or_raise bind].
  rewrite Em, Eid. cbn [bind].
  rewrite removeprefix_append.
  change (lstrip "#" ("#" ++ name)) with (lstrip "#" name).
  rewrite (lstrip_plain _ Hplain).
  destruct name; [contradiction | reflexivity].
Qed.

(** X21: [update_document] succeeds on a directory whose log is accepted
    with both verifications on and holds an entry, when [did.json] holds
    an object with a string id whose first verification method is named
    by that id, [#] and the name of an Ed25519 key of the store, the name
    not empty and not starting with [#], and the pass key is that of the
    store.  It signs with that key, as [write_document] does, whatever the
    authentication member and the other methods are. *)
Theorem update_finds_signing_key :
  forall now timestamp dir_path pass fs dir text history before latest
    members id m rest name keys k,
    find_dir dir_path fs = Some dir ->
    did_json dir = Some text ->
    log dir = Some history ->
    load_log history true true = ((before ++ [latest])%list, None) ->
    json_loads text = Some (JObj members) ->
    dict_get "id" members = JStr id ->
    dict_lookup "verificationMethod" members = Some (JArr (JObj m :: rest)) ->
    dict_get "id" m = JStr (id ++ "#" ++ name) ->
    name <> "" ->
    startswith "#" name = false ->
    store dir = Some {| pass_key := pass; named := keys |} ->
    fetch_key name keys = Some k ->
    key_is_ed25519 k = true ->
    exists dir',
      write_document now dir (JObj members) (it_doc latest) (it_hash latest)
        (it_index latest + 1) timestamp
        {| Manage.key := k; Manage.kid := name;
           Manage.pk_codec := "ed25519-pub" |} = Ok dir'
      /\ update_document now timestamp dir_path pass fs
         = Ok (JObj members, put_dir dir_path dir' fs).
Proof.
  intros now timestamp dir_path pass fs dir text history before latest
    members id m rest name keys k Edir Etext Ehistory Eload Eloaded Eid
    Emethods Em Hne Hplain Estore Ekey Ealg.
  assert (Ewrite : exists dir',
    write_document now dir (JObj members) (it_doc latest) (it_hash latest)
      (it_index latest + 1) timestamp
      {| Manage.key := k; Manage.kid := name;
         Manage.pk_codec := "ed25519-pub" |} = Ok dir').
  { unfold write_document, log_entry, eddsa_sign.
    rewrite (dict_get_lookup _ _ _ Eid). cbn [or_raise bind].
    eexists. reflexivity. }
  destruct Ewrite as (dir' & Ewrite). exists dir'. split; [exact Ewrite |].
  unfold update_document.
  rewrite Edir. cbn [or_raise bind]. rewrite Etext, Ehistory.
  cbn [or_raise bind]. rewrite Eload. cbn [bind].
  rewrite rev_app_distr. cbn [rev app bind].
  rewrite Eloaded. cbn [or_raise bind].
  rewrite (signing_kid_of_method _ _ _ _ _ Eid Emethods Em Hne Hplain).
  cbn [bind]. rewrite Estore. cbn [Writer.pass_key named].
  rewrite String.eqb_refl. cbn [bind]. rewrite Ekey. cbn [or_raise bind].
  unfold from_key. rewrite Ealg.
  destruct name as [|c s]; [contradiction |]. cbn [bind].
  rewrite Ewrite. reflexivity.
Qed.

(** The derivation refuses a document whose SCID starts with a digit other
    than 1, when no version is given. *)
Lemma update_scid_digit : forall d doc_id v,
  dict_get "id" d = JStr doc_id ->
  hd "" (split ":" doc_id) = "did" ->
  (4 <= List.length (split ":" doc_id))%nat ->
  isdigit (substring 0 1 (last (split ":" doc_id) "")) = true ->
  int_of_digit (substring 0 1 (last (split ":" doc_id) "")) = Some v ->
  v <> 1 ->
  update_scid (JObj d) None
  = Raise (RuntimeError "Only SCID version 1 is supported").
Proof.
  intros d doc_id v Eid Hdid Hlen Hdigit Hint Hv.
  unfold update_scid. cbn [bind]. rewrite Eid. cbn [bind].
  rewrite Hdid, String.eqb_refl.
  replace (Z.of_nat (List.length (split ":" doc_id)) <? 4) with false
    by (symmetry; apply Z.ltb_ge; lia).
  cbn [negb orb raise_if bind]. cbv zeta.
  rewrite Hdigit, Hint. cbn [or_raise bind].
  apply Z.eqb_neq in Hv. rewrite Hv. reflexivity.
Qed.

(** X22: [manual_generate_did] fails, before anything is written, for
    every document whose derived DID has an SCID that starts with a digit
    other than 1: the derivation is run again on the derived document
    without a version, reads that digit as the version and raises.  The
    derived document is taken to carry the derived DID as its id. *)
Theorem generation_refuses_digit_scid :
  forall now timestamp document sk pass scid_ver fs doc_id d v,
    update_scid document scid_ver = Ok (doc_id, JObj d) ->
    dict_get "id" d = JStr doc_id ->
    hd "" (split ":" doc_id) = "did" ->
    (4 <= List.length (split ":" doc_id))%nat ->
    isdigit (substring 0 1 (last (split ":" doc_id) "")) = true ->
    int_of_digit (substring 0 1 (last (split ":" doc_id) "")) = Some v ->
    v <> 1 ->
    manual_generate_did now timestamp document sk pass scid_ver fs
    = (fs, Failed (Python
                     (RuntimeError "Only SCID version 1 is supported"))).
Proof.
  intros now timestamp document sk pass scid_ver fs doc_id d v Ederive Eid
    Hdid Hlen Hdigit Hint Hv.
  unfold manual_generate_did. rewrite Ederive.
  rewrite (update_scid_digit _ _ _ Eid Hdid Hlen Hdigit Hint Hv).
  reflexivity.
Qed.

End UpdateFacts.

(** * The further properties on the sample data *)

(** X1 on the samples: the two documents of [log_plain] have the id that
    the SCID derivation returns for the first. *)
Lemma document_id_fixed_witness :
  exists id derived,
    Sample.update_scid Sample.doc_com None = Ok (id, derived)
    /\ forall it,
         In it (fst (Sample.load_log Sample.log_plain true true)) ->
         exists d, Manage.it_doc it = JObj d /\ Py.dict_get "id" d = JStr id.
Proof.
  value_of (fst (Sample.load_log Sample.log_plain true true)).
  match goal with
  | |- context [In _ (?f :: ?r)] =>
      exact (@document_id_fixed ref_libs Sample.log_plain true true (f :: r)
               None f r ltac:(vm_compute; reflexivity) eq_refl)
  end.
Defined.

(** X3 on the samples: [log_plain] is its header and first entry with the
    second entry appended; the item of the second entry follows the item
    of the first, with the number 2. *)
Lemma appended_lines_witness :
  exists more e',
    Sample.load_log Sample.log_plain true true
    = ((fst (Sample.load_log [Sample.header; Run.entry1] true true) ++ more)
         %list, e')
    /\ map Manage.it_index more = [2].
Proof.
  value_of (fst (Sample.load_log [Sample.header; Run.entry1] true true)).
  match goal with
  | |- context [(?items ++ _)%list] =>
      destruct (@appended_lines ref_libs Sample.header [Run.entry1]
                  [Run.entry2] true true items None
                  ltac:(vm_compute; reflexivity))
        as (more & e' & Erun & _ & Hcount)
  end.
  exists more, e'. split; [exact Erun |].
  vm_compute in Erun. injection Erun as <- _. reflexivity.
Defined.

(** X4 on the samples: the DID of the second version of [log_signed] is
    among the controllers of the first version. *)
Lemma did_among_prior_controllers_witness :
  exists controllers,
    Reading.document_controllers (JObj Sample.members_org) = Ok controllers
    /\ Py.list_mem_str Sample.did_org controllers = true.
Proof.
  let lines := eval vm_compute in (tl Sample.log_signed) in
  let items :=
    eval vm_compute in (fst (Sample.load_log Sample.log_signed true true)) in
  match items with
  | [?i1; ?i2] =>
      destruct (@did_among_prior_controllers ref_libs Sample.header lines
                  true items None [i1] i2 []
                  ltac:(vm_compute; reflexivity) eq_refl)
        as (d & id & controllers & Ed & Eid & Ecs & Hmem)
  end.
  cbn [Manage.it_doc] in Ed. injection Ed as <-.
  vm_compute in Eid. injection Eid as <-.
  exists controllers. split; [exact Ecs | exact Hmem].
Defined.

(** X5 on the samples: the authentication keys of the sample document are
    its one method, filed under its id. *)
Lemma auth_keys_are_methods_witness :
  exists keys,
    Manage.auth_keys_of Sample.members_org Sample.did_org = Ok keys
    /\ forall k v,
         Py.dict_lookup k keys = Some v ->
         In v [Sample.method_org; JStr (Sample.did_org ++ "#key1")]
         /\ exists m raw,
              v = JObj m /\ Py.dict_get "id" m = JStr raw
              /\ k = Spec.resolve Sample.did_org raw.
Proof.
  let keys :=
    eval vm_compute in
      (match Manage.auth_keys_of Sample.members_org Sample.did_org with
       | Ok keys => keys
       | Raise _ => []
       end) in
  assert (E : Manage.auth_keys_of Sample.members_org Sample.did_org = Ok keys)
    by (vm_compute; reflexivity);
  exists keys; split; [exact E |];
  destruct (auth_keys_are_methods Sample.members_org Sample.did_org
              keys E) as (vmethods & auths & Evm & Eauths & Hall).
  vm_compute in Evm. injection Evm as <-.
  vm_compute in Eauths. injection Eauths as <-.
  exact Hall.
Defined.

(** X7 on the samples: [log_plain], accepted with both verifications on,
    is accepted with both off, with the same items. *)
Lemma verification_only_restricts_witness :
  Sample.load_log Sample.log_plain false false
  = (fst (Sample.load_log Sample.log_plain true true), None).
Proof.
  value_of (fst (Sample.load_log Sample.log_plain true true)).
  match goal with
  | |- _ = (?items, None) =>
      destruct (@verification_only_restricts ref_libs Sample.log_plain true
                  true false false items None
                  ltac:(discriminate) ltac:(discriminate)
                  ltac:(vm_compute; reflexivity))
        as (more & e' & Erun & Hnone)
  end.
  destruct (Hnone eq_refl) as [-> ->].
  rewrite app_nil_r in Erun. exact Erun.
Defined.

(** The two entries of [log_plain] load into the two sample states, which
    pass the checks. *)
Lemma sample_states_load :
  @Loader.loads ref_libs Sample.State Sample.load_history_line None
    [Run.entry1; Run.entry2] [Run.state1; Run.state2].
Proof.
  eapply Loader.loads_cons;
    [vm_compute; reflexivity | vm_compute; reflexivity |].
  eapply Loader.loads_cons;
    [vm_compute; reflexivity | vm_compute; reflexivity |].
  apply Loader.loads_nil.
Defined.

Lemma sample_states_pass : forall states,
  incl states [Run.state1; Run.state2] ->
  @Loader.checks_pass Sample.State Sample.check_version_hash None states.
Proof.
  intros states Hincl s Hs.
  destruct (Hincl s Hs) as [<- | [<- | []]];
    (split; [vm_compute; reflexivity | discriminate]).
Defined.

(** X8 on the samples: the iteration over the two entries of [log_plain]
    finishes, and [load_history] returns the second state with the
    timestamp of the first as the time of creation. *)
Lemma load_history_returns_last_witness :
  Run.load_history None None 4 [Run.entry1; Run.entry2]
  = Some (Ok (Run.state2,
              {| Loader.created := Sample.time1;
                 Loader.updated := Sample.time2;
                 Loader.deactivated := false;
                 Loader.version_id := 2 |})).
Proof.
  destruct (@load_history_returns_last ref_libs Sample.State string String.ltb
              Sample.version_id Sample.timestamp (fun _ => false)
              Sample.load_history_line Sample.check_version_hash None None
              None 4 [Run.entry1; Run.entry2] [Run.state1; Run.state2]
              ltac:(vm_compute; reflexivity))
    as (first & rest & Estates & Eload).
  injection Estates as <- <-. exact Eload.
Defined.

(** X9 on the samples: the states yielded for the two entries of
    [log_plain] are loaded from its lines and have passed the hash
    check. *)
Lemma yielded_states_loaded_and_checked_witness :
  (exists n ahead,
     @Loader.loads ref_libs Sample.State Sample.load_history_line None
       (firstn n [Run.entry1; Run.entry2])
       ([Run.state1; Run.state2] ++ ahead)%list
     /\ (List.length ahead <= 1)%nat)
  /\ Sample.check_version_hash Run.state2 = Ok tt.
Proof.
  destruct (@yielded_states_loaded_and_checked ref_libs Sample.State string
              String.ltb Sample.version_id Sample.timestamp
              Sample.load_history_line Sample.check_version_hash None None
              None 4 [Run.entry1; Run.entry2] [Run.state1; Run.state2]
              Loader.Finished ltac:(vm_compute; reflexivity))
    as [Hloaded Hchecked].
  split; [exact Hloaded |].
  exact (proj1 (Hchecked [Run.state1] Run.state2 [] eq_refl)).
Defined.

(** X11 on the samples: without cutoffs [load_history] returns the second
    state of [log_plain]. *)
Lemma load_history_latest_witness :
  Sample.iter_history None None 3 [Run.entry1; Run.entry2]
  = ([Run.state1; Run.state2], Loader.Finished)
  /\ Run.load_history None None 3 [Run.entry1; Run.entry2]
     = Some (Ok (Run.state2,
                 {| Loader.created := Sample.time1;
                    Loader.updated := Sample.time2;
                    Loader.deactivated := false;
                    Loader.version_id := 2 |})).
Proof.
  apply (@load_history_latest ref_libs Sample.State string String.ltb
           Sample.version_id Sample.timestamp (fun _ => false)
           Sample.load_history_line Sample.check_version_hash None
           [Run.entry1; Run.entry2] Run.state1 [Run.state2] 3).
  - exact sample_states_load.
  - apply sample_states_pass, incl_refl.
  - simpl. lia.
Defined.

(** X12 on the samples: asked for version 1 of [log_plain],
    [load_history] returns the first state. *)
Lemma load_history_at_version_witness :
  Run.load_history (Some 1) None 3 [Run.entry1; Run.entry2]
  = Some (Ok (Run.state1,
              {| Loader.created := Sample.time1;
                 Loader.updated := Sample.time1;
                 Loader.deactivated := false;
                 Loader.version_id := 1 |})).
Proof.
  apply (@load_history_at_version ref_libs Sample.State string String.ltb
           Sample.version_id Sample.timestamp (fun _ => false)
           Sample.load_history_line Sample.check_version_hash None 1
           [Run.entry1; Run.entry2] [] Run.state1 [Run.state2] 3).
  - exact sample_states_load.
  - intros y [].
  - reflexivity.
  - apply sample_states_pass. intros s [<- | []]. now left.
  - simpl. lia.
Defined.

(** X13 on the samples: asked for the time of the first entry of
    [log_plain], [load_history] returns the first state; asked for a time
    before it, it raises the error of the time cutoff. *)
Lemma load_history_at_time_witness :
  Run.load_history None (Some Sample.time1) 3 [Run.entry1; Run.entry2]
  = Some (Ok (Run.state1,
              {| Loader.created := Sample.time1;
                 Loader.updated := Sample.time1;
                 Loader.deactivated := false;
                 Loader.version_id := 1 |}))
  /\ Run.load_history None (Some Sample.time0) 3 [Run.entry1; Run.entry2]
     = Some (Raise (ValueError "Cannot resolve versionTime")).
Proof.
  split.
  - apply (@load_history_at_time ref_libs Sample.State string String.ltb
             Sample.version_id Sample.timestamp (fun _ => false)
             Sample.load_history_line Sample.check_version_hash None
             Sample.time1 [Run.entry1; Run.entry2] [Run.state1] [Run.state2]
             3).
    + exact sample_states_load.
    + intros y [<- | []]. vm_compute. reflexivity.
    + vm_compute. reflexivity.
    + apply sample_states_pass. intros s [<- | []]. now left.
    + discriminate.
    + simpl. lia.
  - apply (@load_history_at_time ref_libs Sample.State string String.ltb
             Sample.version_id Sample.timestamp (fun _ => false)
             Sample.load_history_line Sample.check_version_hash None
             Sample.time0 [Run.entry1; Run.entry2] [] [Run.state1; Run.state2]
             3).
    + exact sample_states_load.
    + intros y [].
    + vm_compute. reflexivity.
    + apply sample_states_pass. intros s [].
    + discriminate.
    + simpl. lia.
Defined.

(** X14 on the samples: with a line that is not JSON after the two entries
    of [log_plain], the first state is yielded, the second is not, and
    [load_history] raises. *)
Lemma bad_line_hides_last_state_witness :
  Sample.iter_history None None 3 Run.history_bad
  = ([Run.state1], Loader.Raised (ValueError "Invalid history JSON"))
  /\ Run.load_history None None 3 Run.history_bad
     = Some (Raise (ValueError "Invalid history JSON")).
Proof.
  apply (@bad_line_hides_last_state ref_libs Sample.State string String.ltb
           Sample.version_id Sample.timestamp (fun _ => false)
           Sample.load_history_line Sample.check_version_hash None
           [Run.entry1; Run.entry2] "not json" [] [Run.state1; Run.state2] 3).
  - exact sample_states_load.
  - vm_compute. reflexivity.
  - apply sample_states_pass. intros s [<- | []]. now left.
  - simpl. lia.
Defined.

#[local] Existing Instance ref_key_libs.

(** X15 on the reference libraries: the header that [init_log] writes is
    read back, and the hash returned is the seed of the chain. *)
Lemma init_log_read_back_witness :
  exists first,
    Writer.log (snd (Writer.init_log Writer.empty_directory)) = Some [first]
    /\ Manage.load_header first
       = Ok (JStr (fst (Writer.init_log Writer.empty_directory)))
    /\ JStr (fst (Writer.init_log Writer.empty_directory)) = Spec.seed_hash
    /\ Manage.load_log [first] true true = ([], None)
    /\ Writer.did_json (snd (Writer.init_log Writer.empty_directory)) = None
    /\ Writer.store (snd (Writer.init_log Writer.empty_directory)) = None.
Proof.
  exact (@init_log_read_back ref_libs Writer.empty_directory true true
           ltac:(vm_compute; reflexivity)).
Defined.

(** Closes an equation between closed terms by running its left side; the
    type of the equation is left as it is. *)
Ltac run_left :=
  match goal with
  | |- ?l = ?r =>
      let v := eval vm_compute in l in
      exact (@eq_refl _ v <: l = r)
  end.

(** X17 on the reference libraries: the log that [auto_generate_did]
    makes for the sample key is accepted with hash verification on and
    yields the first version of the sample DID. *)
Lemma generated_did_read_back_witness :
  exists h,
    Manage.load_log (Run.log_of Run.did_net (fst Run.made)) true false
    = ([{| Manage.it_index := 1; Manage.it_hash := JStr h;
           Manage.it_doc := Run.doc_net |}], None).
Proof.
  value_of (Run.log_of Run.did_net (fst Run.made)).
  value_of Run.doc_net.
  let fs' := eval vm_compute in (fst Run.made) in
  let genesis := eval vm_compute in Run.genesis_net in
  let sk := eval vm_compute in Run.sk_net in
  pose proof
    (proj2 (@generated_did_read_back ref_libs ref_key_libs Run.now1
              Sample.time1 genesis sk "password" (Some 1) [] fs'
              Run.did_net ltac:(run_left))) as Hread;
  match fs' with
  | [(_, ?dir)] =>
      match goal with
      | |- context [Manage.load_log [?header; ?line] _ _] =>
          match goal with
          | |- context [Manage.Build_item _ _ (JObj ?d)] =>
              let parts := eval vm_compute in (Ref.loads line) in
              match parts with
              | Some (JArr [_; _; _; _; ?proofs]) =>
                  specialize (Hread dir header line d proofs)
              end
          end
      end
  end.
  eexists. apply Hread; run_left.
Defined.

(** Replaces a closed term of the goal by its value, the type of the term
    left as it is. *)
Ltac run_value t :=
  let v := eval vm_compute in t in
  replace t with v by (exact (@eq_refl _ v <: v = t)).

(** Discharges the leading hypotheses of [H] that are equations between
    closed terms. *)
Ltac run_hypotheses H :=
  repeat match type of H with
         | (?l = ?r) -> _ =>
             let E := fresh "E" in
             assert (E : l = r) by run_left;
             specialize (H E); clear E
         end.

(** X16 on the reference libraries: the line that [write_document] writes
    for the first version of the sample DID is accepted by the reader at
    the start of the chain. *)
Lemma written_entry_read_back_witness :
  exists dir line h st',
    Run.written = Ok dir
    /\ Writer.log dir = Some [line]
    /\ Manage.load_lines true false (Manage.initial_state Spec.seed_hash)
         [line]
       = ([{| Manage.it_index := 1; Manage.it_hash := JStr h;
              Manage.it_doc := Run.doc_net |}], Ok st').
Proof.
  let written := eval vm_compute in Run.written in
  let document := eval vm_compute in Run.doc_net in
  let sk := eval vm_compute in Run.sk_net in
  match written with
  | Ok ?dir =>
      match dir with
      | context [Some [?line]] =>
          match document with
          | JObj ?d =>
              let parts := eval vm_compute in (Ref.loads line) in
              match parts with
              | Some (JArr [_; _; _; _; ?proofs]) =>
                  assert (E : @Writer.write_document ref_libs ref_key_libs
                                Run.now1 Writer.empty_directory document JNull
                                Spec.seed_hash 1 Sample.time1 sk = Ok dir)
                    by run_left;
                  pose proof (@written_entry_read_back ref_libs ref_key_libs
                                _ _ _ _ _ _ _ _ _ E) as Hboth;
                  pose proof (proj2 Hboth) as Hread; clear Hboth;
                  specialize (Hread (Manage.initial_state Spec.seed_hash) []
                                line d Run.did_net proofs);
                  exists dir, line
              end
          end
      end
  end.
  run_hypotheses Hread.
  match type of Hread with
  | ?A -> _ =>
      assert (Hid : A);
      [ cbn [Manage.initial_state Manage.index Z.eqb Pos.eqb];
        match goal with
        | |- exists d', ?l = _ =>
            let again := eval vm_compute in l in
            match again with
            | Ok (_, ?d') => exists d'; run_left
            end
        end
      | specialize (Hread Hid); clear Hid ]
  end.
  run_hypotheses Hread.
  destruct Hread as (st' & Eread & _).
  eexists. exists st'.
  split; [run_left |]. split; [run_left |].
  run_value Run.doc_net. exact Eread.
Defined.

(** X18 on the reference libraries: after [update_document] on the
    sample directory with an alias added to [did.json], the log is
    accepted with hash verification on and yields the document returned
    as version 2. *)
Lemma update_appends_version_witness :
  exists first h,
    Manage.load_log (Run.log_of Run.did_net (Run.files_of Run.updated)) true
      false
    = ([first;
        {| Manage.it_index := 2; Manage.it_hash := JStr h;
           Manage.it_doc := Run.document_of Run.updated |}], None).
Proof.
  run_value (Run.log_of Run.did_net (Run.files_of Run.updated)).
  run_value (Run.document_of Run.updated).
  let fs := eval vm_compute in Run.edited in
  let fs' := eval vm_compute in (Run.files_of Run.updated) in
  match goal with
  | |- context [Manage.load_log [?l0; ?l1; ?line] _ _] =>
      match goal with
      | |- context [Manage.Build_item _ _ (JObj ?d)] =>
          match fs' with
          | [(_, ?dir')] =>
              let items :=
                eval vm_compute in
                  (fst (Manage.load_log [l0; l1] true true)) in
              let parts := eval vm_compute in (Ref.loads line) in
              match items with
              | [?latest] =>
                  match parts with
                  | Some (JArr [_; _; _; _; ?proofs]) =>
                      assert (E : @Writer.update_document ref_libs
                                    ref_key_libs Run.now2 Sample.time2
                                    Run.did_net "password" fs
                                  = Ok (JObj d, fs')) by run_left;
                      pose proof (@update_appends_version ref_libs
                                    ref_key_libs _ _ _ _ _ _ _ E) as Hboth;
                      pose proof (proj2 Hboth) as Hread; clear Hboth;
                      specialize (Hread dir' [l0; l1] line [] latest d
                                    Run.did_net proofs);
                      exists latest
                  end
              end
          end
      end
  end.
  run_hypotheses Hread.
  match type of Hread with
  | ?A -> _ =>
      assert (Hid : A);
      [ cbn [Manage.it_doc];
        match goal with
        | |- exists dl, JObj ?m = _ /\ _ => exists m; split; [reflexivity |]
        end; run_left
      | specialize (Hread Hid); clear Hid ]
  end.
  run_hypotheses Hread.
  cbn [app Manage.it_index Z.add Pos.add] in Hread.
  eexists. exact Hread.
Defined.

(** X19 on the reference libraries: after [update_document] on the sample
    directory with another id in [did.json], the log is refused for the
    changed id, and so is every later update. *)
Lemma update_does_not_keep_id_witness :
  (forall vs,
     snd (Manage.load_log
            (Run.log_of Run.did_net (Run.files_of Run.updated_renamed)) true
            vs)
     = Some (RuntimeError "Invalid log: document ID has changed"))
  /\ forall now' timestamp' pass',
       Writer.update_document now' timestamp' Run.did_net pass'
         (Run.files_of Run.updated_renamed)
       = Raise (RuntimeError "Invalid log: document ID has changed").
Proof.
  run_value (Run.log_of Run.did_net (Run.files_of Run.updated_renamed)).
  run_value (Run.files_of Run.updated_renamed).
  let fs := eval vm_compute in Run.renamed in
  let document := eval vm_compute in (Run.document_of Run.updated_renamed) in
  match goal with
  | |- context [Manage.load_log [?l0; ?l1; ?line] _ _] =>
      match goal with
      | |- context [Writer.update_document _ _ _ _ ?fs'] =>
          match fs' with
          | [(_, ?dir')] =>
              let items :=
                eval vm_compute in
                  (fst (Manage.load_log [l0; l1] true true)) in
              let parts := eval vm_compute in (Ref.loads line) in
              match items with
              | [?latest] =>
                  match latest with
                  | Manage.Build_item _ _ (JObj ?dl) =>
                      match document with
                      | JObj ?d =>
                          match parts with
                          | Some (JArr [_; _; _; _; ?proofs]) =>
                              assert (E : @Writer.update_document ref_libs
                                            ref_key_libs Run.now2 Sample.time2
                                            Run.did_net "password" fs
                                          = Ok (document, fs')) by run_left;
                              pose proof (@update_does_not_keep_id ref_libs
                                            ref_key_libs Run.now2 Sample.time2
                                            Run.did_net "password" fs document
                                            fs' dir' [l0; l1] line [] latest d
                                            "did:webnext:example.net:other"
                                            dl Run.did_net proofs E) as Hread
                          end
                      end
                  end
              end
          end
      end
  end.
  run_hypotheses Hread.
  match type of Hread with
  | ?A -> _ =>
      assert (Hne : A) by discriminate;
      specialize (Hread Hne); clear Hne
  end.
  run_hypotheses Hread.
  destruct Hread as [Hlog Hlater].
  split; [| exact Hlater].
  intro vs. exact (f_equal snd (Hlog vs)).
Defined.

(** X20 on the reference libraries: the reader derives from the genesis
    document of the sample key an authentication key under the name of
    the key. *)
Lemma genesis_keys_resolve_witness :
  exists auth_keys method,
    Manage.auth_keys_of Run.genesis_members_net
      (Writer.genesis_id "example.net") = Ok auth_keys
    /\ Py.dict_lookup
         (Writer.genesis_id "example.net" ++ "#" ++ Manage.kid Run.sk_net)
         auth_keys = Some method.
Proof.
  run_value Run.genesis_members_net.
  match goal with
  | |- context [Manage.auth_keys_of ?members _] =>
      assert (E : @Writer.genesis_members ref_libs ref_key_libs "example.net"
                    [Run.sk_net] = Ok members) by run_left;
      destruct (@genesis_keys_resolve ref_libs ref_key_libs "example.net"
                  [Run.sk_net] members E) as (_ & _ & _ & Hkeys & _)
  end.
  destruct Hkeys as (auth_keys & Eauth & Hall).
  { cbn [map]. constructor; [intros [] | constructor]. }
  destruct (Hall Run.sk_net (or_introl eq_refl)) as (method & _ & Elook).
  exists auth_keys, method. split; [exact Eauth | exact Elook].
Defined.

(** X2 on the samples: the log of the header alone is accepted and yields
    nothing. *)
Lemma log_without_entries_witness :
  Sample.load_log [Sample.header] true true = ([], None).
Proof.
  apply (proj1 (@log_without_entries ref_libs [Sample.header] true true)
           Sample.header [] Spec.seed_hash eq_refl).
  - vm_compute. reflexivity.
  - reflexivity.
Defined.

(** X6 on the samples: the sample method is filed under its id in an empty
    dict, and refused in the dict that holds it. *)
Lemma parse_verification_method_registers_witness :
  Py.dict_lookup (Sample.did_org ++ "#key1")
    [(Sample.did_org ++ "#key1", Sample.method_org)]
  = Some Sample.method_org
  /\ Manage.parse_verification_method Sample.method_org Sample.did_org
       [(Sample.did_org ++ "#key1", Sample.method_org)]
     = Raise (RuntimeError "Invalid log: duplicate verification method ID").
Proof.
  destruct (parse_verification_method_registers Sample.method_org
              Sample.did_org [(Sample.did_org ++ "#key1", Sample.method_org)])
    as [_ Hdup].
  destruct (parse_verification_method_registers Sample.method_org
              Sample.did_org [])
    as [Hnew _].
  split.
  - exact (proj1 (proj2 (proj2 (Hnew (Sample.did_org ++ "#key1")
                                  [(Sample.did_org ++ "#key1",
                                    Sample.method_org)]
                                  ltac:(vm_compute; reflexivity))))).
  - apply (Hdup (Sample.did_org ++ "#key1")).
    + vm_compute. reflexivity.
    + vm_compute. discriminate.
Defined.

(** X10 on the samples: the iteration over the two entries of [log_plain]
    has ended after three turns, and over no line it has not. *)
Lemma iteration_ends_witness :
  snd (Sample.iter_history None None 3 [Run.entry1; Run.entry2])
  <> Loader.OutOfFuel
  /\ Sample.iter_history None None 3 [] = ([], Loader.OutOfFuel).
Proof.
  split.
  - apply (proj2 (@iteration_ends ref_libs Sample.State string String.ltb
                    Sample.version_id Sample.timestamp (fun _ => false)
                    Sample.load_history_line Sample.check_version_hash None
                    None None [Run.entry1; Run.entry2])
             ltac:(discriminate) 3%nat 0%nat).
    simpl. lia.
  - exact (proj1 (@iteration_ends ref_libs Sample.State string String.ltb
                    Sample.version_id Sample.timestamp (fun _ => false)
                    Sample.load_history_line Sample.check_version_hash None
                    None None []) eq_refl 3%nat).
Defined.

(** X21 on the reference libraries: [update_document] on the sample
    directory with an alias added to [did.json] finds the key of the
    generated DID and returns. *)
Lemma update_finds_signing_key_witness :
  exists document fs',
    Writer.update_document Run.now2 Sample.time2 Run.did_net "password"
      Run.edited
    = Ok (document, fs').
Proof.
  run_value Run.edited.
  match goal with
  | |- context [Writer.update_document _ _ _ _ ?fs] =>
      match fs with
      | [(_, ?dir)] =>
          let text_o := eval vm_compute in (@Writer.did_json ref_libs dir) in
          let log_o := eval vm_compute in (@Writer.log ref_libs dir) in
          let store_o := eval vm_compute in (@Writer.store ref_libs dir) in
          match text_o with
          | Some ?text =>
              match log_o with
              | Some ?history =>
                  match store_o with
                  | Some (Writer.Build_key_store _ ?keys) =>
                      let name :=
                        eval vm_compute in
                          (RefWrite.thumbprint Sample.public_key) in
                      let loaded := eval vm_compute in (Ref.loads text) in
                      let items :=
                        eval vm_compute in
                          (fst (Manage.load_log history true true)) in
                      match loaded with
                      | Some (JObj ?members) =>
                          match items with
                          | [?latest] =>
                              let methods :=
                                eval vm_compute in
                                  (Py.dict_lookup "verificationMethod" members) in
                              match methods with
                              | Some (JArr (JObj ?m :: ?rest)) =>
                                  pose proof
                                    (@update_finds_signing_key ref_libs
                                       ref_key_libs Run.now2 Sample.time2
                                       Run.did_net "password" fs dir text
                                       history [] latest members Run.did_net
                                       m rest name keys
                                       Sample.public_key) as Hfinds
                              end
                          end
                      end
                  end
              end
          end
      end
  end.
  run_hypotheses Hfinds.
  match type of Hfinds with
  | ?A -> _ =>
      assert (Hne : A) by (intros E; discriminate E);
      specialize (Hfinds Hne); clear Hne
  end.
  run_hypotheses Hfinds.
  destruct Hfinds as (dir' & _ & Hupdated).
  eexists. eexists. exact Hupdated.
Defined.

(** X22 on the reference libraries: the DID of [example.com] with the
    sample key has an SCID that starts with a digit other than 1, and its
    generation fails in an empty working directory, which stays empty. *)
Lemma generation_refuses_digit_scid_witness :
  Writer.manual_generate_did Run.now1 Sample.time1 Run.genesis_com
    Run.sk_net "password" (Some 1) []
  = ([], Writer.Failed
           (Writer.Python
              (RuntimeError "Only SCID version 1 is supported"))).
Proof.
  let derived :=
    eval vm_compute in (Sample.update_scid Run.genesis_com (Some 1)) in
  match derived with
  | Ok (?doc_id, JObj ?d) =>
      let digit :=
        eval vm_compute in
          (Py.int_of_digit (substring 0 1 (last (Py.split ":" doc_id) ""))) in
      match digit with
      | Some ?v =>
          pose proof (@generation_refuses_digit_scid ref_libs ref_key_libs
                        Run.now1 Sample.time1 Run.genesis_com Run.sk_net
                        "password" (Some 1) [] doc_id d v) as Hrefuses
      end
  end.
  run_hypotheses Hrefuses.
  match type of Hrefuses with
  | ?A -> _ =>
      assert (Hlen : A) by (vm_compute; lia);
      specialize (Hrefuses Hlen); clear Hlen
  end.
  run_hypotheses Hrefuses.
  match type of Hrefuses with
  | ?A -> _ =>
      assert (Hv : A) by (intros E; discriminate E);
      specialize (Hrefuses Hv); clear Hv
  end.
  exact Hrefuses.
Defined.
